(** * node-oidc-client: the relying-party client (lib/base_client.js)

    A shallow embedding of [BaseClient]: its constructor, [validateIdToken],
    [joseSecret], [createSign] and [grantAuth], together with the part of
    the JavaScript runtime these methods rely on (property lookup,
    truthiness, [==] and [===], template-literal conversion, base64).

    The source holds two revisions of the class.  The later one (from
    line 372 on, with [decryptIdToken] and the [use] argument) is the one
    embedded; where the earlier one differs in [validateIdToken] it is
    embedded next to it, as [validateIdToken_earlier].  Line numbers are
    those of the source file.

    Conventions of the embedding.
    - JavaScript values are the JSON values plus [undefined].  Numbers are
      integers ([Z]): the numeric claims are NumericDate seconds and the
      clock is an integral number of milliseconds, on which [Math.ceil]
      and [Math.floor] of [Date.now() / 1000] are the integer ceiling and
      floor.
    - A JavaScript string is represented by the bytes of its UTF-8
      encoding, so [new Buffer(s)] is the identity on the representation.
    - An object is the list of its properties, one binding per name.
      Objects decoded from a token are fresh, hence never identical (by
      reference) to a value held by the client or passed by the caller,
      and they do not redefine [toString] or [valueOf].
    - A method either throws or returns; what it returns may be a promise,
      which is modelled by the way it settles.
    - The JOSE codec, the issuer's key lookup, the keystore, [tokenHash],
      [uuid], [JSON.stringify], the decoding of a token segment, what
      [new Buffer] makes of a value that is no string, and the constants
      of [lib/consts.js] are collaborators: they are the fields of the
      record [Collaborators], and every statement holds whatever they
      are. *)

From Stdlib Require Import ZArith List Bool Lia.
From Stdlib Require Import String Ascii DecimalString.
Import ListNotations.

Set Warnings "-register-all".

Local Open Scope string_scope.
Local Open Scope Z_scope.

(** ** JavaScript values *)

Inductive value : Type :=
| VUndefined
| VNull
| VBool (b : bool)
| VNum (n : Z)
| VStr (s : string)
| VArr (elems : list value)
| VObj (props : list (string * value)).

(** [typeof v] *)
Definition typeof (v : value) : string :=
  match v with
  | VUndefined => "undefined"
  | VNull | VArr _ | VObj _ => "object"
  | VBool _ => "boolean"
  | VNum _ => "number"
  | VStr _ => "string"
  end.

(** [typeof v === 'number'] *)
Definition is_number (v : value) : bool :=
  match v with VNum _ => true | _ => false end.

(** [v === undefined] *)
Definition is_undefined (v : value) : bool :=
  match v with VUndefined => true | _ => false end.

(** [v === null] *)
Definition is_null (v : value) : bool :=
  match v with VNull => true | _ => false end.

(** [Array.isArray(v)] *)
Definition isArray (v : value) : bool :=
  match v with VArr _ => true | _ => false end.

(** ToBoolean: what [if (v)], [!v] and [assert.ok(v)] look at. *)
Definition truthy (v : value) : bool :=
  match v with
  | VUndefined | VNull => false
  | VBool b => b
  | VNum n => negb (n =? 0)
  | VStr s => negb (s =? "")%string
  | VArr _ | VObj _ => true
  end.

Definition Z_to_string (n : Z) : string :=
  NilZero.string_of_int (Z.to_int n).

(** ToString, as applied by [String(v)] and by template literals.  An
    array prints its elements separated by commas, [undefined] and [null]
    elements as the empty string; a plain object prints as
    [[object Object]]. *)
Fixpoint ToString (v : value) : string :=
  match v with
  | VUndefined => "undefined"
  | VNull => "null"
  | VBool true => "true"
  | VBool false => "false"
  | VNum n => Z_to_string n
  | VStr s => s
  | VArr elems =>
      (fix join (l : list value) : string :=
         match l with
         | [] => ""
         | x :: rest =>
             let sx := match x with
                       | VUndefined | VNull => ""
                       | _ => ToString x
                       end in
             match rest with
             | [] => sx
             | _ :: _ => sx ++ "," ++ join rest
             end
         end) elems
  | VObj _ => "[object Object]"
  end.

(** [o[k]] for an object decoded from JSON: the first binding of [k]. *)
Fixpoint lookup (k : string) (props : list (string * value)) : value :=
  match props with
  | [] => VUndefined
  | (k', v) :: rest => if (k =? k')%string then v else lookup k rest
  end.

(** ** Errors and results *)

Inductive error : Type :=
| AssertionError (message : string)   (* thrown by [assert.ok], [assert.equal] *)
| Error (message : string)            (* [throw new Error(message)] *)
| TypeError (message : string)        (* raised by the runtime *)
| SyntaxError (message : string)      (* [JSON.parse] *)
| JoseError (message : string).       (* a failure of the JOSE codec *)

Inductive result (A : Type) : Type :=
| Ok (a : A)
| Throw (e : error).
Arguments Ok {A} a.
Arguments Throw {A} e.

Definition bind {A B : Type} (r : result A) (k : A -> result B) : result B :=
  match r with
  | Ok a => k a
  | Throw e => Throw e
  end.

Declare Scope js_scope.
Delimit Scope js_scope with js.
Notation "x <- c ;; k" := (bind c (fun x => k))
  (at level 100, c at next level, right associativity) : js_scope.
Notation "c ;;; k" := (bind c (fun _ => k))
  (at level 100, right associativity) : js_scope.

(** [o.k] where [o] is any value: reading a property of [undefined] or
    [null] is a TypeError; the primitives and arrays have none of the
    properties the client reads by name. *)
Definition get_prop (o : value) (k : string) : result value :=
  match o with
  | VUndefined => Throw (TypeError ("Cannot read property '" ++ k ++ "' of undefined"))
  | VNull => Throw (TypeError ("Cannot read property '" ++ k ++ "' of null"))
  | VObj props => Ok (lookup k props)
  | _ => Ok VUndefined
  end.

(** [assert.ok(b, message)] *)
Definition assert_ok (b : bool) (message : string) : result unit :=
  if b then Ok tt else Throw (AssertionError message).

(** ** Equality *)

(** [x === y], also the comparison of [indexOf] and of [switch].  Two
    objects or arrays are equal only if they are the same object, which a
    freshly decoded one never is. *)
Definition strict_eq (x y : value) : bool :=
  match x, y with
  | VUndefined, VUndefined => true
  | VNull, VNull => true
  | VBool a, VBool b => Bool.eqb a b
  | VNum a, VNum b => a =? b
  | VStr a, VStr b => (a =? b)%string
  | _, _ => false
  end.

(** ToPrimitive followed by the conversion of booleans to numbers: the
    operand as [==] compares it. *)
Definition to_comparable (v : value) : value :=
  match v with
  | VBool true => VNum 1
  | VBool false => VNum 0
  | VArr _ | VObj _ => VStr (ToString v)
  | _ => v
  end.

Definition is_object (v : value) : bool :=
  match v with VArr _ | VObj _ => true | _ => false end.

Section LooseEquality.

(** ToNumber on strings; [None] when the string denotes no integer. *)
Variable StringToNumber : string -> option Z.

Definition num_eq_str (n : Z) (s : string) : bool :=
  match StringToNumber s with
  | Some m => n =? m
  | None => false
  end.

(** [x == y] (the comparison of [assert.equal]). *)
Definition loose_eq (x y : value) : bool :=
  if is_object x && is_object y then false
  else
    match to_comparable x, to_comparable y with
    | (VUndefined | VNull), (VUndefined | VNull) => true
    | VNum a, VNum b => a =? b
    | VStr a, VStr b => (a =? b)%string
    | VNum a, VStr s => num_eq_str a s
    | VStr s, VNum a => num_eq_str a s
    | _, _ => false
    end.

(** [assert.equal(actual, expected, message)] *)
Definition assert_equal (actual expected : value) (message : string)
  : result unit :=
  assert_ok (loose_eq actual expected) message.

End LooseEquality.

(** ** Strings and buffers *)

(** [s.split(sep)] for a one-character separator. *)
Fixpoint split (sep : ascii) (s : string) : list string :=
  match s with
  | EmptyString => [EmptyString]
  | String c rest =>
      let parts := split sep rest in
      if Ascii.eqb c sep then EmptyString :: parts
      else match parts with
           | p :: ps => String c p :: ps
           | [] => [String c EmptyString]
           end
  end.

(** [s.startsWith(p)] *)
Definition startsWith (s p : string) : bool := String.prefix p s.

(** [s.endsWith(p)] *)
Definition endsWith (s p : string) : bool :=
  let n := String.length s in
  let m := String.length p in
  if (n <? m)%nat then false
  else (substring (n - m) m s =? p)%string.

Definition base64_alphabet : string :=
  "ABCDEFGHIJKLMNOPQRSTUVWXYZabcdefghijklmnopqrstuvwxyz0123456789+/".

Definition base64_digit (n : N) : ascii :=
  match String.get (N.to_nat n) base64_alphabet with
  | Some c => c
  | None => "="%char
  end.

(** [buffer.toString('base64')]: three bytes give four digits, the last
    group is padded with [=]. *)
Fixpoint base64_encode (bytes : list ascii) : string :=
  match bytes with
  | [] => ""
  | a :: rest1 =>
      let x := N_of_ascii a in
      match rest1 with
      | [] =>
          String (base64_digit (x / 4))
            (String (base64_digit ((x mod 4) * 16)) "==")
      | b :: rest2 =>
          let y := N_of_ascii b in
          match rest2 with
          | [] =>
              String (base64_digit (x / 4))
                (String (base64_digit ((x mod 4) * 16 + y / 16))
                   (String (base64_digit ((y mod 16) * 4)) "="))
          | c :: rest3 =>
              let z := N_of_ascii c in
              String (base64_digit (x / 4))
                (String (base64_digit ((x mod 4) * 16 + y / 16))
                   (String (base64_digit ((y mod 16) * 4 + z / 64))
                      (String (base64_digit (z mod 64))
                         (base64_encode rest3))))
          end
      end
  end%N.

(** [new Buffer(s).toString('base64')] *)
Definition Buffer_toString_base64 (s : string) : string :=
  base64_encode (list_ascii_of_string s).

(** [base64url(buffer)]: base64 without padding, [+] and [/] replaced by
    [-] and [_]. *)
Fixpoint base64_to_url (s : string) : string :=
  match s with
  | EmptyString => EmptyString
  | String c rest =>
      if Ascii.eqb c "="%char then base64_to_url rest
      else if Ascii.eqb c "+"%char then String "-"%char (base64_to_url rest)
      else if Ascii.eqb c "/"%char then String "_"%char (base64_to_url rest)
      else String c (base64_to_url rest)
  end.

Definition base64url (s : string) : string :=
  base64_to_url (Buffer_toString_base64 s).


(** ** The token set *)

(** Modelled from the spec: the TokenSet value object ([lib/token_set.js]
    is not among the sources; its test-suite is).  A token set holds the
    fields of the token response.  When the response carries a numeric
    [expires_in], construction stores [expires_at = currentUnixTime +
    expires_in] in its place; [expires_in] is afterwards read back from
    [expires_at]. *)
Record TokenSet : Type := mkTokenSet { ts_fields : list (string * value) }.

Definition remove_key (k : string) (props : list (string * value))
  : list (string * value) :=
  filter (fun kv => negb (fst kv =? k)%string) props.

(** Modelled from the spec: [new TokenSet(values)] at clock reading
    [currentUnixTime] (seconds). *)
Definition TokenSet_new (currentUnixTime : Z) (values : list (string * value))
  : TokenSet :=
  match lookup "expires_in" values with
  | VNum n =>
      mkTokenSet
        (("expires_at", VNum (currentUnixTime + n))
           :: remove_key "expires_at" (remove_key "expires_in" values))
  | _ => mkTokenSet values
  end.

(** Modelled from the spec: reading a field of a token set; [expires_in]
    is [max(expires_at - currentUnixTime, 0)] whenever [expires_at] is a
    number. *)
Definition TokenSet_get (ts : TokenSet) (currentUnixTime : Z) (k : string)
  : value :=
  if (k =? "expires_in")%string then
    match lookup "expires_at" (ts_fields ts) with
    | VNum e => VNum (Z.max (e - currentUnixTime) 0)
    | _ => lookup k (ts_fields ts)
    end
  else lookup k (ts_fields ts).

(** Modelled from the spec: [expired()] is
    [expires_at !== undefined && currentUnixTime >= expires_at], for an
    [expires_at] that is a number when it is there. *)
Definition expired (ts : TokenSet) (currentUnixTime : Z) : bool :=
  match lookup "expires_at" (ts_fields ts) with
  | VNum e => e <=? currentUnixTime
  | _ => false
  end.

(** ** Collaborators *)

(** A key of the JOSE library, as far as the client looks at it:
    [key.algorithms('sign')]. *)
Record Key : Type := mkKey {
  key_name : string;
  key_sign_algorithms : list string
}.

(** The object made by [jose.JWS.createSign({ fields: { alg, typ: 'JWT' },
    format: 'compact' }, { key, reference })]. *)
Record Signer : Type := mkSigner {
  signer_alg : value;
  signer_key : Key;
  signer_reference : bool
}.

Record Collaborators : Type := mkCollaborators {
  (** ToNumber on strings, used by [==] *)
  StringToNumber : string -> option Z;
  (** [require('./consts')] *)
  CLIENT_METADATA : list string;
  CLIENT_DEFAULTS : list (string * value);
  (** [JSON.parse(base64url.decode(segment))] *)
  decode_json : string -> result value;
  (** [require('./token_hash')] *)
  tokenHash : value -> value -> result value;
  (** [JSON.stringify] *)
  JSON_stringify : value -> string;
  (** [require('node-uuid').v4]: the identifier of the n-th call *)
  uuid : nat -> string;
  (** [jose.JWK.asKey({ k, kty: 'oct' })], once settled *)
  asKey : string -> result Key;
  (** [issuer.key(header)], once settled *)
  issuer_key : value -> result Key;
  (** [keystore.get({ alg })] *)
  keystore_get : list Key -> value -> option Key;
  (** [jose.JWS.createVerify(key).verify(idToken)], once settled *)
  jws_verify : Key -> string -> result unit;
  (** [sign.update(data).final()], once settled *)
  jws_final : Signer -> string -> result string;
  (** [new Buffer(v)] for a [v] that is no string (a number, an array, a
      buffer): its octets, or what the constructor throws *)
  new_Buffer : value -> result string
}.

(** The issuer: its metadata.  [issuer.key] is a collaborator. *)
Record Issuer : Type := mkIssuer { issuer_metadata : list (string * value) }.

Definition issuer_prop (i : Issuer) (k : string) : value :=
  lookup k (issuer_metadata i).

(** What the constructor may be given as [keystore]. *)
Inductive keystore_arg : Type :=
| KsKeyStore (keys : list Key)     (* [jose.JWK.isKeyStore] holds *)
| KsValue (v : value).             (* anything else *)

(** A client: [instance(this)] holds the metadata picked at construction,
    next to the keystore. *)
Record Client : Type := mkClient {
  issuer : Issuer;
  instance : list (string * value);
  keystore : option (list Key)
}.

(** What a call may have done to the world around the client. *)
Inductive event : Type :=
| EAsKey (k : string)
| EIssuerKey (header : value)
| EVerify (key : Key) (idToken : string)
| EUuid (n : nat)
| ESign (signer : Signer) (data : string).

(** The mutable part: the cached [instance(this).jose_secret], the
    number of identifiers drawn so far, and the calls made to the
    collaborators, the latest first. *)
Record state : Type := mkState {
  jose_secret : option Key;
  uuid_count : nat;
  trace : list event
}.

Definition log (e : event) (st : state) : state :=
  mkState (jose_secret st) (uuid_count st) (e :: trace st).

(** A promise, once settled. *)
Inductive settled (A : Type) : Type :=
| Fulfilled (a : A)
| Rejected (e : error).
Arguments Fulfilled {A} a.
Arguments Rejected {A} e.

(** What a method hands back when it does not throw: a value, or a
    promise of one. *)
Inductive returned (A : Type) : Type :=
| Plain (a : A)
| Promise (p : settled A).
Arguments Plain {A} a.
Arguments Promise {A} p.

(** What [validateIdToken] is given as [token]. *)
Inductive token_arg : Type :=
| TSet (ts : TokenSet)          (* [token instanceof TokenSet] *)
| TValue (v : value).

(** [token.k] *)
Definition token_prop (token : token_arg) (k : string) : result value :=
  match token with
  | TSet ts => Ok (lookup k (ts_fields ts))
  | TValue v => get_prop v k
  end.

(** [v.name(...)] for a method [name] of strings: only a string has it. *)
Definition call_string_method {A : Type} (v : value) (name : string)
  (method : string -> A) : result A :=
  match v with
  | VStr s => Ok (method s)
  | VUndefined =>
      Throw (TypeError ("Cannot read property '" ++ name ++ "' of undefined"))
  | VNull =>
      Throw (TypeError ("Cannot read property '" ++ name ++ "' of null"))
  | _ => Throw (TypeError (name ++ " is not a function"))
  end.

(** [array.indexOf(x)] *)
Fixpoint indexOf_from (l : list value) (x : value) (i : Z) : Z :=
  match l with
  | [] => -1
  | y :: rest => if strict_eq y x then i else indexOf_from rest x (i + 1)
  end.

Definition indexOf (l : list value) (x : value) : Z := indexOf_from l x 0.

(** [list.forEach(f)] for an [f] that may throw. *)
Fixpoint forEach {A : Type} (f : A -> result unit) (l : list A)
  : result unit :=
  match l with
  | [] => Ok tt
  | x :: rest => (f x ;;; forEach f rest)%js
  end.

Definition has_key (k : string) (props : list (string * value)) : bool :=
  existsb (fun kv => (fst kv =? k)%string) props.

(** [_.pick(object, keys)] *)
Definition pick (object : value) (keys : list string)
  : list (string * value) :=
  match object with
  | VObj props =>
      flat_map
        (fun k => if has_key k props then [(k, lookup k props)] else [])
        keys
  | _ => []
  end.

(** [_.defaults(object, source)]: a property of [source] is taken where
    [object] resolves it to [undefined]. *)
Definition defaults (object source : list (string * value))
  : list (string * value) :=
  filter (fun kv => is_undefined (lookup (fst kv) object)) source ++ object.

(** [_.find(collection, predicate)]: the elements of an array, the values
    of an object, the characters of a string. *)
Definition find (collection : value) (predicate : value -> bool) : value :=
  let first l := match List.find predicate l with
                 | Some v => v
                 | None => VUndefined
                 end in
  match collection with
  | VArr elems => first elems
  | VObj props => first (map snd props)
  | VStr s =>
      first (map (fun c => VStr (String c EmptyString)) (list_ascii_of_string s))
  | _ => VUndefined
  end.

(** [_.uniq(list)]: the first occurrence of each element is kept. *)
Fixpoint uniq (l : list string) : list string :=
  match l with
  | [] => []
  | x :: rest => x :: filter (fun y => negb (y =? x)%string) (uniq rest)
  end.

(** ** BaseClient *)

Section BaseClient.

Context (E : Collaborators).

Local Open Scope js_scope.

(** The getter defined on the prototype for every name of
    [CLIENT_METADATA]: [instance(this)[prop]]. *)
Definition prop (this : Client) (name : string) : value :=
  if existsb (String.eqb name) (CLIENT_METADATA E)
  then lookup name (instance this)
  else VUndefined.

Definition assert_eq (actual expected : value) (message : string)
  : result unit :=
  assert_equal (StringToNumber E) actual expected message.

(** *** constructor(metadata, keystore) *)

Definition BaseClient_constructor
  (iss : Issuer) (metadata : value) (ks : keystore_arg) : result Client :=
  let picked :=
    defaults (pick metadata (CLIENT_METADATA E)) (CLIENT_DEFAULTS E) in
  store <- match ks with
           | KsValue VUndefined => Ok None
           | KsKeyStore keys => Ok (Some keys)
           | KsValue _ =>
               Throw (AssertionError
                        "keystore must be an instance of jose.JWK.KeyStore")
           end ;;
  let this := mkClient iss picked store in
  jwt <- call_string_method (prop this "token_endpoint_auth_method")
           "endsWith" (fun s => endsWith s "_jwt") ;;
  if jwt then
    assert_ok
      (truthy (issuer_prop iss
                 "token_endpoint_auth_signing_alg_values_supported"))
      "token_endpoint_auth_signing_alg_values_supported must be provided on the issuer" ;;;
    Ok this
  else Ok this.

(** *** joseSecret(), lines 671-683 *)

(** [new Buffer(this.client_secret)], line 677: the octets of the secret.
    A string gives its own; for anything else the constructor decides. *)
Definition secret_octets (this : Client) : result string :=
  match prop this "client_secret" with
  | VStr secret => Ok secret
  | other => new_Buffer E other
  end.

Definition joseSecret (this : Client) (st : state)
  : result (settled Key) * state :=
  match jose_secret st with
  | Some key => (Ok (Fulfilled key), st)
  | None =>
      match secret_octets this with
      | Ok octets =>
          let k := base64url octets in
          let st1 := log (EAsKey k) st in
          match asKey E k with
          | Ok key =>
              (Ok (Fulfilled key),
               mkState (Some key) (uuid_count st1) (trace st1))
          | Throw e => (Ok (Rejected e), st1)
          end
      | Throw e => (Throw e, st)
      end
  end.

(** *** validateIdToken(token, nonce, use), lines 523-605 *)

(** [Math.ceil(Date.now() / 1000)] *)
Definition ceil_seconds (Date_now : Z) : Z := - ((- Date_now) / 1000).

(** Lines 527-531: the algorithm expected for this use. *)
Definition expected_alg (this : Client) (use : value) : value :=
  if strict_eq use (VStr "userinfo")
  then prop this "userinfo_signed_response_alg"
  else prop this "id_token_signed_response_alg".

(** Lines 533-548: the compact token as a string, with its decoded
    header and payload. *)
Definition decode_token (token : token_arg)
  : result (string * value * value) :=
  idToken <- match token with
             | TSet ts =>
                 let t := lookup "id_token" (ts_fields ts) in
                 if truthy t then Ok t
                 else Throw (Error "id_token not present in TokenSet")
             | TValue v => Ok v
             end ;;
  let idToken := ToString idToken in
  let parts := split "."%char idToken in
  headerObject <- decode_json E (nth 0 parts "") ;;
  payloadObject <- match nth_error parts 1 with
                   | Some payload => decode_json E payload
                   | None =>
                       Throw (TypeError
                                "Cannot read property 'toString' of undefined")
                   end ;;
  Ok (idToken, headerObject, payloadObject).

Definition verifyPresence (payloadObject : value) (name : string)
  : result unit :=
  v <- get_prop payloadObject name ;;
  if is_undefined v
  then Throw (Error ("missing required JWT property " ++ name))
  else Ok tt.

(** Line 556 *)
Definition check_alg (expectedAlg headerObject : value) : result unit :=
  alg <- get_prop headerObject "alg" ;;
  assert_eq alg expectedAlg "unexpected algorithm used".

(** Line 558 *)
Definition check_presence (payloadObject : value) : result unit :=
  forEach (verifyPresence payloadObject) ["iss"; "sub"; "aud"; "exp"; "iat"].

(** Line 559 *)
Definition check_iss (this : Client) (payloadObject : value) : result unit :=
  iss <- get_prop payloadObject "iss" ;;
  assert_eq (issuer_prop (issuer this) "issuer") iss "unexpected iss value".

(** [a <= b] once [a] is known to be a number. *)
Definition num_le (a : value) (b : Z) : bool :=
  match a with VNum n => n <=? b | _ => false end.

(** [a < b] once [b] is known to be a number. *)
Definition num_gt (b : value) (a : Z) : bool :=
  match b with VNum n => a <? n | _ => false end.

(** Lines 561-562 *)
Definition check_iat (now : Z) (payloadObject : value) : result unit :=
  iat <- get_prop payloadObject "iat" ;;
  assert_ok (is_number iat) "iat is not a number" ;;;
  assert_ok (num_le iat now) "id_token issued in the future".

(** Lines 564-567 *)
Definition check_nbf (now : Z) (payloadObject : value) : result unit :=
  nbf <- get_prop payloadObject "nbf" ;;
  if negb (is_undefined nbf) then
    assert_ok (is_number nbf) "nbf is not a number" ;;;
    assert_ok (num_le nbf now) "id_token not active yet"
  else Ok tt.

(** Lines 569-571 *)
Definition check_nonce (payloadObject nonce : value) : result unit :=
  pnonce <- get_prop payloadObject "nonce" ;;
  if truthy pnonce || (negb (is_undefined nonce) || negb (is_null nonce))
  then assert_eq pnonce nonce "nonce mismatch"
  else Ok tt.

(** Lines 573-574 *)
Definition check_exp (now : Z) (payloadObject : value) : result unit :=
  exp <- get_prop payloadObject "exp" ;;
  assert_ok (is_number exp) "exp is not a number" ;;;
  assert_ok (num_gt exp now) "id_token expired".

(** Lines 576-578 *)
Definition check_azp (this : Client) (payloadObject : value) : result unit :=
  azp <- get_prop payloadObject "azp" ;;
  if negb (is_undefined azp)
  then assert_eq (prop this "client_id") azp "azp must be the client_id"
  else Ok tt.

(** Lines 580-584: the audience as a list; [payloadObject.aud] is
    overwritten with it when it was not an array. *)
Definition normalize_aud (aud azp : value) : result (list value) :=
  match aud with
  | VArr elems =>
      if (1 <? Z.of_nat (List.length elems)) && negb (truthy azp)
      then Throw (Error "missing required JWT property azp")
      else Ok elems
  | _ => Ok [aud]
  end.

(** Lines 580-586 *)
Definition check_aud (this : Client) (payloadObject : value) : result unit :=
  aud <- get_prop payloadObject "aud" ;;
  azp <- get_prop payloadObject "azp" ;;
  audience <- normalize_aud aud azp ;;
  assert_ok (negb (indexOf audience (prop this "client_id") =? -1))
    "aud is missing the client_id".

(** Lines 588-591 and 593-596: the claim [name] against the hash of
    [token.field]. *)
Definition check_hash (name field message : string)
  (token : token_arg) (headerObject payloadObject : value) : result unit :=
  claim <- get_prop payloadObject name ;;
  if truthy claim then
    source <- token_prop token field ;;
    alg <- get_prop headerObject "alg" ;;
    hash <- tokenHash E source alg ;;
    assert_eq claim hash message
  else Ok tt.

Definition check_at_hash := check_hash "at_hash" "access_token" "at_hash mismatch".
Definition check_c_hash := check_hash "c_hash" "code" "c_hash mismatch".

(** Lines 556-596, in the order of the source. *)
Definition check_claims (this : Client) (now : Z) (token : token_arg)
  (nonce use headerObject payloadObject : value) : result unit :=
  check_alg (expected_alg this use) headerObject ;;;
  check_presence payloadObject ;;;
  check_iss this payloadObject ;;;
  check_iat now payloadObject ;;;
  check_nbf now payloadObject ;;;
  check_nonce payloadObject nonce ;;;
  check_exp now payloadObject ;;;
  check_azp this payloadObject ;;;
  check_aud this payloadObject ;;;
  check_at_hash token headerObject payloadObject ;;;
  check_c_hash token headerObject payloadObject.

(** Lines 602-604: the key is the client's secret for the HS family,
    else the issuer's; then the signature is verified. *)
Definition verify_signature (this : Client) (token : token_arg)
  (idToken : string) (headerObject : value) (st : state)
  : result (settled token_arg) * state :=
  match get_prop headerObject "alg" with
  | Throw e => (Throw e, st)
  | Ok alg =>
      match call_string_method alg "startsWith"
              (fun s => startsWith s "HS") with
      | Throw e => (Throw e, st)
      | Ok hs =>
          let '(key, st1) :=
            if hs then joseSecret this st
            else (match issuer_key E headerObject with
                  | Ok k => Ok (Fulfilled k)
                  | Throw e => Ok (Rejected e)
                  end, log (EIssuerKey headerObject) st) in
          match key with
          | Throw e => (Throw e, st1)
          | Ok (Rejected e) => (Ok (Rejected e), st1)
          | Ok (Fulfilled k) =>
              let st2 := log (EVerify k idToken) st1 in
              match jws_verify E k idToken with
              | Ok _ => (Ok (Fulfilled token), st2)
              | Throw e => (Ok (Rejected e), st2)
              end
          end
      end
  end.

Definition validateIdToken (this : Client) (Date_now : Z)
  (token : token_arg) (nonce use : value) (st : state)
  : result (settled token_arg) * state :=
  let now := ceil_seconds Date_now in
  match decode_token token with
  | Throw e => (Throw e, st)
  | Ok (idToken, headerObject, payloadObject) =>
      match check_claims this now token nonce use headerObject payloadObject with
      | Throw e => (Throw e, st)
      | Ok _ =>
          match get_prop headerObject "alg" with
          | Throw e => (Throw e, st)
          | Ok alg =>
              if strict_eq alg (VStr "none")
              then (Ok (Fulfilled token), st)
              else verify_signature this token idToken headerObject st
          end
      end
  end.

(** *** validateIdToken(token, nonce), the earlier revision

    The source holds two revisions of the client.  The earlier one
    (lines 87-158) has no [use] argument and differs from the later one
    above in three places: the nonce is compared only when the payload's
    is truthy or the caller's is not [undefined]; a hash claim is
    compared only when the token field is truthy as well; and there is
    no shortcut for ['none']. *)

(** Lines 126-128 *)
Definition check_nonce_earlier (payloadObject nonce : value) : result unit :=
  pnonce <- get_prop payloadObject "nonce" ;;
  if truthy pnonce || negb (is_undefined nonce)
  then assert_eq pnonce nonce "nonce mismatch"
  else Ok tt.

(** Lines 145-148 and 150-153 *)
Definition check_hash_earlier (name field message : string)
  (token : token_arg) (headerObject payloadObject : value) : result unit :=
  claim <- get_prop payloadObject name ;;
  if truthy claim then
    source <- token_prop token field ;;
    if truthy source then
      alg <- get_prop headerObject "alg" ;;
      hash <- tokenHash E source alg ;;
      assert_eq claim hash message
    else Ok tt
  else Ok tt.

(** Lines 113-153 *)
Definition check_claims_earlier (this : Client) (now : Z) (token : token_arg)
  (nonce headerObject payloadObject : value) : result unit :=
  alg <- get_prop headerObject "alg" ;;
  assert_eq (prop this "id_token_signed_response_alg") alg
    "unexpected algorithm used" ;;;
  check_presence payloadObject ;;;
  check_iss this payloadObject ;;;
  check_iat now payloadObject ;;;
  check_nbf now payloadObject ;;;
  check_nonce_earlier payloadObject nonce ;;;
  check_exp now payloadObject ;;;
  check_azp this payloadObject ;;;
  check_aud this payloadObject ;;;
  check_hash_earlier "at_hash" "access_token" "at_hash mismatch"
    token headerObject payloadObject ;;;
  check_hash_earlier "c_hash" "code" "c_hash mismatch"
    token headerObject payloadObject.

Definition validateIdToken_earlier (this : Client) (Date_now : Z)
  (token : token_arg) (nonce : value) (st : state)
  : result (settled token_arg) * state :=
  let now := ceil_seconds Date_now in
  match decode_token token with
  | Throw e => (Throw e, st)
  | Ok (idToken, headerObject, payloadObject) =>
      match check_claims_earlier this now token nonce
              headerObject payloadObject with
      | Throw e => (Throw e, st)
      | Ok _ => verify_signature this token idToken headerObject st
      end
  end.

(** *** createSign() *)

(** [list.indexOf(signAlg) !== -1] for a list of algorithm names. *)
Definition supports (algorithms : list string) (signAlg : value) : bool :=
  negb (indexOf (map VStr algorithms) signAlg =? -1).

Definition createSign (this : Client) (st : state)
  : result (settled Signer) * state :=
  let alg := prop this "token_endpoint_auth_signing_alg" in
  let method := prop this "token_endpoint_auth_method" in
  let supported :=
    issuer_prop (issuer this)
      "token_endpoint_auth_signing_alg_values_supported" in
  if strict_eq method (VStr "client_secret_jwt") then
    match joseSecret this st with
    | (Throw e, st1) => (Throw e, st1)
    | (Ok (Rejected e), st1) => (Ok (Rejected e), st1)
    | (Ok (Fulfilled key), st1) =>
        let alg :=
          if negb (truthy alg)
          then find supported (supports (key_sign_algorithms key))
          else alg in
        (Ok (Fulfilled (mkSigner alg key false)), st1)
    end
  else if strict_eq method (VStr "private_key_jwt") then
    match keystore this with
    | None =>
        (Throw (TypeError
                  (if negb (truthy alg)
                   then "Cannot read property 'all' of undefined"
                   else "Cannot read property 'get' of undefined")), st)
    | Some keys =>
        let alg :=
          if negb (truthy alg) then
            let algz := uniq (flat_map key_sign_algorithms keys) in
            find supported (supports algz)
          else alg in
        match keystore_get E keys alg with
        | Some key => (Ok (Fulfilled (mkSigner alg key true)), st)
        | None => (Throw (AssertionError "no valid key found"), st)
        end
    end
  else
    (Throw (Error "createSign only works for _jwt token auth methods"), st).

(** *** grantAuth() *)

(** The claims of a client assertion (lines 797-804). *)
Definition assertion_payload (this : Client) (now : Z) (jti : string)
  : value :=
  VObj [ ("iat", VNum now);
         ("exp", VNum (now + 60));
         ("jti", VStr jti);
         ("iss", prop this "client_id");
         ("sub", prop this "client_id");
         ("aud", issuer_prop (issuer this) "token_endpoint") ].

Definition assertion_body (client_assertion : string) : value :=
  VObj [ ("body",
          VObj [ ("client_assertion", VStr client_assertion);
                 ("client_assertion_type",
                  VStr "urn:ietf:params:oauth:client-assertion-type:jwt-bearer") ]) ].

Definition secret_post_body (this : Client) : value :=
  VObj [ ("body",
          VObj [ ("client_id", prop this "client_id");
                 ("client_secret", prop this "client_secret") ]) ].

Definition basic_header (this : Client) : value :=
  let value :=
    Buffer_toString_base64
      (ToString (prop this "client_id") ++ ":"
         ++ ToString (prop this "client_secret")) in
  VObj [ ("headers", VObj [ ("Authorization", VStr ("Basic " ++ value)) ]) ].

(** [uuid()]: the next identifier. *)
Definition draw_uuid (st : state) : string * state :=
  (uuid E (uuid_count st),
   mkState (jose_secret st) (S (uuid_count st))
     (EUuid (uuid_count st) :: trace st)).

(** [Math.floor(Date.now() / 1000)] *)
Definition floor_seconds (Date_now : Z) : Z := Date_now / 1000.

Definition grantAuth (this : Client) (Date_now : Z) (st : state)
  : result (returned value) * state :=
  let method := prop this "token_endpoint_auth_method" in
  if strict_eq method (VStr "none") then
    (Throw (Error "client not supposed to use grant authz"), st)
  else if strict_eq method (VStr "client_secret_post") then
    (Ok (Plain (secret_post_body this)), st)
  else if strict_eq method (VStr "private_key_jwt")
          || strict_eq method (VStr "client_secret_jwt") then
    let now := floor_seconds Date_now in
    match createSign this st with
    | (Throw e, st1) => (Throw e, st1)
    | (Ok (Rejected e), st1) => (Ok (Promise (Rejected e)), st1)
    | (Ok (Fulfilled sign), st1) =>
        let '(jti, st2) := draw_uuid st1 in
        let data := JSON_stringify E (assertion_payload this now jti) in
        let st3 := log (ESign sign data) st2 in
        match jws_final E sign data with
        | Ok client_assertion =>
            (Ok (Promise (Fulfilled (assertion_body client_assertion))), st3)
        | Throw e => (Ok (Promise (Rejected e)), st3)
        end
    end
  else
    (Ok (Plain (basic_header this)), st).

End BaseClient.

(** ** A sample deployment

    One issuer, one client and stand-ins for the collaborators, on which
    the statements below are exercised. *)

Module Sample.

(** ToNumber restricted to decimal integers. *)
Definition StringToNumber (s : string) : option Z :=
  if (s =? "")%string then Some 0
  else match NilZero.int_of_string s with
       | Some i => Some (Z.of_int i)
       | None => None
       end.

(** Modelled from the spec: the recognized registration properties
    ([lib/consts.js] is not among the sources). *)
Definition CLIENT_METADATA : list string :=
  [ "client_id"; "client_secret"; "redirect_uris"; "response_types";
    "token_endpoint_auth_method"; "token_endpoint_auth_signing_alg";
    "id_token_signed_response_alg"; "id_token_encrypted_response_alg";
    "id_token_encrypted_response_enc"; "userinfo_signed_response_alg";
    "userinfo_encrypted_response_alg"; "userinfo_encrypted_response_enc" ].

(** Modelled from the spec: the defaults it names. *)
Definition CLIENT_DEFAULTS : list (string * value) :=
  [ ("id_token_signed_response_alg", VStr "RS256");
    ("token_endpoint_auth_method", VStr "client_secret_basic") ].

Definition claims (extra : list (string * value)) : value :=
  VObj (extra ++
        [ ("iss", VStr "https://op.example");
          ("sub", VStr "user");
          ("aud", VStr "c");
          ("exp", VNum 2000);
          ("iat", VNum 1000) ]).

(** The segments the stand-in decoder knows. *)
Definition segments : list (string * value) :=
  [ ("none", VObj [("alg", VStr "none")]);
    ("HS256", VObj [("alg", VStr "HS256")]);
    ("RS256", VObj [("alg", VStr "RS256")]);
    ("plain", claims []);
    ("nonce-n", claims [("nonce", VStr "n")]);
    ("nonce-empty", claims [("nonce", VStr "")]);
    ("at_hash-empty", claims [("at_hash", VStr "")]);
    ("c_hash-empty", claims [("c_hash", VStr "")]);
    ("at_hash-bad", claims [("at_hash", VStr "bad")]);
    ("c_hash-bad", claims [("c_hash", VStr "bad")]);
    ("hashes-good",
     claims [("at_hash", VStr "#at:none"); ("c_hash", VStr "#co:none")]);
    ("azp-other", claims [("azp", VStr "other")]);
    ("aud-two", claims [("aud", VArr [VStr "c"; VStr "d"])]);
    ("aud-two-azp",
     claims [("aud", VArr [VStr "c"; VStr "d"]); ("azp", VStr "c")]);
    ("aud-other", claims [("aud", VStr "d")]);
    ("iat-late", claims [("iat", VNum 1501)]);
    ("iat-text", claims [("iat", VStr "1000")]);
    ("nbf-late", claims [("nbf", VNum 1501)]);
    ("nbf-text", claims [("nbf", VStr "0")]);
    ("exp-now", claims [("exp", VNum 1500)]);
    ("exp-text", claims [("exp", VStr "2000")]);
    ("azp-array", claims [("azp", VArr [VStr "c"])]) ].

Definition decode_json (segment : string) : result value :=
  if has_key segment segments then Ok (lookup segment segments)
  else Throw (SyntaxError "Unexpected token in JSON").

Definition tokenHash (source alg : value) : result value :=
  match source with
  | VStr s => Ok (VStr ("#" ++ s ++ ":" ++ ToString alg))
  | _ => Throw (TypeError "Data must be a string or a buffer")
  end.

Definition JSON_stringify (v : value) : string :=
  match v with
  | VObj props =>
      "{" ++ String.concat ","
               (map (fun kv => fst kv ++ ":" ++ ToString (snd kv)) props)
          ++ "}"
  | _ => ToString v
  end.

Fixpoint tally (n : nat) : string :=
  match n with
  | O => ""
  | S k => String "i"%char (tally k)
  end.

Definition uuid (n : nat) : string := tally (S n).

Definition asKey (k : string) : result Key :=
  Ok (mkKey ("oct:" ++ k) ["HS256"; "HS384"; "HS512"]).

Definition issuer_key (header : value) : result Key :=
  Ok (mkKey "op" ["RS256"]).

Definition keystore_get (keys : list Key) (alg : value) : option Key :=
  List.find
    (fun key => existsb (fun a => strict_eq (VStr a) alg)
                  (key_sign_algorithms key))
    keys.

Definition jws_verify (key : Key) (idToken : string) : result unit :=
  if (nth 2 (split "."%char idToken) "" =? key_name key)%string
  then Ok tt
  else Throw (JoseError "no key found").

Definition jws_final (signer : Signer) (data : string) : result string :=
  Ok (ToString (signer_alg signer) ++ "." ++ data ++ "."
        ++ key_name (signer_key signer)).

(** A buffer of the octets of an array of numbers, or of as many zero
    octets as a number says. *)
Definition new_Buffer (v : value) : result string :=
  match v with
  | VArr elems =>
      Ok (string_of_list_ascii
            (map (fun e => match e with
                           | VNum n => ascii_of_N (Z.to_N (n mod 256))
                           | _ => Ascii.zero
                           end) elems))
  | VNum n => Ok (string_of_list_ascii (repeat Ascii.zero (Z.to_nat n)))
  | _ => Throw (TypeError "must start with number, buffer, array or string")
  end.

Definition collaborators : Collaborators :=
  mkCollaborators StringToNumber CLIENT_METADATA CLIENT_DEFAULTS
    decode_json tokenHash JSON_stringify uuid asKey issuer_key
    keystore_get jws_verify jws_final new_Buffer.

Definition op (extra : list (string * value)) : Issuer :=
  mkIssuer (extra ++
            [ ("issuer", VStr "https://op.example");
              ("token_endpoint", VStr "https://op.example/token") ]).

(** The client [{ client_id: 'c', client_secret: 's' }] with the given
    authentication method and expected signing algorithm. *)
Definition client (method alg : string) : Client :=
  mkClient (op [("token_endpoint_auth_signing_alg_values_supported",
                 VArr [VStr "RS256"; VStr "HS256"])])
    [ ("client_id", VStr "c");
      ("client_secret", VStr "s");
      ("token_endpoint_auth_method", VStr method);
      ("id_token_signed_response_alg", VStr alg) ]
    (Some [mkKey "rsa" ["RS256"; "PS256"]]).

Definition fresh : state := mkState None 0 [].

(** A token set whose ID Token has the given segments. *)
Definition tokens (header payload signature : string)
  (extra : list (string * value)) : token_arg :=
  TSet (mkTokenSet
          (("id_token", VStr (header ++ "." ++ payload ++ "." ++ signature))
             :: extra)).

End Sample.

(** ** Requests

    The methods of the client that talk to the provider.  The HTTP
    client ([got]), [issuer.httpOptions], [_.merge], [JSON.parse], the JWE
    codec, [url.parse] and [url.format], the clock and the remaining
    constants of [lib/consts.js] are collaborators as well: the fields of
    the record [Transport].  The answer to a request may depend on how
    many requests were made before it, and a reading of the clock on how
    many readings were taken before it. *)

(** What [got[verb](endpoint, options)] comes to: a response, a failure
    (which [gotErrorHandler] then turns into the error it throws), or no
    call at all, when [got[verb]] is not a function. *)
Inductive http_result : Type :=
| HttpResponse (headers : value) (body : string)
| HttpFailure (err : value)
| NotCallable.

Record Transport : Type := mkTransport {
  (** [require('./consts')] *)
  CALLBACK_PROPERTIES : list string;
  (** [JWT_CONTENT.exec(contentType)] is truthy *)
  JWT_CONTENT : value -> bool;
  (** [Date.now()], the n-th reading *)
  Date_now : nat -> Z;
  (** [_.merge(object, source)] *)
  merge : value -> value -> value;
  (** [issuer.httpOptions(options)] *)
  httpOptions : value -> value;
  (** [got[verb](endpoint, options)], the n-th request *)
  got : nat -> string -> value -> value -> http_result;
  (** [JSON.parse(text)] *)
  JSON_parse : string -> result value;
  (** [jose.JWE.createDecrypt(keystore).decrypt(jwe)], once settled: the
      payload as a string *)
  jwe_decrypt : option (list Key) -> string -> result string;
  (** [url.parse(href)] of a string *)
  url_parse : value -> list (string * value);
  (** [url.format(urlObject)] *)
  url_format : value -> string;
  (** [key.kty] *)
  key_kty : Key -> string;
  (** [key.toPEM(true)] does not throw *)
  key_toPEM_private : Key -> bool;
  (** [keystore.toJSON()] *)
  keystore_toJSON : list Key -> value
}.

(** What is thrown or what a promise is rejected with. *)
Inductive failure : Type :=
| Js (e : error)
| OpenIdConnectError (params : value)   (* [new OpenIdConnectError(params)] *)
| Handled (err : value)                 (* thrown by [gotErrorHandler(err)] *)
| FromSource (src : string) (f : failure).   (* [err.src = sourceName] *)

(** What a call did to the outside. *)
Inductive effect : Type :=
| Request (verb : string) (endpoint options : value)
| Decrypt (keystore : option (list Key)) (jwe : string).

Record world : Type := mkWorld {
  client_state : state;
  clock_reads : nat;
  effects : list effect     (* the latest first *)
}.

(** How a call ends: it returns a value that is no promise, it throws, or
    it returns a promise, which resolves or rejects. *)
Inductive outcome (A : Type) : Type :=
| Returns (a : A)
| Throws (f : failure)
| Resolves (a : A)
| Rejects (f : failure).
Arguments Returns {A} a.
Arguments Throws {A} f.
Arguments Resolves {A} a.
Arguments Rejects {A} f.

(** The promise a [then] makes of what its callback did. *)
Definition settle {A : Type} (o : outcome A) : outcome A :=
  match o with
  | Returns a => Resolves a
  | Throws f => Rejects f
  | Resolves a => Resolves a
  | Rejects f => Rejects f
  end.

(** [p.then(k)] *)
Definition then_ {A B : Type} (p : outcome A * world)
  (k : A -> world -> outcome B * world) : outcome B * world :=
  match p with
  | (Resolves a, w) => let '(o, w') := k a w in (settle o, w')
  | (Rejects f, w) => (Rejects f, w)
  | (Throws f, w) => (Throws f, w)
  | (Returns _, w) => (Throws (Js (TypeError "then is not a function")), w)
  end.

(** [Promise.resolve(x)] *)
Definition Promise_resolve {A : Type} (p : outcome A * world)
  : outcome A * world :=
  match p with
  | (Returns a, w) => (Resolves a, w)
  | other => other
  end.

Definition lift_result {A : Type} (r : result A) : outcome A :=
  match r with
  | Ok a => Returns a
  | Throw e => Throws (Js e)
  end.

Definition with_state (w : world) (st : state) : world :=
  mkWorld st (clock_reads w) (effects w).

Definition record (e : effect) (w : world) : world :=
  mkWorld (client_state w) (clock_reads w) (e :: effects w).

Definition is_request (e : effect) : bool :=
  match e with Request _ _ _ => true | Decrypt _ _ => false end.

Definition request_count (w : world) : nat :=
  List.length (filter is_request (effects w)).

(** [typeof v === 'object'] *)
Definition is_typeof_object (v : value) : bool :=
  match v with VNull | VArr _ | VObj _ => true | _ => false end.

(** [o[k] = v] *)
Fixpoint set_prop (k : string) (v : value) (props : list (string * value))
  : list (string * value) :=
  match props with
  | [] => [(k, v)]
  | (k', v') :: rest =>
      if (k =? k')%string then (k, v) :: rest
      else (k', v') :: set_prop k v rest
  end.

(** The elements of an array under their indices. *)
Fixpoint indexed (i : nat) (elems : list value) : list (string * value) :=
  match elems with
  | [] => []
  | x :: rest => (Z_to_string (Z.of_nat i), x) :: indexed (S i) rest
  end.

(** The enumerable properties of [Object(v)]. *)
Definition object_of (v : value) : list (string * value) :=
  match v with
  | VObj props => props
  | VArr elems => indexed 0 elems
  | _ => []
  end.

(** [_.defaults(object, source)] with the properties in their places: one
    that [object] holds as [undefined] is overwritten where it is, a new
    one is added at the end. *)
Definition assign_defaults (object source : list (string * value))
  : list (string * value) :=
  fold_left
    (fun acc kv =>
       if is_undefined (lookup (fst kv) acc)
       then set_prop (fst kv) (snd kv) acc
       else acc)
    source object.

Definition lower (c : ascii) : ascii :=
  let n := nat_of_ascii c in
  if ((65 <=? n) && (n <=? 90))%nat then ascii_of_nat (n + 32) else c.

(** [s.toLowerCase()], on the ASCII letters. *)
Fixpoint toLowerCase (s : string) : string :=
  match s with
  | EmptyString => EmptyString
  | String c rest => String (lower c) (toLowerCase rest)
  end.

(** [a || b] *)
Definition js_or (a b : value) : value := if truthy a then a else b.

Section Requests.

Context (E : Collaborators) (T : Transport).

(** [Date.now()] *)
Definition read_clock (w : world) : Z * world :=
  (Date_now T (clock_reads w),
   mkWorld (client_state w) (S (clock_reads w)) (effects w)).

(** [got[verb](endpoint, options)] *)
Definition send (verb : string) (endpoint options : value) (w : world)
  : http_result * world :=
  match got T (request_count w) verb endpoint options with
  | NotCallable => (NotCallable, w)
  | answer => (answer, record (Request verb endpoint options) w)
  end.

(** [got[verb](endpoint, options).then(success, gotErrorHandler)] *)
Definition request_then {A : Type} (verb : string) (endpoint options : value)
  (success : value -> string -> world -> outcome A * world) (w : world)
  : outcome A * world :=
  match send verb endpoint options w with
  | (NotCallable, w1) =>
      (Throws (Js (TypeError ("got." ++ verb ++ " is not a function"))), w1)
  | (HttpFailure err, w1) => (Rejects (Handled err), w1)
  | (HttpResponse headers body, w1) =>
      let '(o, w2) := success headers body w1 in (settle o, w2)
  end.

(** Modelled from the spec: [new TokenSet(values)]; the clock is read when
    there is a numeric [expires_in] to add to it. *)
Definition new_TokenSet (values : value) (w : world) : TokenSet * world :=
  match lookup "expires_in" (object_of values) with
  | VNum _ =>
      let '(now, w1) := read_clock w in
      (TokenSet_new (floor_seconds now) (object_of values), w1)
  | _ => (TokenSet_new 0 (object_of values), w)
  end.

(** [validateIdToken] in the world: the clock is read at line 543, once
    a token set has been found to hold an ID Token. *)
Definition validate (this : Client) (nonce use : value) (token : token_arg)
  (w : world) : outcome token_arg * world :=
  let reaches_clock :=
    match token with
    | TSet ts => truthy (lookup "id_token" (ts_fields ts))
    | TValue _ => true
    end in
  let '(now, w1) := if reaches_clock then read_clock w else (0, w) in
  match validateIdToken E this now token nonce use (client_state w1) with
  | (Throw e, st) => (Throws (Js e), with_state w1 st)
  | (Ok (Fulfilled t), st) => (Resolves t, with_state w1 st)
  | (Ok (Rejected e), st) => (Rejects (Js e), with_state w1 st)
  end.

(** [grantAuth] in the world: the clock is read at line 796. *)
Definition grantAuth_in (this : Client) (w : world) : outcome value * world :=
  let method := prop E this "token_endpoint_auth_method" in
  let '(now, w1) :=
    if strict_eq method (VStr "private_key_jwt")
       || strict_eq method (VStr "client_secret_jwt")
    then read_clock w else (0, w) in
  match grantAuth E this now (client_state w1) with
  | (Throw e, st) => (Throws (Js e), with_state w1 st)
  | (Ok (Plain auth), st) => (Returns auth, with_state w1 st)
  | (Ok (Promise (Fulfilled auth)), st) => (Resolves auth, with_state w1 st)
  | (Ok (Promise (Rejected e)), st) => (Rejects (Js e), with_state w1 st)
  end.

(** *** authorizationUrl(params), lines 421-438 *)

(** Lines 424-428: what the query defaults to. *)
Definition query_defaults (this : Client) : list (string * value) :=
  [ ("client_id", prop E this "client_id");
    ("scope", VStr "openid");
    ("response_type", VStr "code") ].

(** [url.parse(endpoint)], line 437: what is no string is refused. *)
Definition parse_endpoint (endpoint : value)
  : result (list (string * value)) :=
  match endpoint with
  | VStr _ => Ok (url_parse T endpoint)
  | _ =>
      Throw (TypeError
               ("Parameter 'url' must be a string, not " ++ typeof endpoint))
  end.

(** [_.defaults] writes into [params]: the object the caller holds is
    handed back next to the URL. *)
Definition authorizationUrl (this : Client) (params : value)
  : result (string * list (string * value)) :=
  (assert_ok (is_typeof_object params) "you must provide an object" ;;;
   let query := assign_defaults (object_of params) (query_defaults this) in
   let query :=
     if is_typeof_object (lookup "claims" query)
     then set_prop "claims"
            (VStr (JSON_stringify E (lookup "claims" query))) query
     else query in
   parsed <- parse_endpoint (issuer_prop (issuer this)
                               "authorization_endpoint") ;;
   Ok (url_format T
         (VObj (assign_defaults
                  [ ("search", VNull); ("query", VObj query) ] parsed)),
       query))%js.

(** *** decryptIdToken(token, use), lines 479-521 *)

(** Lines 487-495 *)
Definition token_string (token : token_arg) : result value :=
  match token with
  | TSet ts =>
      let t := lookup "id_token" (ts_fields ts) in
      if truthy t then Ok t
      else Throw (Error "id_token not present in TokenSet")
  | TValue v => Ok v
  end.

(** Lines 497-512: the header of the token must carry the expected
    [alg] and [enc]; the token, a string, comes back. *)
Definition check_jwe_header (this : Client) (token : token_arg) (use : value)
  : result string :=
  (idToken <- token_string token ;;
   let userinfo := strict_eq use (VStr "userinfo") in
   let expectedAlg :=
     if userinfo then prop E this "userinfo_encrypted_response_alg"
     else prop E this "id_token_encrypted_response_alg" in
   let expectedEnc :=
     if userinfo then prop E this "userinfo_encrypted_response_enc"
     else prop E this "id_token_encrypted_response_enc" in
   header <- call_string_method idToken "split"
               (fun s => nth 0 (split "."%char s) "") ;;
   headerObject <- decode_json E header ;;
   alg <- get_prop headerObject "alg" ;;
   assert_eq E alg expectedAlg "unexpected alg used" ;;;
   enc <- get_prop headerObject "enc" ;;
   assert_eq E enc expectedEnc "unexpected enc used" ;;;
   Ok (ToString idToken))%js.

Definition decryptIdToken (this : Client) (use : value) (token : token_arg)
  (w : world) : outcome token_arg * world :=
  if (strict_eq use (VStr "userinfo")
      && negb (truthy (prop E this "userinfo_encrypted_response_alg")))
     || (strict_eq use (VStr "id_token")
         && negb (truthy (prop E this "id_token_encrypted_response_alg")))
  then (Returns token, w)
  else
    match check_jwe_header this token use with
    | Throw e => (Throws (Js e), w)
    | Ok idToken =>
        let w1 := record (Decrypt (keystore this) idToken) w in
        match jwe_decrypt T (keystore this) idToken with
        | Throw e => (Rejects (Js e), w1)
        | Ok payload =>
            match token with
            | TSet ts =>
                (Resolves
                   (TSet (mkTokenSet
                            (set_prop "id_token" (VStr payload) (ts_fields ts)))),
                 w1)
            | TValue _ => (Resolves (TValue (VStr payload)), w1)
            end
        end
    end.

(** *** authenticatedPost(endpoint, httpOptions, success), lines 741-745 *)
Definition authenticatedPost {A : Type} (this : Client)
  (endpoint options : value)
  (success : value -> string -> world -> outcome A * world) (w : world)
  : outcome A * world :=
  then_ (Promise_resolve (grantAuth_in this w))
    (fun auth w1 =>
       request_then "post" endpoint (httpOptions T (merge T options auth))
         success w1).

(** [response => JSON.parse(response.body)] *)
Definition parse_body (headers : value) (body : string) (w : world)
  : outcome value * world :=
  (lift_result (JSON_parse T body), w).

(** *** grant(body), lines 685-688 *)
Definition grant (this : Client) (body : value) (w : world)
  : outcome token_arg * world :=
  authenticatedPost this (issuer_prop (issuer this) "token_endpoint")
    (VObj [("body", body)])
    (fun _ text w1 =>
       match JSON_parse T text with
       | Throw e => (Throws (Js e), w1)
       | Ok values =>
           let '(ts, w2) := new_TokenSet values w1 in (Returns (TSet ts), w2)
       end)
    w.

(** Lines 690-696 and 698-704: a post of the token to the endpoint read
    from [first] or else [second]. *)
Definition post_token (this : Client) (first second message : string)
  (token : value) (w : world) : outcome value * world :=
  let endpoint :=
    js_or (issuer_prop (issuer this) first)
      (issuer_prop (issuer this) second) in
  if truthy endpoint then
    authenticatedPost this endpoint
      (VObj [("body", VObj [("token", token)])]) parse_body w
  else (Throws (Js (AssertionError message)), w).

(** *** revoke(token) *)
Definition revoke (this : Client) : value -> world -> outcome value * world :=
  post_token this "revocation_endpoint" "token_revocation_endpoint"
    "issuer must be configured with revocation endpoint".

(** *** introspect(token) *)
Definition introspect (this : Client)
  : value -> world -> outcome value * world :=
  post_token this "introspection_endpoint" "token_introspection_endpoint"
    "issuer must be configured with introspection endpoint".

(** *** refresh(refreshToken), lines 607-623 *)
Definition refresh (this : Client) (refreshToken : token_arg) (w : world)
  : outcome token_arg * world :=
  let token :=
    match refreshToken with
    | TSet ts =>
        let t := lookup "refresh_token" (ts_fields ts) in
        if truthy t then Some t else None
    | TValue v => Some v
    end in
  match token with
  | None =>
      (Rejects (Js (Error "refresh_token not present in TokenSet")), w)
  | Some token =>
      then_
        (then_
           (grant this
              (VObj [ ("grant_type", VStr "refresh_token");
                      ("refresh_token", VStr (ToString token)) ]) w)
           (decryptIdToken this (VStr "id_token")))
        (validate this VUndefined (VStr "id_token"))
  end.

(** *** authorizationCallback(redirectUri, parameters, checks),
    lines 440-477.  [None] stands for [undefined], which is what comes
    back when the response holds neither an ID Token nor a code. *)
Definition authorizationCallback (this : Client)
  (redirectUri parameters checks : value) (w : world)
  : outcome (option token_arg) * world :=
  let params := pick parameters (CALLBACK_PROPERTIES T) in
  let toCheck := js_or checks (VObj []) in
  if truthy (lookup "error" params) then
    (Rejects (OpenIdConnectError (VObj params)), w)
  else
    match (expected <- get_prop toCheck "state" ;;
           received <- get_prop parameters "state" ;;
           Ok (strict_eq expected received))%js with
    | Throw e => (Throws (Js e), w)
    | Ok false => (Rejects (Js (Error "state mismatch")), w)
    | Ok true =>
        let nonce :=
          match get_prop toCheck "nonce" with
          | Ok n => n
          | Throw _ => VUndefined
          end in
        let checked (p : outcome token_arg * world) :=
          then_ (then_ p (decryptIdToken this (VStr "id_token")))
            (validate this nonce (VStr "id_token")) in
        let grantCall (w0 : world) :=
          checked
            (grant this
               (VObj [ ("grant_type", VStr "authorization_code");
                       ("code", lookup "code" params);
                       ("redirect_uri", redirectUri) ]) w0) in
        let some (p : outcome token_arg * world) :=
          let '(o, w') := p in
          (match o with
           | Returns t => Returns (Some t)
           | Throws f => Throws f
           | Resolves t => Resolves (Some t)
           | Rejects f => Rejects f
           end, w') in
        if truthy (lookup "id_token" params) then
          let promise :=
            checked
              (let '(ts, w1) := new_TokenSet (VObj params) w in
               (Resolves (TSet ts), w1)) in
          if truthy (lookup "code" params)
          then some (then_ promise (fun _ w0 => grantCall w0))
          else some promise
        else if truthy (lookup "code" params)
        then some (grantCall w)
        else (Returns None, w)
    end.

(** *** userinfo(accessToken, options), lines 625-669 *)

Definition bearer (token : value) : string := "Bearer " ++ ToString token.

(** Lines 642-653: where the access token goes. *)
Definition userinfo_options (via : value) (verb : string) (token : value)
  : result value :=
  (if strict_eq via (VStr "query") then
     assert_eq E (VStr verb) (VStr "get")
       "providers should only parse query strings for GET requests" ;;;
     Ok (VObj [("query", VObj [("access_token", token)])])
   else if strict_eq via (VStr "body") then
     assert_eq E (VStr verb) (VStr "post") "can only send body on POST" ;;;
     Ok (VObj [("body", VObj [("access_token", token)])])
   else
     Ok (VObj [("headers", VObj [("Authorization", VStr (bearer token))])]))%js.

(** Lines 656-668: what is made of the response. *)
Definition userinfo_response (this : Client) (headers : value) (body : string)
  (w : world) : outcome value * world :=
  match get_prop headers "content-type" with
  | Throw e => (Throws (Js e), w)
  | Ok contentType =>
      if JWT_CONTENT T contentType then
        then_
          (then_ (Resolves (TValue (VStr body)), w)
             (decryptIdToken this (VStr "userinfo")))
          (fun jwt w1 =>
             if negb (truthy (prop E this "userinfo_signed_response_alg"))
             then
               (lift_result
                  (JSON_parse T
                     (match jwt with
                      | TValue v => ToString v
                      | TSet _ => "[object Object]"
                      end)), w1)
             else
               then_ (validate this VNull (VStr "userinfo") jwt w1)
                 (fun valid w2 =>
                    (lift_result
                       (segment <- match valid with
                                   | TValue v =>
                                       call_string_method v "split"
                                         (fun s => nth_error (split "."%char s) 1)
                                   | TSet _ =>
                                       Throw (TypeError "split is not a function")
                                   end ;;
                        match segment with
                        | Some payload => decode_json E payload
                        | None =>
                            Throw (TypeError
                                     "Cannot read property 'toString' of undefined")
                        end)%js, w2)))
      else (lift_result (JSON_parse T body), w)
  end.

Definition userinfo (this : Client) (accessToken : token_arg) (options : value)
  (w : world) : outcome value * world :=
  let opts :=
    merge T (VObj [("verb", VStr "get"); ("via", VStr "header")]) options in
  let token :=
    match accessToken with
    | TSet ts =>
        let t := lookup "access_token" (ts_fields ts) in
        if truthy t then Some t else None
    | TValue v => Some v
    end in
  match token with
  | None => (Rejects (Js (Error "access_token not present in TokenSet")), w)
  | Some token =>
      match (verb <- get_prop opts "verb" ;;
             let verb := toLowerCase (ToString verb) in
             via <- get_prop opts "via" ;;
             options <- userinfo_options via verb token ;;
             Ok (verb, options))%js with
      | Throw e => (Throws (Js e), w)
      | Ok (verb, options) =>
          request_then verb (issuer_prop (issuer this) "userinfo_endpoint")
            (httpOptions T options) (userinfo_response this) w
      end
  end.

(** *** get metadata(), lines 847-849 *)
Definition metadata (this : Client) : list (string * value) :=
  filter (fun kv => negb (is_undefined (snd kv)))
    (map (fun k => (k, prop E this k)) (CLIENT_METADATA E)).

(** *** static register(body, keystore), lines 822-841 *)

(** Lines 825-835: the body to submit. *)
Definition registration_body (body : value) (ks : keystore_arg)
  : result value :=
  match ks with
  | KsValue VUndefined => Ok body
  | _ =>
      (jwks <- get_prop body "jwks" ;;
       jwks_uri <- get_prop body "jwks_uri" ;;
       if truthy (js_or jwks jwks_uri) then Ok body
       else
         match ks with
         | KsValue _ =>
             Throw (AssertionError
                      "keystore must be an instance of jose.JWK.KeyStore")
         | KsKeyStore keys =>
             assert_ok
               (forallb
                  (fun key =>
                     if ((key_kty T key =? "RSA") || (key_kty T key =? "EC"))%string
                     then key_toPEM_private T key
                     else false)
                  keys)
               "keystore must only contain private EC or RSA keys" ;;;
             match body with
             | VObj props =>
                 Ok (VObj (set_prop "jwks" (keystore_toJSON T keys) props))
             | VArr _ => Ok body
             | _ =>
                 Throw (TypeError "Cannot create property 'jwks'")
             end
         end)%js
  end.

Definition register (iss : Issuer) (body : value) (ks : keystore_arg)
  (w : world) : outcome Client * world :=
  let endpoint := issuer_prop iss "registration_endpoint" in
  if truthy endpoint then
    match registration_body body ks with
    | Throw e => (Throws (Js e), w)
    | Ok body =>
        request_then "post" endpoint
          (httpOptions T
             (VObj [ ("body", VStr (JSON_stringify E body));
                     ("headers",
                      VObj [("Content-Type", VStr "application/json")]) ]))
          (fun _ text w1 =>
             (lift_result
                (values <- JSON_parse T text ;;
                 BaseClient_constructor E iss values ks)%js, w1))
          w
    end
  else
    (Throws (Js (AssertionError
                   "issuer does not support dynamic registration")), w).

(** *** static fromUri(uri, token), lines 851-855 *)
Definition fromUri (iss : Issuer) (uri token : value) (w : world)
  : outcome Client * world :=
  request_then "get" uri
    (httpOptions T
       (VObj [("headers", VObj [("Authorization", VStr (bearer token))])]))
    (fun _ text w1 =>
       (lift_result
          (values <- JSON_parse T text ;;
           BaseClient_constructor E iss values (KsValue VUndefined))%js, w1))
    w.

End Requests.

(** ** A sample provider

    Stand-ins for the collaborators of the requests.  The provider
    answers a request with the URL it was sent to as the body, and
    [JSON.parse] reads the bodies off a table. *)

Module Provider.

Definition CALLBACK_PROPERTIES : list string :=
  [ "access_token"; "code"; "error"; "error_description"; "expires_in";
    "id_token"; "state"; "token_type" ].

Definition JWT_CONTENT (contentType : value) : bool :=
  match contentType with
  | VStr s => startsWith s "application/jwt"
  | _ => false
  end.

Definition Date_now (n : nat) : Z := 1499001 + 1000 * Z.of_nat n.

(** A merge of objects that goes one level deep. *)
Definition merge (object source : value) : value :=
  VObj
    (fold_left
       (fun acc kv =>
          match snd kv, lookup (fst kv) acc with
          | VUndefined, _ => acc
          | VObj inner, VObj mine =>
              set_prop (fst kv)
                (VObj (fold_left (fun a b => set_prop (fst b) (snd b) a)
                         inner mine))
                acc
          | v, _ => set_prop (fst kv) v acc
          end)
       (object_of source) (object_of object)).

Definition httpOptions (options : value) : value := options.

Definition got (n : nat) (verb : string) (endpoint options : value)
  : http_result :=
  match endpoint with
  | VStr url =>
      if negb (existsb (String.eqb verb) ["get"; "post"; "put"; "patch"; "head"; "delete"])
      then NotCallable
      else if startsWith url "https://op.example/down"
      then HttpFailure (VStr "ECONNREFUSED")
      else
        HttpResponse
          (VObj [("content-type",
                  VStr (if startsWith url "https://op.example/jwt"
                        then "application/jwt; charset=utf-8"
                        else "application/json"))])
          url
  | _ => HttpFailure (VStr "Invalid URL")
  end.

Definition bodies : list (string * value) :=
  [ ("https://op.example/token",
     VObj [ ("access_token", VStr "at"); ("id_token", VStr "none.plain.");
            ("expires_in", VNum 300) ]);
    ("https://op.example/token/bare", VObj [("access_token", VStr "at")]);
    ("https://op.example/token/encrypted",
     VObj [ ("access_token", VStr "at"); ("id_token", VStr "jwe.k.iv.ct.tag") ]);
    ("https://op.example/userinfo", VObj [("sub", VStr "user")]);
    ("https://op.example/revoke", VObj []);
    ("https://op.example/register",
     VObj [ ("client_id", VStr "new"); ("client_secret", VStr "fresh") ]);
    ("https://op.example/register/jwt",
     VObj [ ("client_id", VStr "new");
            ("token_endpoint_auth_method", VStr "private_key_jwt") ]) ].

Definition JSON_parse (text : string) : result value :=
  if has_key text bodies then Ok (lookup text bodies)
  else Throw (SyntaxError "Unexpected token in JSON").

Definition jwe_decrypt (keys : option (list Key)) (jwe : string)
  : result string :=
  match keys with
  | Some (_ :: _) =>
      if (jwe =? "jwe.k.iv.ct.tag")%string then Ok "none.plain."
      else Throw (JoseError "decryption failed")
  | _ => Throw (JoseError "no key found")
  end.

Definition url_parse (href : value) : list (string * value) :=
  [ ("href", href); ("search", VStr "?stale=1"); ("query", VStr "stale=1") ].

Definition url_format (urlObject : value) : string :=
  match urlObject with
  | VObj props =>
      ToString (lookup "href" props) ++ "?"
        ++ String.concat "&"
             (map (fun kv => fst kv ++ "=" ++ ToString (snd kv))
                (object_of (lookup "query" props)))
  | _ => ""
  end.

Definition key_kty (key : Key) : string :=
  if startsWith (key_name key) "rsa" then "RSA"
  else if startsWith (key_name key) "ec" then "EC"
  else "oct".

Definition key_toPEM_private (key : Key) : bool :=
  negb (endsWith (key_name key) ".pub").

Definition keystore_toJSON (keys : list Key) : value :=
  VObj [("keys", VArr (map (fun key => VStr (key_name key)) keys))].

Definition transport : Transport :=
  mkTransport CALLBACK_PROPERTIES JWT_CONTENT Date_now merge httpOptions got
    JSON_parse jwe_decrypt url_parse url_format key_kty key_toPEM_private
    keystore_toJSON.

(** The collaborators of [Sample], with a decoder that also knows the
    header of an encrypted token. *)
Definition decode_json (segment : string) : result value :=
  if (segment =? "jwe")%string
  then Ok (VObj [("alg", VStr "RSA1_5"); ("enc", VStr "A128CBC-HS256")])
  else Sample.decode_json segment.

Definition collaborators : Collaborators :=
  mkCollaborators Sample.StringToNumber Sample.CLIENT_METADATA
    Sample.CLIENT_DEFAULTS decode_json Sample.tokenHash Sample.JSON_stringify
    Sample.uuid Sample.asKey Sample.issuer_key Sample.keystore_get
    Sample.jws_verify Sample.jws_final Sample.new_Buffer.

(** A client of the issuer with the given metadata, on top of
    [{ client_id: 'c', client_secret: 's' }]. *)
Definition client (issuer_extra client_extra : list (string * value))
  : Client :=
  mkClient (Sample.op issuer_extra)
    (client_extra ++ [ ("client_id", VStr "c"); ("client_secret", VStr "s") ])
    (Some [mkKey "rsa" ["RS256"]]).

Definition start : world := mkWorld Sample.fresh 0 [].

End Provider.

(** * Properties *)

(** ** The runtime *)

Example ToString_array :
  ToString (VArr [VNum 1; VNull; VStr "a"; VArr [VNum (-2); VBool true]])
  = "1,,a,-2,true".
Proof. reflexivity. Qed.

Example split_compact :
  split "."%char "h.p.s" = ["h"; "p"; "s"] /\ split "."%char "" = [""].
Proof. split; reflexivity. Qed.

(** The test vectors of RFC 4648, section 10. *)
Example base64_rfc4648 :
  map Buffer_toString_base64 [""; "f"; "fo"; "foo"; "foob"; "fooba"; "foobar"]
  = [""; "Zg=="; "Zm8="; "Zm9v"; "Zm9vYg=="; "Zm9vYmE="; "Zm9vYmFy"].
Proof. reflexivity. Qed.

Example base64url_strips_padding :
  base64url "a" = "YQ" /\ base64url "~~~" = "fn5-" /\ base64url "???" = "Pz8_".
Proof. repeat split; reflexivity. Qed.

Lemma bind_Ok {A B : Type} (r : result A) (k : A -> result B) (b : B) :
  bind r k = Ok b <-> exists a, r = Ok a /\ k a = Ok b.
Proof.
  split.
  - destruct r as [a|e]; simpl; intros H; [exists a; auto | discriminate].
  - intros [a [-> H]]. exact H.
Qed.

Lemma bind_Throw {A B : Type} (r : result A) (k : A -> result B) (e : error) :
  r = Throw e -> bind r k = Throw e.
Proof. intros ->. reflexivity. Qed.

Lemma assert_ok_Ok (b : bool) (message : string) (u : unit) :
  assert_ok b message = Ok u <-> b = true.
Proof.
  unfold assert_ok. destruct b, u; split; intros H; try reflexivity; discriminate.
Qed.

Lemma assert_ok_false (message : string) :
  assert_ok false message = Throw (AssertionError message).
Proof. reflexivity. Qed.

(** On two strings [==] is equality of strings, whatever ToNumber does. *)
Lemma loose_eq_strings (toNumber : string -> option Z) (a b : string) :
  loose_eq toNumber (VStr a) (VStr b) = true <-> a = b.
Proof. unfold loose_eq; simpl. apply String.eqb_eq. Qed.

(** Neither [undefined] nor [null] is [==] to a string. *)
Lemma loose_eq_nullish_string (toNumber : string -> option Z) (s : string) :
  loose_eq toNumber VUndefined (VStr s) = false
  /\ loose_eq toNumber VNull (VStr s) = false
  /\ loose_eq toNumber (VStr s) VUndefined = false
  /\ loose_eq toNumber (VStr s) VNull = false.
Proof. repeat split; reflexivity. Qed.

Lemma strict_eq_strings (a b : string) :
  strict_eq (VStr a) (VStr b) = true <-> a = b.
Proof. simpl. apply String.eqb_eq. Qed.

Lemma strict_eq_string_inv (v : value) (s : string) :
  strict_eq v (VStr s) = true -> v = VStr s.
Proof.
  destruct v; simpl; try discriminate.
  intros H. apply String.eqb_eq in H. now subst.
Qed.

Lemma indexOf_from_range (l : list value) (x : value) (i : Z) :
  indexOf_from l x i = -1 \/ i <= indexOf_from l x i.
Proof.
  revert i. induction l as [|y l IH]; intros i; simpl.
  - now left.
  - destruct (strict_eq y x).
    + right. lia.
    + destruct (IH (i + 1)) as [H|H]; [now left | right; lia].
Qed.

(** [indexOf] finds an element exactly when one is [===] to it. *)
Lemma indexOf_found (l : list value) (x : value) :
  negb (indexOf l x =? -1) = existsb (fun y => strict_eq y x) l.
Proof.
  unfold indexOf.
  assert (Hi : forall j, 0 <= j ->
            negb (indexOf_from l x j =? -1)
            = existsb (fun y => strict_eq y x) l).
  { induction l as [|y l IH]; intros j Hj; simpl.
    - reflexivity.
    - destruct (strict_eq y x); simpl.
      + destruct (Z.eqb_spec j (-1)); [lia | reflexivity].
      + apply IH. lia. }
  apply Hi. lia.
Qed.

Lemma lookup_app (k : string) (l1 l2 : list (string * value)) :
  lookup k (l1 ++ l2) = if has_key k l1 then lookup k l1 else lookup k l2.
Proof.
  induction l1 as [|[k' v] l1 IH]; simpl; [reflexivity|].
  rewrite (String.eqb_sym k' k).
  destruct (String.eqb k k'); simpl; [reflexivity | exact IH].
Qed.

Lemma lookup_defined_has_key (k : string) (l : list (string * value)) :
  lookup k l <> VUndefined -> has_key k l = true.
Proof.
  induction l as [|[k' v] l IH]; simpl; [congruence|].
  rewrite (String.eqb_sym k' k).
  destruct (String.eqb k k'); simpl; auto.
Qed.


(** ** The token set *)

Example TokenSet_expires_in_300 :
  let ts := TokenSet_new 1000 [("expires_in", VNum 300)] in
  TokenSet_get ts 1000 "expires_at" = VNum 1300
  /\ TokenSet_get ts 1000 "expires_in" = VNum 300
  /\ expired ts 1000 = false.
Proof. repeat split; reflexivity. Qed.

Example TokenSet_expires_in_minus_30 :
  let ts := TokenSet_new 1000 [("expires_in", VNum (-30))] in
  TokenSet_get ts 1000 "expires_at" = VNum 970
  /\ TokenSet_get ts 1000 "expires_in" = VNum 0
  /\ expired ts 1000 = true.
Proof. repeat split; reflexivity. Qed.

(** C10.  A token set constructed at clock reading [now] from a response
    whose [expires_in] is the integer [n] has [expires_at = now + n]; its
    [expires_in] then reads [max(expires_at - now, 0)], that is
    [max(n, 0)], which is [0] for a negative [n]; and [expired()], which
    compares [expires_at] with the clock at the time of the call, holds
    at [now] exactly when [n <= 0]. *)
Theorem TokenSet_expires_in (now n : Z) (values : list (string * value)) :
  lookup "expires_in" values = VNum n ->
  let ts := TokenSet_new now values in
  TokenSet_get ts now "expires_at" = VNum (now + n)
  /\ TokenSet_get ts now "expires_in" = VNum (Z.max (now + n - now) 0)
  /\ TokenSet_get ts now "expires_in" = VNum (Z.max n 0)
  /\ (n < 0 -> TokenSet_get ts now "expires_in" = VNum 0)
  /\ (forall t, expired ts t = (now + n <=? t))
  /\ expired ts now = (n <=? 0)
  /\ (expired ts now = true <-> n <= 0).
Proof.
  intros Hn ts. subst ts. unfold TokenSet_new. rewrite Hn.
  unfold TokenSet_get, expired. simpl.
  assert (Hleb : (now + n <=? now) = (n <=? 0)).
  { destruct (Z.leb_spec (now + n) now), (Z.leb_spec n 0); try reflexivity; lia. }
  rewrite Hleb.
  repeat split; try reflexivity.
  - f_equal. lia.
  - intros Hneg. f_equal. lia.
  - apply Z.leb_le.
  - apply Z.leb_le.
Qed.

Lemma TokenSet_expires_in_witness :
  let ts := TokenSet_new 1000 [("access_token", VStr "at"); ("expires_in", VNum (-30))] in
  TokenSet_get ts 1000 "expires_at" = VNum 970
  /\ TokenSet_get ts 1000 "expires_in" = VNum 0
  /\ expired ts 1000 = true.
Proof.
  destruct (TokenSet_expires_in 1000 (-30)
              [("access_token", VStr "at"); ("expires_in", VNum (-30))]
              eq_refl) as (Hat & _ & _ & Hin & _ & _ & Hexp).
  split; [exact Hat|]. split; [apply Hin; lia | apply Hexp; lia].
Defined.

(** ** grantAuth *)

Lemma strict_eq_string_false (v : value) (s : string) :
  v <> VStr s -> strict_eq v (VStr s) = false.
Proof.
  intros Hv. destruct (strict_eq v (VStr s)) eqn:Heq; [|reflexivity].
  apply strict_eq_string_inv in Heq. contradiction.
Qed.

Example grantAuth_basic_c_s :
  grantAuth Sample.collaborators (Sample.client "client_secret_basic" "RS256")
    1500999 Sample.fresh
  = (Ok (Plain (VObj [("headers",
                       VObj [("Authorization", VStr "Basic Yzpz")])])),
     Sample.fresh).
Proof. reflexivity. Qed.

(** C7.  With [token_endpoint_auth_method] ['none'], [grantAuth] throws;
    with ['client_secret_basic'] and the strings [id] and [secret] as
    [client_id] and [client_secret] it returns exactly the header
    [Authorization: Basic base64(id:secret)]; with ['client_secret_post']
    it returns the body fields [client_id] and [client_secret].  In none
    of the three cases is a collaborator called or the state changed. *)
Theorem grantAuth_secret_methods
  (E : Collaborators) (this : Client) (Date_now : Z) (st : state) :
  (prop E this "token_endpoint_auth_method" = VStr "none" ->
   grantAuth E this Date_now st
   = (Throw (Error "client not supposed to use grant authz"), st))
  /\ (forall id secret : string,
        prop E this "token_endpoint_auth_method" = VStr "client_secret_basic" ->
        prop E this "client_id" = VStr id ->
        prop E this "client_secret" = VStr secret ->
        grantAuth E this Date_now st
        = (Ok (Plain
                 (VObj [("headers",
                         VObj [("Authorization",
                                VStr ("Basic "
                                      ++ Buffer_toString_base64
                                           (id ++ ":" ++ secret)))])])),
           st))
  /\ (prop E this "token_endpoint_auth_method" = VStr "client_secret_post" ->
      grantAuth E this Date_now st
      = (Ok (Plain
               (VObj [("body",
                       VObj [("client_id", prop E this "client_id");
                             ("client_secret", prop E this "client_secret")])])),
         st)).
Proof.
  unfold grantAuth. repeat split.
  - intros ->. reflexivity.
  - intros id secret -> Hid Hsecret. simpl.
    unfold basic_header. rewrite Hid, Hsecret. reflexivity.
  - intros ->. reflexivity.
Qed.

Lemma grantAuth_secret_methods_witness :
  grantAuth Sample.collaborators (Sample.client "none" "RS256") 0 Sample.fresh
  = (Throw (Error "client not supposed to use grant authz"), Sample.fresh)
  /\ grantAuth Sample.collaborators
       (Sample.client "client_secret_basic" "RS256") 0 Sample.fresh
     = (Ok (Plain (VObj [("headers",
                          VObj [("Authorization", VStr "Basic Yzpz")])])),
        Sample.fresh)
  /\ grantAuth Sample.collaborators
       (Sample.client "client_secret_post" "RS256") 0 Sample.fresh
     = (Ok (Plain (VObj [("body",
                          VObj [("client_id", VStr "c");
                                ("client_secret", VStr "s")])])),
        Sample.fresh).
Proof.
  split; [|split].
  - apply (grantAuth_secret_methods Sample.collaborators
             (Sample.client "none" "RS256") 0 Sample.fresh).
    reflexivity.
  - apply (proj1 (proj2 (grantAuth_secret_methods Sample.collaborators
             (Sample.client "client_secret_basic" "RS256") 0 Sample.fresh))
             "c" "s"); reflexivity.
  - apply (proj2 (proj2 (grantAuth_secret_methods Sample.collaborators
             (Sample.client "client_secret_post" "RS256") 0 Sample.fresh))).
    reflexivity.
Defined.

(** C8.  Whatever [token_endpoint_auth_method] is, a string or not, as
    long as it is none of ['none'], ['client_secret_post'],
    ['client_secret_jwt'] and ['private_key_jwt'], [grantAuth] returns the
    Basic authorization header made of [client_id] and [client_secret]: it
    does not throw, returns no promise and rejects nothing. *)
Theorem grantAuth_unknown_method_is_basic
  (E : Collaborators) (this : Client) (Date_now : Z) (st : state) :
  prop E this "token_endpoint_auth_method" <> VStr "none" ->
  prop E this "token_endpoint_auth_method" <> VStr "client_secret_post" ->
  prop E this "token_endpoint_auth_method" <> VStr "client_secret_jwt" ->
  prop E this "token_endpoint_auth_method" <> VStr "private_key_jwt" ->
  grantAuth E this Date_now st
  = (Ok (Plain
           (VObj [("headers",
                   VObj [("Authorization",
                          VStr ("Basic "
                                ++ Buffer_toString_base64
                                     (ToString (prop E this "client_id")
                                      ++ ":"
                                      ++ ToString (prop E this "client_secret"))))])])),
     st).
Proof.
  intros Hnone Hpost Hsecret Hprivate. unfold grantAuth.
  rewrite (strict_eq_string_false _ _ Hnone).
  rewrite (strict_eq_string_false _ _ Hpost).
  rewrite (strict_eq_string_false _ _ Hsecret).
  rewrite (strict_eq_string_false _ _ Hprivate).
  reflexivity.
Qed.

Lemma grantAuth_unknown_method_is_basic_witness :
  grantAuth Sample.collaborators (Sample.client "bogus" "RS256") 0 Sample.fresh
  = (Ok (Plain (VObj [("headers",
                       VObj [("Authorization", VStr "Basic Yzpz")])])),
     Sample.fresh).
Proof.
  apply (grantAuth_unknown_method_is_basic Sample.collaborators
           (Sample.client "bogus" "RS256") 0 Sample.fresh);
    simpl; discriminate.
Defined.

Lemma floor_seconds_spec (Date_now : Z) :
  1000 * floor_seconds Date_now <= Date_now < 1000 * (floor_seconds Date_now + 1).
Proof.
  unfold floor_seconds.
  pose proof (Z.div_mod Date_now 1000 ltac:(lia)) as Hdm.
  pose proof (Z.mod_pos_bound Date_now 1000 ltac:(lia)) as Hb.
  lia.
Qed.

Lemma joseSecret_uuid_count (E : Collaborators) (this : Client) (st st' : state)
  (r : result (settled Key)) :
  joseSecret E this st = (r, st') -> uuid_count st' = uuid_count st.
Proof.
  unfold joseSecret.
  destruct (jose_secret st).
  - intros H. injection H as _ <-. reflexivity.
  - destruct (secret_octets E this) as [octets|e];
      [|intros H; injection H as _ <-; reflexivity].
    destruct (asKey E _); intros H; injection H as _ <-; reflexivity.
Qed.

Lemma createSign_uuid_count (E : Collaborators) (this : Client) (st st' : state)
  (r : result (settled Signer)) :
  createSign E this st = (r, st') -> uuid_count st' = uuid_count st.
Proof.
  unfold createSign.
  destruct (strict_eq _ (VStr "client_secret_jwt")).
  - destruct (joseSecret E this st) as [k st1] eqn:Hk.
    apply joseSecret_uuid_count in Hk.
    destruct k as [[key|e]|e]; intros H; injection H as _ <-; exact Hk.
  - destruct (strict_eq _ (VStr "private_key_jwt")).
    + destruct (keystore this).
      * destruct (keystore_get E _ _); intros H; injection H as _ <-; reflexivity.
      * intros H; injection H as _ <-; reflexivity.
    + intros H; injection H as _ <-; reflexivity.
Qed.

(** How [grantAuth] ends for the two [_jwt] methods, read off
    [createSign] and the signature. *)
Lemma grantAuth_jwt_cases
  (E : Collaborators) (this : Client) (Date_now : Z) (st : state) :
  prop E this "token_endpoint_auth_method" = VStr "client_secret_jwt"
  \/ prop E this "token_endpoint_auth_method" = VStr "private_key_jwt" ->
  grantAuth E this Date_now st
  = match createSign E this st with
    | (Throw e, st1) => (Throw e, st1)
    | (Ok (Rejected e), st1) => (Ok (Promise (Rejected e)), st1)
    | (Ok (Fulfilled sign), st1) =>
        let jti := uuid E (uuid_count st1) in
        let data :=
          JSON_stringify E
            (assertion_payload E this (floor_seconds Date_now) jti) in
        let st3 :=
          mkState (jose_secret st1) (S (uuid_count st1))
            (ESign sign data :: EUuid (uuid_count st1) :: trace st1) in
        match jws_final E sign data with
        | Ok jwt => (Ok (Promise (Fulfilled (assertion_body jwt))), st3)
        | Throw e => (Ok (Promise (Rejected e)), st3)
        end
    end.
Proof.
  intros [Hm|Hm]; unfold grantAuth; rewrite Hm; simpl;
    destruct (createSign E this st) as [[[sign|e]|e] st1]; reflexivity.
Qed.

(** C6.  For [client_secret_jwt] and [private_key_jwt]: the claims signed
    are [iat = now], [exp = now + 60], [jti], [iss = sub = client_id] and
    [aud = issuer.token_endpoint], where [now] is the floor of the clock in
    seconds and [jti] is an identifier drawn from [uuid] during the call;
    whenever [createSign] and the signature succeed, [grantAuth] fulfils
    with the body fields [client_assertion] and [client_assertion_type],
    and every fulfilled result arises that way; and as long as [uuid]
    never repeats itself, two assertions minted one after the other carry
    different [jti]. *)
Theorem grantAuth_jwt_assertion
  (E : Collaborators) (this : Client) (Date_now : Z) (st : state) :
  prop E this "token_endpoint_auth_method" = VStr "client_secret_jwt"
  \/ prop E this "token_endpoint_auth_method" = VStr "private_key_jwt" ->
  let now := floor_seconds Date_now in
  let minted (st0 st' : state) (t : Z) (jti : string) (auth : value) :=
    exists sign jwt,
      jws_final E sign
        (JSON_stringify E
           (VObj [ ("iat", VNum t);
                   ("exp", VNum (t + 60));
                   ("jti", VStr jti);
                   ("iss", prop E this "client_id");
                   ("sub", prop E this "client_id");
                   ("aud", issuer_prop (issuer this) "token_endpoint") ]))
      = Ok jwt
      /\ auth
         = VObj [ ("body",
                   VObj [ ("client_assertion", VStr jwt);
                          ("client_assertion_type",
                           VStr "urn:ietf:params:oauth:client-assertion-type:jwt-bearer") ]) ]
      /\ (exists n, jti = uuid E n
                    /\ (uuid_count st0 <= n < uuid_count st')%nat) in
  1000 * now <= Date_now < 1000 * (now + 1)
  /\ (forall sign st1 jwt,
        createSign E this st = (Ok (Fulfilled sign), st1) ->
        jws_final E sign
          (JSON_stringify E
             (assertion_payload E this now (uuid E (uuid_count st1))))
        = Ok jwt ->
        exists st',
          grantAuth E this Date_now st
          = (Ok (Promise (Fulfilled (assertion_body jwt))), st')
          /\ minted st st' now (uuid E (uuid_count st1)) (assertion_body jwt))
  /\ (forall auth st',
        grantAuth E this Date_now st = (Ok (Promise (Fulfilled auth)), st') ->
        exists jti, minted st st' now jti auth)
  /\ (forall auth st', grantAuth E this Date_now st <> (Ok (Plain auth), st'))
  /\ (forall auth st' Date_now' st0 auth' st'',
        (forall m n, uuid E m = uuid E n -> m = n) ->
        grantAuth E this Date_now st = (Ok (Promise (Fulfilled auth)), st') ->
        (uuid_count st' <= uuid_count st0)%nat ->
        grantAuth E this Date_now' st0 = (Ok (Promise (Fulfilled auth')), st'') ->
        forall jti jti',
          minted st st' now jti auth ->
          minted st0 st'' (floor_seconds Date_now') jti' auth' ->
          jti <> jti').
Proof.
  intros Hm now minted.
  assert (Hinv : forall d s auth s',
            grantAuth E this d s = (Ok (Promise (Fulfilled auth)), s') ->
            exists sign s1 jwt,
              createSign E this s = (Ok (Fulfilled sign), s1)
              /\ jws_final E sign
                   (JSON_stringify E
                      (assertion_payload E this (floor_seconds d)
                         (uuid E (uuid_count s1)))) = Ok jwt
              /\ auth = assertion_body jwt
              /\ uuid_count s' = S (uuid_count s1)).
  { intros d s auth s'. rewrite (grantAuth_jwt_cases E this d s Hm).
    destruct (createSign E this s) as [[[sign|e]|e] s1]; try discriminate.
    cbv zeta.
    destruct (jws_final E sign _) as [jwt|e] eqn:Hjwt; try discriminate.
    intros H. injection H as <- <-.
    exists sign, s1, jwt. repeat split; assumption. }
  split; [apply floor_seconds_spec|].
  split; [|split; [|split]].
  - intros sign st1 jwt Hsign Hjwt.
    rewrite (grantAuth_jwt_cases E this Date_now st Hm), Hsign.
    cbv zeta. fold now. rewrite Hjwt.
    eexists. split; [reflexivity|].
    exists sign, jwt. split; [exact Hjwt|]. split; [reflexivity|].
    exists (uuid_count st1). split; [reflexivity|].
    apply createSign_uuid_count in Hsign. simpl. lia.
  - intros auth st' Hauth.
    destruct (Hinv _ _ _ _ Hauth) as (sign & st1 & jwt & Hsign & Hjwt & -> & Hcount).
    exists (uuid E (uuid_count st1)), sign, jwt.
    split; [exact Hjwt|]. split; [reflexivity|].
    exists (uuid_count st1). split; [reflexivity|].
    apply createSign_uuid_count in Hsign. lia.
  - intros auth st'. rewrite (grantAuth_jwt_cases E this Date_now st Hm).
    destruct (createSign E this st) as [[[sign|e]|e] st1]; try discriminate.
    cbv zeta. destruct (jws_final E sign _); discriminate.
  - intros auth st' Date_now' st0 auth' st'' Hinj H1 Hle H2 jti jti'
      (sign & jwt & _ & _ & n & -> & Hn)
      (sign' & jwt' & _ & _ & n' & -> & Hn') Heq.
    apply Hinj in Heq. lia.
Qed.

Lemma Sample_tally_length (n : nat) : String.length (Sample.tally n) = n.
Proof. induction n as [|n IH]; simpl; [reflexivity | now rewrite IH]. Qed.

Lemma Sample_uuid_injective (m n : nat) :
  Sample.uuid m = Sample.uuid n -> m = n.
Proof.
  unfold Sample.uuid. intros H.
  apply (f_equal String.length) in H.
  rewrite !Sample_tally_length in H. lia.
Qed.

Lemma grantAuth_jwt_assertion_witness :
  exists st1 st2,
    grantAuth Sample.collaborators (Sample.client "client_secret_jwt" "RS256")
      1500999 Sample.fresh
    = (Ok (Promise
             (Fulfilled
                (assertion_body
                   "HS256.{iat:1500,exp:1560,jti:i,iss:c,sub:c,aud:https://op.example/token}.oct:cw"))),
       st1)
    /\ grantAuth Sample.collaborators (Sample.client "client_secret_jwt" "RS256")
         1501000 st1
       = (Ok (Promise
                (Fulfilled
                   (assertion_body
                      "HS256.{iat:1501,exp:1561,jti:ii,iss:c,sub:c,aud:https://op.example/token}.oct:cw"))),
          st2)
    /\ "i" <> "ii".
Proof.
  pose (this := Sample.client "client_secret_jwt" "RS256").
  pose (key := mkKey "oct:cw" ["HS256"; "HS384"; "HS512"]).
  pose (sign := mkSigner (VStr "HS256") key false).
  pose (data1 := "{iat:1500,exp:1560,jti:i,iss:c,sub:c,aud:https://op.example/token}").
  pose (data2 := "{iat:1501,exp:1561,jti:ii,iss:c,sub:c,aud:https://op.example/token}").
  pose (s1 := mkState (Some key) 1 [ESign sign data1; EUuid 0; EAsKey "cw"]).
  destruct (grantAuth_jwt_assertion Sample.collaborators this 1500999
              Sample.fresh (or_introl eq_refl))
    as (_ & Hmint & _ & _ & Huniq).
  destruct (Hmint sign (mkState (Some key) 0 [EAsKey "cw"])
              ("HS256." ++ data1 ++ ".oct:cw") eq_refl eq_refl)
    as (st1 & Hst1 & Hm1).
  assert (Hs1 : st1 = s1).
  { pose proof Hst1 as H. vm_compute in H. injection H as <-. reflexivity. }
  subst st1.
  destruct (grantAuth_jwt_assertion Sample.collaborators this 1501000
              s1 (or_introl eq_refl))
    as (_ & Hmint' & _).
  destruct (Hmint' sign s1 ("HS256." ++ data2 ++ ".oct:cw") eq_refl eq_refl)
    as (st2 & Hst2 & Hm2).
  exists s1, st2.
  split; [exact Hst1|]. split; [exact Hst2|].
  exact (Huniq _ s1 1501000 s1 _ st2 Sample_uuid_injective Hst1
           (le_n _) Hst2 _ _ Hm1 Hm2).
Defined.

(** ** The constructor *)

Lemma has_key_false_lookup (k : string) (l : list (string * value)) :
  has_key k l = false -> lookup k l = VUndefined.
Proof.
  intros H. destruct (lookup k l) eqn:Hl; try reflexivity;
    rewrite lookup_defined_has_key in H by congruence; discriminate.
Qed.

(** [_.pick] keeps the properties named in [keys]. *)
Lemma lookup_pick (k : string) (props : list (string * value))
  (keys : list string) :
  lookup k (pick (VObj props) keys)
  = if existsb (String.eqb k) keys then lookup k props else VUndefined.
Proof.
  unfold pick. induction keys as [|k0 keys IH]; simpl; [reflexivity|].
  rewrite lookup_app, IH.
  destruct (String.eqb_spec k k0) as [->|Hk]; simpl.
  - destruct (has_key k0 props) eqn:Hhas; simpl.
    + now rewrite String.eqb_refl.
    + rewrite (has_key_false_lookup _ _ Hhas).
      now destruct (existsb _ keys).
  - destruct (has_key k0 props); simpl; [|reflexivity].
    rewrite (proj2 (String.eqb_neq k0 k)) by congruence. reflexivity.
Qed.

Lemma lookup_filter_same (k : string) (f : string * value -> bool)
  (l : list (string * value)) :
  (forall v, f (k, v) = true) -> lookup k (filter f l) = lookup k l.
Proof.
  intros Hf. induction l as [|[k0 v] l IH]; simpl; [reflexivity|].
  destruct (String.eqb_spec k k0) as [<-|Hk].
  - rewrite Hf. simpl. now rewrite String.eqb_refl.
  - destruct (f (k0, v)); simpl; [|exact IH].
    rewrite (proj2 (String.eqb_neq k k0)) by congruence. exact IH.
Qed.

Lemma lookup_filter_none (k : string) (f : string * value -> bool)
  (l : list (string * value)) :
  (forall v, f (k, v) = false) -> lookup k (filter f l) = VUndefined.
Proof.
  intros Hf. induction l as [|[k0 v] l IH]; simpl; [reflexivity|].
  destruct (String.eqb_spec k k0) as [<-|Hk].
  - rewrite Hf. exact IH.
  - destruct (f (k0, v)); simpl; [|exact IH].
    rewrite (proj2 (String.eqb_neq k k0)) by congruence. exact IH.
Qed.

(** [_.defaults] fills in what the object leaves [undefined]. *)
Lemma lookup_defaults (k : string) (object source : list (string * value)) :
  lookup k (defaults object source)
  = if is_undefined (lookup k object) then lookup k source
    else lookup k object.
Proof.
  unfold defaults. rewrite lookup_app.
  destruct (is_undefined (lookup k object)) eqn:Hu.
  - rewrite lookup_filter_same by (intros v; exact Hu).
    destruct (has_key k _) eqn:Hhas; [reflexivity|].
    apply has_key_false_lookup in Hhas.
    rewrite lookup_filter_same in Hhas by (intros v; exact Hu).
    rewrite Hhas. destruct (lookup k object); try discriminate. reflexivity.
  - destruct (has_key k _) eqn:Hhas; [|reflexivity].
    rewrite lookup_filter_none by (intros v; exact Hu).
    assert (Hn : lookup k (filter (fun kv => is_undefined (lookup (fst kv) object)) source)
                 = VUndefined)
      by (apply lookup_filter_none; intros v; exact Hu).
    clear Hn. exfalso.
    assert (Hfalse : has_key k
              (filter (fun kv => is_undefined (lookup (fst kv) object)) source)
              = false).
    { clear Hhas. induction source as [|[k0 v] source IH]; simpl; [reflexivity|].
      destruct (is_undefined (lookup k0 object)) eqn:Hk0; simpl; [|exact IH].
      destruct (String.eqb_spec k0 k) as [->|_]; [congruence | exact IH]. }
    congruence.
Qed.

(** What a client reads back from the metadata it was constructed with. *)
Lemma prop_of_metadata (E : Collaborators) (iss : Issuer)
  (props : list (string * value)) (store : option (list Key)) (k : string) :
  existsb (String.eqb k) (CLIENT_METADATA E) = true ->
  prop E (mkClient iss
            (defaults (pick (VObj props) (CLIENT_METADATA E))
               (CLIENT_DEFAULTS E)) store) k
  = if is_undefined (lookup k props) then lookup k (CLIENT_DEFAULTS E)
    else lookup k props.
Proof.
  intros Hk. unfold prop. cbn [instance].
  rewrite Hk, lookup_defaults, lookup_pick, Hk.
  reflexivity.
Qed.

(** C9.  Once the keystore argument is accepted, the constructor looks at
    the client's [token_endpoint_auth_method]: when it ends in ['_jwt']
    and the issuer's [token_endpoint_auth_signing_alg_values_supported]
    is absent (or otherwise falsy), the constructor itself throws the
    assertion error and no client comes into being; when the method ends
    in ['_jwt'] and the list is there, or when the method does not end in
    ['_jwt'], whatever the issuer advertises, the client is constructed.
    Hence every constructed [_jwt] client has the list: nothing is left
    for [grantAuth] to find out. *)
Theorem constructor_jwt_requires_signing_algs
  (E : Collaborators) (iss : Issuer) (metadata : value) (ks : keystore_arg)
  (store : option (list Key)) (method : string) :
  (ks = KsValue VUndefined /\ store = None
   \/ exists keys, ks = KsKeyStore keys /\ store = Some keys) ->
  let this :=
    mkClient iss
      (defaults (pick metadata (CLIENT_METADATA E)) (CLIENT_DEFAULTS E))
      store in
  let advertised :=
    issuer_prop iss "token_endpoint_auth_signing_alg_values_supported" in
  prop E this "token_endpoint_auth_method" = VStr method ->
  (endsWith method "_jwt" = true ->
   advertised = VUndefined \/ truthy advertised = false ->
   BaseClient_constructor E iss metadata ks
   = Throw (AssertionError
              "token_endpoint_auth_signing_alg_values_supported must be provided on the issuer"))
  /\ (endsWith method "_jwt" = true ->
      truthy advertised = true ->
      BaseClient_constructor E iss metadata ks = Ok this)
  /\ (endsWith method "_jwt" = false ->
      BaseClient_constructor E iss metadata ks = Ok this)
  /\ (forall c,
        BaseClient_constructor E iss metadata ks = Ok c ->
        c = this
        /\ (endsWith method "_jwt" = true -> truthy advertised = true)).
Proof.
  intros Hks this advertised Hmethod.
  assert (Hrun : BaseClient_constructor E iss metadata ks
                 = if endsWith method "_jwt"
                   then if truthy advertised
                        then Ok this
                        else Throw (AssertionError
                                      "token_endpoint_auth_signing_alg_values_supported must be provided on the issuer")
                   else Ok this).
  { unfold BaseClient_constructor.
    destruct Hks as [[-> ->]|[keys [-> ->]]]; simpl;
      fold this; rewrite Hmethod; simpl;
      destruct (endsWith method "_jwt"); try reflexivity;
      fold advertised; destruct (truthy advertised); reflexivity. }
  rewrite Hrun. split; [|split; [|split]].
  - intros -> [Hadv|Hadv]; rewrite Hadv; reflexivity.
  - intros -> ->. reflexivity.
  - intros ->. reflexivity.
  - intros c Hc. split.
    + destruct (endsWith method "_jwt"); [destruct (truthy advertised)|];
        congruence.
    + intros Hjwt. rewrite Hjwt in Hc.
      destruct (truthy advertised); [reflexivity | discriminate].
Qed.

Lemma constructor_jwt_requires_signing_algs_witness :
  BaseClient_constructor Sample.collaborators (Sample.op [])
    (VObj [("client_id", VStr "c");
           ("token_endpoint_auth_method", VStr "private_key_jwt")])
    (KsKeyStore [mkKey "rsa" ["RS256"]])
  = Throw (AssertionError
             "token_endpoint_auth_signing_alg_values_supported must be provided on the issuer")
  /\ exists c,
       BaseClient_constructor Sample.collaborators (Sample.op [])
         (VObj [("client_id", VStr "c")]) (KsValue VUndefined)
       = Ok c
       /\ prop Sample.collaborators c "token_endpoint_auth_method"
          = VStr "client_secret_basic".
Proof.
  split.
  - apply (constructor_jwt_requires_signing_algs Sample.collaborators
             (Sample.op []) _ _ (Some [mkKey "rsa" ["RS256"]])
             "private_key_jwt").
    + right. eexists. split; reflexivity.
    + reflexivity.
    + reflexivity.
    + left. reflexivity.
  - eexists. split.
    + apply (constructor_jwt_requires_signing_algs Sample.collaborators
               (Sample.op []) _ _ None "client_secret_basic").
      * left. split; reflexivity.
      * reflexivity.
      * reflexivity.
    + reflexivity.
Defined.

(** ** validateIdToken *)

Section ValidateIdToken.

Context (E : Collaborators).

Ltac bind_inv H :=
  let u := fresh "u" in
  let Hu := fresh "Hstep" in
  apply bind_Ok in H; destruct H as (u & Hu & H); try destruct u.

Lemma result_unit_cases (r : result unit) :
  r = Ok tt \/ exists e, r = Throw e.
Proof. destruct r as [[]|e]; [now left | right; now exists e]. Qed.

(** The claims pass exactly when each check passes. *)
Lemma check_claims_Ok (this : Client) (now : Z) (token : token_arg)
  (nonce use h p : value) :
  check_claims E this now token nonce use h p = Ok tt
  <-> check_alg E (expected_alg E this use) h = Ok tt
      /\ check_presence p = Ok tt
      /\ check_iss E this p = Ok tt
      /\ check_iat now p = Ok tt
      /\ check_nbf now p = Ok tt
      /\ check_nonce E p nonce = Ok tt
      /\ check_exp now p = Ok tt
      /\ check_azp E this p = Ok tt
      /\ check_aud E this p = Ok tt
      /\ check_at_hash E token h p = Ok tt
      /\ check_c_hash E token h p = Ok tt.
Proof.
  unfold check_claims. split.
  - intros H. do 10 bind_inv H. repeat split; assumption.
  - intros (H1 & H2 & H3 & H4 & H5 & H6 & H7 & H8 & H9 & H10 & H11).
    rewrite H1, H2, H3, H4, H5, H6, H7, H8, H9, H10. exact H11.
Qed.

(** Whatever [validateIdToken] hands back without throwing, the token
    was decoded and every check on its claims passed. *)
Lemma validateIdToken_not_thrown (this : Client) (Date_now : Z)
  (token : token_arg) (nonce use : value) (st st' : state)
  (r : settled token_arg) :
  validateIdToken E this Date_now token nonce use st = (Ok r, st') ->
  exists idToken h p,
    decode_token E token = Ok (idToken, h, p)
    /\ check_claims E this (ceil_seconds Date_now) token nonce use h p
       = Ok tt.
Proof.
  unfold validateIdToken.
  destruct (decode_token E token) as [[[idToken h] p]|e]; [|discriminate].
  destruct (check_claims E this _ token nonce use h p) as [[]|e] eqn:Hc;
    [|discriminate].
  intros _. exists idToken, h, p. split; [reflexivity | exact Hc].
Qed.

(** A check that throws makes [validateIdToken] throw the same error. *)
Lemma validateIdToken_thrown (this : Client) (Date_now : Z)
  (token : token_arg) (nonce use : value) (st : state)
  (idToken : string) (h p : value) (e : error) :
  decode_token E token = Ok (idToken, h, p) ->
  check_claims E this (ceil_seconds Date_now) token nonce use h p = Throw e ->
  validateIdToken E this Date_now token nonce use st = (Throw e, st).
Proof. unfold validateIdToken. intros -> ->. reflexivity. Qed.

(** Either the claims pass or [validateIdToken] throws. *)
Lemma validateIdToken_claims (this : Client) (Date_now : Z)
  (token : token_arg) (nonce use : value) (st : state)
  (idToken : string) (h p : value) :
  decode_token E token = Ok (idToken, h, p) ->
  check_claims E this (ceil_seconds Date_now) token nonce use h p = Ok tt
  \/ exists e,
       validateIdToken E this Date_now token nonce use st = (Throw e, st).
Proof.
  intros Hd.
  destruct (check_claims E this (ceil_seconds Date_now) token nonce use h p)
    as [[]|e] eqn:Hc; [now left|].
  right. exists e. now apply (validateIdToken_thrown _ _ _ _ _ _ idToken h p).
Qed.

Lemma check_nonce_spec (p nonce pnonce : value) :
  get_prop p "nonce" = Ok pnonce ->
  check_nonce E p nonce
  = if loose_eq (StringToNumber E) pnonce nonce then Ok tt
    else Throw (AssertionError "nonce mismatch").
Proof.
  intros Hp. unfold check_nonce. rewrite Hp. simpl.
  assert (Hguard : negb (is_undefined nonce) || negb (is_null nonce) = true)
    by (destruct nonce; reflexivity).
  rewrite Hguard, orb_true_r.
  unfold assert_eq, assert_equal, assert_ok.
  destruct (loose_eq _ pnonce nonce); reflexivity.
Qed.

(** A claim check that throws is one of the eleven. *)
Lemma check_claims_Throw (this : Client) (now : Z) (token : token_arg)
  (nonce use h p : value) (e : error) :
  check_claims E this now token nonce use h p = Throw e ->
  In (Throw e)
    [ check_alg E (expected_alg E this use) h; check_presence p;
      check_iss E this p; check_iat now p; check_nbf now p;
      check_nonce E p nonce; check_exp now p; check_azp E this p;
      check_aud E this p; check_at_hash E token h p;
      check_c_hash E token h p ].
Proof.
  unfold check_claims. cbn [In].
  destruct (check_alg E (expected_alg E this use) h) as [[]|e1];
    [|intros H; auto].
  destruct (check_presence p) as [[]|e1]; [|intros H; auto].
  destruct (check_iss E this p) as [[]|e1]; [|intros H; auto].
  destruct (check_iat now p) as [[]|e1]; [|intros H; auto].
  destruct (check_nbf now p) as [[]|e1]; [|intros H; auto 6].
  destruct (check_nonce E p nonce) as [[]|e1]; [|intros H; auto 7].
  destruct (check_exp now p) as [[]|e1]; [|intros H; auto 8].
  destruct (check_azp E this p) as [[]|e1]; [|intros H; auto 9].
  destruct (check_aud E this p) as [[]|e1]; [|intros H; auto 10].
  destruct (check_at_hash E token h p) as [[]|e1]; [|intros H; auto 11].
  intros H. auto 12.
Qed.

(** C1, as the code has it.  Let the token decode and [pnonce] be the
    payload's [nonce] ([undefined] when absent).  Unless [pnonce ==
    nonce], validation throws, and it is the error ['nonce mismatch']
    that is thrown when the checks placed before the nonce (algorithm,
    presence, issuer, [iat], [nbf]) pass.  When they are equal the nonce
    check passes, and validation does not fail on the nonce: if the
    other checks pass, [validateIdToken] goes on to the signature, and
    whatever it throws is thrown by another check or by the signature
    step.  In particular this is so when the payload has no nonce and the
    caller's is [undefined] or [null].  For two strings, equal means the
    same string. *)
Theorem validateIdToken_nonce (this : Client) (Date_now : Z)
  (token : token_arg) (nonce use : value) (st : state)
  (idToken : string) (h p pnonce : value) :
  decode_token E token = Ok (idToken, h, p) ->
  get_prop p "nonce" = Ok pnonce ->
  let now := ceil_seconds Date_now in
  let equal := loose_eq (StringToNumber E) pnonce nonce in
  let others :=
    [ check_alg E (expected_alg E this use) h; check_presence p;
      check_iss E this p; check_iat now p; check_nbf now p;
      check_exp now p; check_azp E this p; check_aud E this p;
      check_at_hash E token h p; check_c_hash E token h p ] in
  let proceeds :=
    forall alg,
      get_prop h "alg" = Ok alg ->
      validateIdToken E this Date_now token nonce use st
      = if strict_eq alg (VStr "none") then (Ok (Fulfilled token), st)
        else verify_signature E this token idToken h st in
  (equal = false ->
   exists e,
     validateIdToken E this Date_now token nonce use st = (Throw e, st))
  /\ (check_alg E (expected_alg E this use) h = Ok tt ->
      check_presence p = Ok tt ->
      check_iss E this p = Ok tt ->
      check_iat now p = Ok tt ->
      check_nbf now p = Ok tt ->
      equal = false ->
      validateIdToken E this Date_now token nonce use st
      = (Throw (AssertionError "nonce mismatch"), st))
  /\ (equal = true -> check_nonce E p nonce = Ok tt)
  /\ (pnonce = VUndefined ->
      nonce = VUndefined \/ nonce = VNull ->
      equal = true /\ check_nonce E p nonce = Ok tt)
  /\ (forall a b,
        pnonce = VStr a -> nonce = VStr b -> (equal = true <-> a = b))
  /\ (equal = true ->
      (forall check, In check others -> check = Ok tt) -> proceeds)
  /\ (pnonce = VUndefined ->
      nonce = VUndefined \/ nonce = VNull ->
      (forall check, In check others -> check = Ok tt) -> proceeds)
  /\ (equal = true ->
      forall e st',
        validateIdToken E this Date_now token nonce use st = (Throw e, st') ->
        In (Throw e) others
        \/ get_prop h "alg" = Throw e
        \/ verify_signature E this token idToken h st = (Throw e, st')).
Proof.
  intros Hd Hp now equal others proceeds.
  pose proof (check_nonce_spec p nonce pnonce Hp) as Hspec.
  fold equal in Hspec.
  assert (Hproceeds : equal = true ->
                      (forall check, In check others -> check = Ok tt) ->
                      proceeds).
  { intros Heq Hothers alg Halg. rewrite Heq in Hspec.
    assert (Hok : check_claims E this now token nonce use h p = Ok tt).
    { apply check_claims_Ok. unfold others in Hothers. cbn [In] in Hothers.
      repeat split; try exact Hspec; apply Hothers; auto 12. }
    unfold validateIdToken. fold now. now rewrite Hd, Hok, Halg. }
  assert (Hneither : pnonce = VUndefined ->
                     nonce = VUndefined \/ nonce = VNull -> equal = true).
  { intros -> [->| ->]; reflexivity. }
  split; [|split; [|split; [|split; [|split; [|split; [|split]]]]]].
  - intros Hne. rewrite Hne in Hspec.
    destruct (validateIdToken_claims this Date_now token nonce use st
                idToken h p Hd) as [Hok|Hthrow]; [|exact Hthrow].
    apply check_claims_Ok in Hok.
    destruct Hok as (_ & _ & _ & _ & _ & Hnonce & _). congruence.
  - intros H1 H2 H3 H4 H5 Hne. rewrite Hne in Hspec.
    eapply validateIdToken_thrown; [exact Hd|].
    unfold check_claims. fold now. rewrite H1, H2, H3, H4, H5, Hspec.
    reflexivity.
  - intros Heq. now rewrite Heq in Hspec.
  - intros Hu Hnonce.
    pose proof (Hneither Hu Hnonce) as Heq.
    split; [exact Heq | now rewrite Heq in Hspec].
  - intros a b -> ->. apply loose_eq_strings.
  - exact Hproceeds.
  - intros Hu Hnonce. exact (Hproceeds (Hneither Hu Hnonce)).
  - intros Heq e st' Hrun. rewrite Heq in Hspec.
    unfold validateIdToken in Hrun. fold now in Hrun. rewrite Hd in Hrun.
    destruct (check_claims E this now token nonce use h p) as [[]|e0] eqn:Hc.
    + destruct (get_prop h "alg") as [alg|e0] eqn:Halg.
      * destruct (strict_eq alg (VStr "none")); [discriminate Hrun|].
        right. right. exact Hrun.
      * injection Hrun as <- _. right. now left.
    + injection Hrun as <- _. left.
      apply check_claims_Throw in Hc. unfold others. cbn [In] in *.
      rewrite Hspec in Hc.
      destruct Hc as [H|[H|[H|[H|[H|[H|[H|[H|[H|[H|[H|[]]]]]]]]]]]];
        try discriminate H; auto 12.
Qed.

Lemma check_alg_none (expectedAlg h : value) :
  get_prop h "alg" = Ok (VStr "none") ->
  check_alg E expectedAlg h = Ok tt ->
  loose_eq (StringToNumber E) (VStr "none") expectedAlg = true.
Proof.
  intros Halg. unfold check_alg. rewrite Halg. simpl.
  unfold assert_eq, assert_equal. intros H.
  now apply assert_ok_Ok in H.
Qed.

(** C2.  A token whose header says [alg: 'none'] and whose claims pass
    every check is handed back as it came, in a fulfilled promise, and
    the state is left as it was: no key was imported or looked up and
    no signature verified.  The algorithm expected for this use is then
    ['none'] as well. *)
Theorem validateIdToken_alg_none (this : Client) (Date_now : Z)
  (token : token_arg) (nonce use : value) (st : state)
  (idToken : string) (h p : value) :
  decode_token E token = Ok (idToken, h, p) ->
  get_prop h "alg" = Ok (VStr "none") ->
  check_claims E this (ceil_seconds Date_now) token nonce use h p = Ok tt ->
  validateIdToken E this Date_now token nonce use st
  = (Ok (Fulfilled token), st)
  /\ trace (snd (validateIdToken E this Date_now token nonce use st))
     = trace st
  /\ jose_secret (snd (validateIdToken E this Date_now token nonce use st))
     = jose_secret st
  /\ loose_eq (StringToNumber E) (VStr "none") (expected_alg E this use)
     = true
  /\ (forall s, expected_alg E this use = VStr s -> s = "none").
Proof.
  intros Hd Halg Hc.
  assert (Hrun : validateIdToken E this Date_now token nonce use st
                 = (Ok (Fulfilled token), st)).
  { unfold validateIdToken. rewrite Hd, Hc, Halg. reflexivity. }
  apply check_claims_Ok in Hc. destruct Hc as (Hcalg & _).
  pose proof (check_alg_none _ _ Halg Hcalg) as Hexp.
  rewrite Hrun. repeat split; try reflexivity; try exact Hexp.
  intros s Hs. rewrite Hs in Hexp. apply loose_eq_strings in Hexp.
  now subst.
Qed.

(** For any other algorithm the signature is verified: the call either
    throws or asks a collaborator, which the trace records. *)
Lemma validateIdToken_signed (this : Client) (Date_now : Z)
  (token : token_arg) (nonce use : value) (st st' : state)
  (idToken alg : string) (h p : value)
  (r : result (settled token_arg)) :
  decode_token E token = Ok (idToken, h, p) ->
  get_prop h "alg" = Ok (VStr alg) ->
  alg <> "none" ->
  check_claims E this (ceil_seconds Date_now) token nonce use h p = Ok tt ->
  validateIdToken E this Date_now token nonce use st = (r, st') ->
  (exists e, r = Throw e)
  \/ exists ev rest, trace st' = ev :: rest.
Proof.
  intros Hd Halg Hnone Hc. unfold validateIdToken.
  rewrite Hd, Hc, Halg.
  assert (Hne : strict_eq (VStr alg) (VStr "none") = false)
    by (simpl; apply String.eqb_neq; exact Hnone).
  rewrite Hne.
  unfold verify_signature. rewrite Halg. simpl.
  destruct (startsWith alg "HS").
  - unfold joseSecret. destruct (jose_secret st) as [k|].
    + destruct (jws_verify E k idToken); intros H; injection H as <- <-;
        right; simpl; eauto.
    + destruct (secret_octets E this) as [octets|e0];
        [|intros H; injection H as <- <-; left; eauto].
      destruct (asKey E _) as [k|e].
      * destruct (jws_verify E k idToken); intros H; injection H as <- <-;
          right; simpl; eauto.
      * intros H; injection H as <- <-. right; simpl; eauto.
  - destruct (issuer_key E h) as [k|e].
    + destruct (jws_verify E k idToken); intros H; injection H as <- <-;
        right; simpl; eauto.
    + intros H; injection H as <- <-. right; simpl; eauto.
Qed.

Lemma check_hash_spec (name field message : string) (token : token_arg)
  (h p claim : value) :
  get_prop p name = Ok claim ->
  check_hash E name field message token h p
  = if truthy claim then
      match token_prop token field with
      | Throw e => Throw e
      | Ok source =>
          match get_prop h "alg" with
          | Throw e => Throw e
          | Ok alg =>
              match tokenHash E source alg with
              | Throw e => Throw e
              | Ok hash =>
                  if loose_eq (StringToNumber E) claim hash then Ok tt
                  else Throw (AssertionError message)
              end
          end
      end
    else Ok tt.
Proof.
  intros Hp. unfold check_hash. rewrite Hp. simpl.
  destruct (truthy claim); [|reflexivity].
  destruct (token_prop token field) as [source|e]; [|reflexivity]. simpl.
  destruct (get_prop h "alg") as [alg|e]; [|reflexivity]. simpl.
  destruct (tokenHash E source alg) as [hash|e]; [|reflexivity]. simpl.
  unfold assert_eq, assert_equal, assert_ok.
  destruct (loose_eq _ claim hash); reflexivity.
Qed.

Lemma check_hash_Ok (name field message : string) (token : token_arg)
  (h p claim : value) :
  get_prop p name = Ok claim ->
  truthy claim = true ->
  check_hash E name field message token h p = Ok tt ->
  exists source alg hash,
    token_prop token field = Ok source
    /\ get_prop h "alg" = Ok alg
    /\ tokenHash E source alg = Ok hash
    /\ loose_eq (StringToNumber E) claim hash = true.
Proof.
  intros Hp Ht. rewrite (check_hash_spec _ _ _ _ _ _ _ Hp), Ht.
  destruct (token_prop token field) as [source|e]; [|discriminate].
  destruct (get_prop h "alg") as [alg|e]; [|discriminate].
  destruct (tokenHash E source alg) as [hash|e] eqn:Hh; [|discriminate].
  destruct (loose_eq _ claim hash) eqn:Heq; [|discriminate].
  intros _. exists source, alg, hash. repeat split; assumption.
Qed.

(** C3, as the code has it.  An [at_hash] that is truthy (any string
    but the empty one) binds the token: validation throws unless
    [at_hash == tokenHash(token.access_token, header.alg)], whatever
    [token.access_token] is, [undefined] included; likewise [c_hash]
    and [token.code].  When the hash is computed and differs, and the
    checks placed before pass, the error is ['at_hash mismatch'],
    respectively ['c_hash mismatch'].  A hash claim that is falsy, the
    empty string for one, passes its check unexamined. *)
Theorem validateIdToken_hashes (this : Client) (Date_now : Z)
  (token : token_arg) (nonce use : value) (st : state)
  (idToken : string) (h p at_hash c_hash : value) :
  decode_token E token = Ok (idToken, h, p) ->
  get_prop p "at_hash" = Ok at_hash ->
  get_prop p "c_hash" = Ok c_hash ->
  let now := ceil_seconds Date_now in
  let bound (claim : value) (field : string) :=
    exists source alg hash,
      token_prop token field = Ok source
      /\ get_prop h "alg" = Ok alg
      /\ tokenHash E source alg = Ok hash
      /\ loose_eq (StringToNumber E) claim hash = true in
  let differs (claim : value) (field : string) :=
    exists source alg hash,
      token_prop token field = Ok source
      /\ get_prop h "alg" = Ok alg
      /\ tokenHash E source alg = Ok hash
      /\ loose_eq (StringToNumber E) claim hash = false in
  let earlier :=
    check_alg E (expected_alg E this use) h = Ok tt
    /\ check_presence p = Ok tt
    /\ check_iss E this p = Ok tt
    /\ check_iat now p = Ok tt
    /\ check_nbf now p = Ok tt
    /\ check_nonce E p nonce = Ok tt
    /\ check_exp now p = Ok tt
    /\ check_azp E this p = Ok tt
    /\ check_aud E this p = Ok tt in
  (forall r st',
     validateIdToken E this Date_now token nonce use st = (Ok r, st') ->
     (truthy at_hash = true -> bound at_hash "access_token")
     /\ (truthy c_hash = true -> bound c_hash "code"))
  /\ (earlier -> truthy at_hash = true -> differs at_hash "access_token" ->
      validateIdToken E this Date_now token nonce use st
      = (Throw (AssertionError "at_hash mismatch"), st))
  /\ (earlier -> check_at_hash E token h p = Ok tt ->
      truthy c_hash = true -> differs c_hash "code" ->
      validateIdToken E this Date_now token nonce use st
      = (Throw (AssertionError "c_hash mismatch"), st))
  /\ (truthy at_hash = false -> check_at_hash E token h p = Ok tt)
  /\ (truthy c_hash = false -> check_c_hash E token h p = Ok tt).
Proof.
  intros Hd Hat Hc now bound differs earlier.
  split; [|split; [|split; [|split]]];
    [| | |intros Hf; unfold check_at_hash;
          rewrite (check_hash_spec _ _ _ _ _ _ _ Hat), Hf; reflexivity
         |intros Hf; unfold check_c_hash;
          rewrite (check_hash_spec _ _ _ _ _ _ _ Hc), Hf; reflexivity].
  - intros r st' Hrun.
    apply validateIdToken_not_thrown in Hrun.
    destruct Hrun as (idToken' & h' & p' & Hd' & Hok).
    rewrite Hd in Hd'. injection Hd' as <- <- <-.
    apply check_claims_Ok in Hok.
    destruct Hok as (_ & _ & _ & _ & _ & _ & _ & _ & _ & Hcat & Hcc).
    split; intros Ht.
    + exact (check_hash_Ok _ _ _ _ _ _ _ Hat Ht Hcat).
    + exact (check_hash_Ok _ _ _ _ _ _ _ Hc Ht Hcc).
  - intros (H1 & H2 & H3 & H4 & H5 & H6 & H7 & H8 & H9) Ht
      (source & alg & hash & Hs & Ha & Hh & Hne).
    eapply validateIdToken_thrown; [exact Hd|].
    unfold check_claims. fold now.
    rewrite H1, H2, H3, H4, H5, H6, H7, H8, H9. simpl.
    unfold check_at_hash.
    rewrite (check_hash_spec _ _ _ _ _ _ _ Hat), Ht, Hs, Ha, Hh, Hne.
    reflexivity.
  - intros (H1 & H2 & H3 & H4 & H5 & H6 & H7 & H8 & H9) H10 Ht
      (source & alg & hash & Hs & Ha & Hh & Hne).
    eapply validateIdToken_thrown; [exact Hd|].
    unfold check_claims. fold now.
    rewrite H1, H2, H3, H4, H5, H6, H7, H8, H9, H10. simpl.
    unfold check_c_hash.
    rewrite (check_hash_spec _ _ _ _ _ _ _ Hc), Ht, Hs, Ha, Hh, Hne.
    reflexivity.
Qed.

Lemma check_azp_spec (this : Client) (p azp : value) :
  get_prop p "azp" = Ok azp ->
  check_azp E this p
  = if is_undefined azp then Ok tt
    else if loose_eq (StringToNumber E) (prop E this "client_id") azp
         then Ok tt
         else Throw (AssertionError "azp must be the client_id").
Proof.
  intros Hp. unfold check_azp. rewrite Hp. simpl.
  destruct (is_undefined azp); simpl; [reflexivity|].
  unfold assert_eq, assert_equal, assert_ok.
  destruct (loose_eq _ _ azp); reflexivity.
Qed.

Lemma check_aud_spec (this : Client) (p aud azp : value) :
  get_prop p "aud" = Ok aud ->
  get_prop p "azp" = Ok azp ->
  check_aud E this p
  = match normalize_aud aud azp with
    | Throw e => Throw e
    | Ok audience =>
        if existsb (fun a => strict_eq a (prop E this "client_id")) audience
        then Ok tt
        else Throw (AssertionError "aud is missing the client_id")
    end.
Proof.
  intros Haud Hazp. unfold check_aud. rewrite Haud, Hazp. simpl.
  destruct (normalize_aud aud azp) as [audience|e]; [|reflexivity]. simpl.
  rewrite indexOf_found. unfold assert_ok.
  destruct (existsb _ audience); reflexivity.
Qed.

(** C4, as the code has it.  An [aud] that is not an array is taken as
    the one-element list holding it; an array of more than one element
    without [azp] is the error 'missing required JWT property azp';
    validation throws unless [client_id] is an element ([===]) of the
    audience list and unless a present [azp] is [==] to [client_id]: the
    same string when both are strings, equal after conversion otherwise.
    The errors named are the ones thrown when the checks placed before
    pass. *)
Theorem validateIdToken_audience (this : Client) (Date_now : Z)
  (token : token_arg) (nonce use : value) (st : state)
  (idToken : string) (h p aud azp : value) :
  decode_token E token = Ok (idToken, h, p) ->
  get_prop p "aud" = Ok aud ->
  get_prop p "azp" = Ok azp ->
  let now := ceil_seconds Date_now in
  let client_id := prop E this "client_id" in
  let member (audience : list value) :=
    existsb (fun a => strict_eq a client_id) audience in
  let earlier :=
    check_alg E (expected_alg E this use) h = Ok tt
    /\ check_presence p = Ok tt
    /\ check_iss E this p = Ok tt
    /\ check_iat now p = Ok tt
    /\ check_nbf now p = Ok tt
    /\ check_nonce E p nonce = Ok tt
    /\ check_exp now p = Ok tt in
  (isArray aud = false -> normalize_aud aud azp = Ok [aud])
  /\ (forall elems,
        aud = VArr elems -> (1 < List.length elems)%nat -> azp = VUndefined ->
        normalize_aud aud azp
        = Throw (Error "missing required JWT property azp"))
  /\ (forall r st',
        validateIdToken E this Date_now token nonce use st = (Ok r, st') ->
        (azp <> VUndefined ->
         loose_eq (StringToNumber E) client_id azp = true)
        /\ exists audience,
             normalize_aud aud azp = Ok audience
             /\ member audience = true)
  /\ (earlier ->
      azp <> VUndefined ->
      loose_eq (StringToNumber E) client_id azp = false ->
      validateIdToken E this Date_now token nonce use st
      = (Throw (AssertionError "azp must be the client_id"), st))
  /\ (earlier ->
      forall elems,
        aud = VArr elems -> (1 < List.length elems)%nat -> azp = VUndefined ->
        validateIdToken E this Date_now token nonce use st
        = (Throw (Error "missing required JWT property azp"), st))
  /\ (earlier ->
      check_azp E this p = Ok tt ->
      forall audience,
        normalize_aud aud azp = Ok audience ->
        member audience = false ->
        validateIdToken E this Date_now token nonce use st
        = (Throw (AssertionError "aud is missing the client_id"), st))
  /\ (forall a b,
        client_id = VStr a -> azp = VStr b ->
        (loose_eq (StringToNumber E) client_id azp = true <-> a = b)).
Proof.
  intros Hd Haud Hazp now client_id member earlier.
  pose proof (check_azp_spec this p azp Hazp) as Hsazp.
  pose proof (check_aud_spec this p aud azp Haud Hazp) as Hsaud.
  fold client_id in Hsazp, Hsaud.
  assert (Hlen : forall elems : list value,
            (1 < List.length elems)%nat ->
            (1 <? Z.of_nat (List.length elems)) = true)
    by (intros elems Hl; apply Z.ltb_lt; lia).
  split; [|split; [|split; [|split; [|split; [|split]]]]].
  7: { intros a b Ha ->. rewrite Ha. apply loose_eq_strings. }
  - destruct aud; simpl; try reflexivity. discriminate.
  - intros elems -> Hl ->. simpl. now rewrite (Hlen _ Hl).
  - intros r st' Hrun.
    apply validateIdToken_not_thrown in Hrun.
    destruct Hrun as (idToken' & h' & p' & Hd' & Hok).
    rewrite Hd in Hd'. injection Hd' as <- <- <-.
    apply check_claims_Ok in Hok.
    destruct Hok as (_ & _ & _ & _ & _ & _ & _ & Hcazp & Hcaud & _).
    rewrite Hsazp in Hcazp. rewrite Hsaud in Hcaud.
    split.
    + intros Hpresent.
      destruct azp; try contradiction; simpl in Hcazp;
        match type of Hcazp with
        | (if ?b then _ else _) = _ => destruct b; [reflexivity|discriminate]
        end.
    + destruct (normalize_aud aud azp) as [audience|e]; [|discriminate].
      exists audience. split; [reflexivity|].
      unfold member. destruct (existsb _ audience); [reflexivity|discriminate].
  - intros (H1 & H2 & H3 & H4 & H5 & H6 & H7) Hpresent Hne.
    eapply validateIdToken_thrown; [exact Hd|].
    unfold check_claims. fold now.
    rewrite H1, H2, H3, H4, H5, H6, H7, Hsazp, Hne.
    destruct azp; try contradiction; reflexivity.
  - intros (H1 & H2 & H3 & H4 & H5 & H6 & H7) elems -> Hl ->.
    eapply validateIdToken_thrown; [exact Hd|].
    unfold check_claims. fold now.
    rewrite H1, H2, H3, H4, H5, H6, H7, Hsazp, Hsaud. simpl.
    now rewrite (Hlen _ Hl).
  - intros (H1 & H2 & H3 & H4 & H5 & H6 & H7) H8 audience Hn Hmem.
    eapply validateIdToken_thrown; [exact Hd|].
    unfold check_claims. fold now.
    rewrite H1, H2, H3, H4, H5, H6, H7, H8, Hsaud, Hn.
    unfold member in Hmem. rewrite Hmem. reflexivity.
Qed.

Lemma ceil_seconds_spec (Date_now : Z) :
  1000 * (ceil_seconds Date_now - 1) < Date_now
  <= 1000 * ceil_seconds Date_now.
Proof.
  unfold ceil_seconds.
  pose proof (Z.div_mod (- Date_now) 1000 ltac:(lia)) as Hdm.
  pose proof (Z.mod_pos_bound (- Date_now) 1000 ltac:(lia)) as Hb.
  lia.
Qed.

Lemma check_iat_spec (now : Z) (p iat : value) :
  get_prop p "iat" = Ok iat ->
  check_iat now p
  = match iat with
    | VNum n =>
        if n <=? now then Ok tt
        else Throw (AssertionError "id_token issued in the future")
    | _ => Throw (AssertionError "iat is not a number")
    end.
Proof.
  intros Hp. unfold check_iat. rewrite Hp.
  destruct iat; reflexivity.
Qed.

Lemma check_nbf_spec (now : Z) (p nbf : value) :
  get_prop p "nbf" = Ok nbf ->
  check_nbf now p
  = match nbf with
    | VUndefined => Ok tt
    | VNum n =>
        if n <=? now then Ok tt
        else Throw (AssertionError "id_token not active yet")
    | _ => Throw (AssertionError "nbf is not a number")
    end.
Proof.
  intros Hp. unfold check_nbf. rewrite Hp.
  destruct nbf; reflexivity.
Qed.

Lemma check_exp_spec (now : Z) (p exp : value) :
  get_prop p "exp" = Ok exp ->
  check_exp now p
  = match exp with
    | VNum n =>
        if now <? n then Ok tt
        else Throw (AssertionError "id_token expired")
    | _ => Throw (AssertionError "exp is not a number")
    end.
Proof.
  intros Hp. unfold check_exp. rewrite Hp.
  destruct exp; reflexivity.
Qed.

(** C5.  [now] is the ceiling of the clock in seconds.  Validation
    throws when [iat] is not a number or exceeds [now], when a present
    [nbf] is not a number or exceeds [now], and when [exp] is not a
    number or is not strictly greater than [now]; an absent [nbf]
    passes its check.  Each check throws the error of its own. *)
Theorem validateIdToken_times (this : Client) (Date_now : Z)
  (token : token_arg) (nonce use : value) (st : state)
  (idToken : string) (h p iat nbf exp : value) :
  decode_token E token = Ok (idToken, h, p) ->
  get_prop p "iat" = Ok iat ->
  get_prop p "nbf" = Ok nbf ->
  get_prop p "exp" = Ok exp ->
  let now := ceil_seconds Date_now in
  let fails :=
    exists e,
      validateIdToken E this Date_now token nonce use st = (Throw e, st) in
  (1000 * (now - 1) < Date_now <= 1000 * now)
  /\ (is_number iat = false -> fails)
  /\ (forall n, iat = VNum n -> now < n -> fails)
  /\ (nbf <> VUndefined -> is_number nbf = false -> fails)
  /\ (forall n, nbf = VNum n -> now < n -> fails)
  /\ (is_number exp = false -> fails)
  /\ (forall n, exp = VNum n -> n <= now -> fails)
  /\ (nbf = VUndefined -> check_nbf now p = Ok tt)
  /\ check_iat now p
     = match iat with
       | VNum n =>
           if n <=? now then Ok tt
           else Throw (AssertionError "id_token issued in the future")
       | _ => Throw (AssertionError "iat is not a number")
       end
  /\ check_nbf now p
     = match nbf with
       | VUndefined => Ok tt
       | VNum n =>
           if n <=? now then Ok tt
           else Throw (AssertionError "id_token not active yet")
       | _ => Throw (AssertionError "nbf is not a number")
       end
  /\ check_exp now p
     = match exp with
       | VNum n =>
           if now <? n then Ok tt
           else Throw (AssertionError "id_token expired")
       | _ => Throw (AssertionError "exp is not a number")
       end.
Proof.
  intros Hd Hiat Hnbf Hexp now fails.
  pose proof (check_iat_spec now p iat Hiat) as Hsiat.
  pose proof (check_nbf_spec now p nbf Hnbf) as Hsnbf.
  pose proof (check_exp_spec now p exp Hexp) as Hsexp.
  assert (Hfails : check_iat now p <> Ok tt
                   \/ check_nbf now p <> Ok tt
                   \/ check_exp now p <> Ok tt -> fails).
  { intros Hbad.
    destruct (validateIdToken_claims this Date_now token nonce use st
                idToken h p Hd) as [Hok|Hthrow]; [|exact Hthrow].
    apply check_claims_Ok in Hok.
    destruct Hok as (_ & _ & _ & H4 & H5 & _ & H7 & _).
    fold now in H4, H5, H7. tauto. }
  split; [apply ceil_seconds_spec|].
  repeat split.
  - intros Hn. apply Hfails. left. rewrite Hsiat.
    destruct iat; try discriminate.
  - intros n -> Hlt. apply Hfails. left. rewrite Hsiat.
    rewrite (proj2 (Z.leb_gt n now)) by lia. discriminate.
  - intros Hpresent Hn. apply Hfails. right; left. rewrite Hsnbf.
    destruct nbf; try discriminate. contradiction.
  - intros n -> Hlt. apply Hfails. right; left. rewrite Hsnbf.
    rewrite (proj2 (Z.leb_gt n now)) by lia. discriminate.
  - intros Hn. apply Hfails. right; right. rewrite Hsexp.
    destruct exp; try discriminate.
  - intros n -> Hle. apply Hfails. right; right. rewrite Hsexp.
    rewrite (proj2 (Z.ltb_ge now n)) by lia. discriminate.
  - intros ->. exact Hsnbf.
  - exact Hsiat.
  - exact Hsnbf.
  - exact Hsexp.
Qed.

End ValidateIdToken.

(** ** The statements on the sample deployment *)

Example validateIdToken_signed_tokens :
  let E := Sample.collaborators in
  validateIdToken E (Sample.client "client_secret_basic" "RS256") 1499001
    (Sample.tokens "RS256" "plain" "op" []) VUndefined VUndefined Sample.fresh
  = (Ok (Fulfilled (Sample.tokens "RS256" "plain" "op" [])),
     mkState None 0
       [EVerify (mkKey "op" ["RS256"]) "RS256.plain.op";
        EIssuerKey (VObj [("alg", VStr "RS256")])])
  /\ validateIdToken E (Sample.client "client_secret_basic" "HS256") 1499001
       (Sample.tokens "HS256" "plain" "forged" []) VUndefined VUndefined
       Sample.fresh
     = (Ok (Rejected (JoseError "no key found")),
        mkState (Some (mkKey "oct:cw" ["HS256"; "HS384"; "HS512"])) 0
          [EVerify (mkKey "oct:cw" ["HS256"; "HS384"; "HS512"])
             "HS256.plain.forged";
           EAsKey "cw"])
  /\ validateIdToken E (Sample.client "client_secret_basic" "RS256") 1499001
       (Sample.tokens "none" "plain" "" []) VUndefined VUndefined Sample.fresh
     = (Throw (AssertionError "unexpected algorithm used"), Sample.fresh).
Proof. repeat split; reflexivity. Qed.

Lemma validateIdToken_nonce_witness :
  let E := Sample.collaborators in
  let this := Sample.client "client_secret_basic" "none" in
  validateIdToken E this 1499001 (Sample.tokens "none" "nonce-n" "" [])
    (VStr "m") VUndefined Sample.fresh
  = (Throw (AssertionError "nonce mismatch"), Sample.fresh)
  /\ check_nonce E (Sample.claims [("nonce", VStr "n")]) (VStr "n") = Ok tt
  /\ check_nonce E (Sample.claims []) VNull = Ok tt
  /\ validateIdToken E this 1499001 (Sample.tokens "none" "nonce-n" "" [])
       (VStr "n") VUndefined Sample.fresh
     = (Ok (Fulfilled (Sample.tokens "none" "nonce-n" "" [])), Sample.fresh)
  /\ validateIdToken E this 1499001 (Sample.tokens "none" "plain" "" [])
       VNull VUndefined Sample.fresh
     = (Ok (Fulfilled (Sample.tokens "none" "plain" "" [])), Sample.fresh).
Proof.
  intros E this. split; [|split; [|split; [|split]]].
  4: {
    destruct (validateIdToken_nonce E this 1499001
                (Sample.tokens "none" "nonce-n" "" []) (VStr "n") VUndefined
                Sample.fresh "none.nonce-n." (VObj [("alg", VStr "none")])
                (Sample.claims [("nonce", VStr "n")]) (VStr "n")
                eq_refl eq_refl) as (_ & _ & _ & _ & _ & Hgoes & _).
    apply (Hgoes eq_refl) with (alg := VStr "none"); [|reflexivity].
    intros check Hin. cbn [In] in Hin.
    repeat (destruct Hin as [<-|Hin]; [reflexivity|]). destruct Hin. }
  4: {
    destruct (validateIdToken_nonce E this 1499001
                (Sample.tokens "none" "plain" "" []) VNull VUndefined
                Sample.fresh "none.plain." (VObj [("alg", VStr "none")])
                (Sample.claims []) VUndefined
                eq_refl eq_refl) as (_ & _ & _ & _ & _ & _ & Hneither & _).
    apply (Hneither eq_refl (or_intror eq_refl)) with (alg := VStr "none");
      [|reflexivity].
    intros check Hin. cbn [In] in Hin.
    repeat (destruct Hin as [<-|Hin]; [reflexivity|]). destruct Hin. }
  - apply (validateIdToken_nonce E this 1499001
             (Sample.tokens "none" "nonce-n" "" []) (VStr "m") VUndefined
             Sample.fresh "none.nonce-n." (VObj [("alg", VStr "none")])
             (Sample.claims [("nonce", VStr "n")]) (VStr "n")
             eq_refl eq_refl); reflexivity.
  - destruct (validateIdToken_nonce E this 1499001
                (Sample.tokens "none" "nonce-n" "" []) (VStr "n") VUndefined
                Sample.fresh "none.nonce-n." (VObj [("alg", VStr "none")])
                (Sample.claims [("nonce", VStr "n")]) (VStr "n")
                eq_refl eq_refl) as (_ & _ & Hequal & _).
    apply Hequal. reflexivity.
  - destruct (validateIdToken_nonce E this 1499001
                (Sample.tokens "none" "plain" "" []) VNull VUndefined
                Sample.fresh "none.plain." (VObj [("alg", VStr "none")])
                (Sample.claims []) VUndefined
                eq_refl eq_refl) as (_ & _ & _ & Hneither & _).
    apply Hneither; [reflexivity | right; reflexivity].
Defined.

Lemma validateIdToken_alg_none_witness :
  let token :=
    Sample.tokens "none" "hashes-good" ""
      [("access_token", VStr "at"); ("code", VStr "co")] in
  validateIdToken Sample.collaborators
    (Sample.client "client_secret_basic" "none") 1499001 token
    (VStr "n") (VStr "id_token") Sample.fresh
  = (Throw (AssertionError "nonce mismatch"), Sample.fresh)
  /\ validateIdToken Sample.collaborators
       (Sample.client "client_secret_basic" "none") 1499001 token
       VUndefined (VStr "id_token") Sample.fresh
     = (Ok (Fulfilled token), Sample.fresh).
Proof.
  intros token. split; [reflexivity|].
  apply (validateIdToken_alg_none Sample.collaborators
           (Sample.client "client_secret_basic" "none") 1499001 token
           VUndefined (VStr "id_token") Sample.fresh "none.hashes-good."
           (VObj [("alg", VStr "none")])
           (Sample.claims [("at_hash", VStr "#at:none");
                           ("c_hash", VStr "#co:none")])
           eq_refl eq_refl eq_refl).
Defined.

(** C1, as stated, fails: the caller's nonce below is an array, the
    payload's is a string, and validation accepts the token, for [==]
    compares the string with what the array converts to. *)
Lemma validateIdToken_array_nonce_accepted :
  let E := Sample.collaborators in
  let this := Sample.client "client_secret_basic" "none" in
  let token := Sample.tokens "none" "nonce-n" "" [] in
  decode_token E token
  = Ok ("none.nonce-n.", VObj [("alg", VStr "none")],
        Sample.claims [("nonce", VStr "n")])
  /\ get_prop (Sample.claims [("nonce", VStr "n")]) "nonce" = Ok (VStr "n")
  /\ VStr "n" <> VArr [VStr "n"]
  /\ strict_eq (VStr "n") (VArr [VStr "n"]) = false
  /\ validateIdToken E this 1499001 token (VArr [VStr "n"]) VUndefined
       Sample.fresh
     = (Ok (Fulfilled token), Sample.fresh).
Proof. repeat split; try reflexivity. discriminate. Qed.

(** C4, as stated, fails: the [azp] below is an array and not the
    client_id ['c'], and validation accepts the token, for [==] compares
    the client_id with what the array converts to. *)
Lemma validateIdToken_array_azp_accepted :
  let E := Sample.collaborators in
  let this := Sample.client "client_secret_basic" "none" in
  let token := Sample.tokens "none" "azp-array" "" [] in
  decode_token E token
  = Ok ("none.azp-array.", VObj [("alg", VStr "none")],
        Sample.claims [("azp", VArr [VStr "c"])])
  /\ get_prop (Sample.claims [("azp", VArr [VStr "c"])]) "azp"
     = Ok (VArr [VStr "c"])
  /\ prop E this "client_id" = VStr "c"
  /\ VStr "c" <> VArr [VStr "c"]
  /\ strict_eq (VStr "c") (VArr [VStr "c"]) = false
  /\ validateIdToken E this 1499001 token VUndefined VUndefined Sample.fresh
     = (Ok (Fulfilled token), Sample.fresh).
Proof. repeat split; try reflexivity. discriminate. Qed.

(** C3, as stated, fails: the payload below contains an [at_hash] claim,
    the empty string, which is not the hash of the access token, and
    validation accepts the token; the same with [c_hash]. *)
Lemma validateIdToken_empty_hash_accepted :
  let E := Sample.collaborators in
  let this := Sample.client "client_secret_basic" "none" in
  let token1 :=
    Sample.tokens "none" "at_hash-empty" "" [("access_token", VStr "at")] in
  let token2 := Sample.tokens "none" "c_hash-empty" "" [("code", VStr "co")] in
  (decode_token E token1
   = Ok ("none.at_hash-empty.", VObj [("alg", VStr "none")],
         Sample.claims [("at_hash", VStr "")])
   /\ get_prop (Sample.claims [("at_hash", VStr "")]) "at_hash" = Ok (VStr "")
   /\ tokenHash E (VStr "at") (VStr "none") = Ok (VStr "#at:none")
   /\ loose_eq (StringToNumber E) (VStr "") (VStr "#at:none") = false
   /\ validateIdToken E this 1499001 token1 VUndefined VUndefined Sample.fresh
      = (Ok (Fulfilled token1), Sample.fresh))
  /\ (decode_token E token2
      = Ok ("none.c_hash-empty.", VObj [("alg", VStr "none")],
            Sample.claims [("c_hash", VStr "")])
      /\ get_prop (Sample.claims [("c_hash", VStr "")]) "c_hash" = Ok (VStr "")
      /\ tokenHash E (VStr "co") (VStr "none") = Ok (VStr "#co:none")
      /\ loose_eq (StringToNumber E) (VStr "") (VStr "#co:none") = false
      /\ validateIdToken E this 1499001 token2 VUndefined VUndefined Sample.fresh
         = (Ok (Fulfilled token2), Sample.fresh)).
Proof. repeat split; reflexivity. Qed.

Lemma validateIdToken_hashes_witness :
  let E := Sample.collaborators in
  let this := Sample.client "client_secret_basic" "none" in
  validateIdToken E this 1499001
    (Sample.tokens "none" "at_hash-bad" "" [("access_token", VStr "at")])
    VUndefined VUndefined Sample.fresh
  = (Throw (AssertionError "at_hash mismatch"), Sample.fresh)
  /\ validateIdToken E this 1499001
       (Sample.tokens "none" "c_hash-bad" "" [("code", VStr "co")])
       VUndefined VUndefined Sample.fresh
     = (Throw (AssertionError "c_hash mismatch"), Sample.fresh)
  /\ loose_eq (StringToNumber E) (VStr "#at:none") (VStr "#at:none") = true.
Proof.
  intros E this. split; [|split].
  - apply (validateIdToken_hashes E this 1499001
             (Sample.tokens "none" "at_hash-bad" "" [("access_token", VStr "at")])
             VUndefined VUndefined Sample.fresh "none.at_hash-bad."
             (VObj [("alg", VStr "none")])
             (Sample.claims [("at_hash", VStr "bad")]) (VStr "bad") VUndefined
             eq_refl eq_refl eq_refl).
    + repeat split; reflexivity.
    + reflexivity.
    + exists (VStr "at"), (VStr "none"), (VStr "#at:none").
      repeat split; reflexivity.
  - apply (validateIdToken_hashes E this 1499001
             (Sample.tokens "none" "c_hash-bad" "" [("code", VStr "co")])
             VUndefined VUndefined Sample.fresh "none.c_hash-bad."
             (VObj [("alg", VStr "none")])
             (Sample.claims [("c_hash", VStr "bad")]) VUndefined (VStr "bad")
             eq_refl eq_refl eq_refl).
    + repeat split; reflexivity.
    + reflexivity.
    + reflexivity.
    + exists (VStr "co"), (VStr "none"), (VStr "#co:none").
      repeat split; reflexivity.
  - pose (token := Sample.tokens "none" "hashes-good" ""
                     [("access_token", VStr "at"); ("code", VStr "co")]).
    destruct (validateIdToken_hashes E this 1499001 token
                VUndefined VUndefined Sample.fresh "none.hashes-good."
                (VObj [("alg", VStr "none")])
                (Sample.claims [("at_hash", VStr "#at:none");
                                ("c_hash", VStr "#co:none")])
                (VStr "#at:none") (VStr "#co:none")
                eq_refl eq_refl eq_refl) as (Hbound & _).
    destruct (Hbound (Fulfilled token) Sample.fresh eq_refl) as (Hat & _).
    destruct (Hat eq_refl) as (source & alg & hash & Hs & Ha & Hh & Heq).
    injection Hs as <-. injection Ha as <-. injection Hh as <-.
    exact Heq.
Defined.

Lemma validateIdToken_audience_witness :
  let E := Sample.collaborators in
  let this := Sample.client "client_secret_basic" "none" in
  validateIdToken E this 1499001 (Sample.tokens "none" "azp-other" "" [])
    VUndefined VUndefined Sample.fresh
  = (Throw (AssertionError "azp must be the client_id"), Sample.fresh)
  /\ validateIdToken E this 1499001 (Sample.tokens "none" "aud-two" "" [])
       VUndefined VUndefined Sample.fresh
     = (Throw (Error "missing required JWT property azp"), Sample.fresh)
  /\ validateIdToken E this 1499001 (Sample.tokens "none" "aud-other" "" [])
       VUndefined VUndefined Sample.fresh
     = (Throw (AssertionError "aud is missing the client_id"), Sample.fresh)
  /\ normalize_aud (VStr "c") VUndefined = Ok [VStr "c"].
Proof.
  intros E this. split; [|split; [|split]].
  - apply (validateIdToken_audience E this 1499001
             (Sample.tokens "none" "azp-other" "" []) VUndefined VUndefined
             Sample.fresh "none.azp-other." (VObj [("alg", VStr "none")])
             (Sample.claims [("azp", VStr "other")]) (VStr "c") (VStr "other")
             eq_refl eq_refl eq_refl).
    + repeat split; reflexivity.
    + discriminate.
    + reflexivity.
  - apply (validateIdToken_audience E this 1499001
             (Sample.tokens "none" "aud-two" "" []) VUndefined VUndefined
             Sample.fresh "none.aud-two." (VObj [("alg", VStr "none")])
             (Sample.claims [("aud", VArr [VStr "c"; VStr "d"])])
             (VArr [VStr "c"; VStr "d"]) VUndefined
             eq_refl eq_refl eq_refl) with (elems := [VStr "c"; VStr "d"]).
    + repeat split; reflexivity.
    + reflexivity.
    + simpl. lia.
    + reflexivity.
  - apply (validateIdToken_audience E this 1499001
             (Sample.tokens "none" "aud-other" "" []) VUndefined VUndefined
             Sample.fresh "none.aud-other." (VObj [("alg", VStr "none")])
             (Sample.claims [("aud", VStr "d")]) (VStr "d") VUndefined
             eq_refl eq_refl eq_refl) with (audience := [VStr "d"]).
    + repeat split; reflexivity.
    + reflexivity.
    + reflexivity.
    + reflexivity.
  - apply (validateIdToken_audience E this 1499001
             (Sample.tokens "none" "plain" "" []) VUndefined VUndefined
             Sample.fresh "none.plain." (VObj [("alg", VStr "none")])
             (Sample.claims []) (VStr "c") VUndefined
             eq_refl eq_refl eq_refl).
    reflexivity.
Defined.

Lemma validateIdToken_times_witness :
  let E := Sample.collaborators in
  let this := Sample.client "client_secret_basic" "none" in
  ceil_seconds 1499001 = 1500
  /\ (exists e,
        validateIdToken E this 1499001 (Sample.tokens "none" "exp-now" "" [])
          VUndefined VUndefined Sample.fresh = (Throw e, Sample.fresh))
  /\ (exists e,
        validateIdToken E this 1499001 (Sample.tokens "none" "iat-late" "" [])
          VUndefined VUndefined Sample.fresh = (Throw e, Sample.fresh))
  /\ check_nbf 1500 (Sample.claims []) = Ok tt.
Proof.
  intros E this. split; [reflexivity|]. split; [|split].
  - destruct (validateIdToken_times E this 1499001
                (Sample.tokens "none" "exp-now" "" []) VUndefined VUndefined
                Sample.fresh "none.exp-now." (VObj [("alg", VStr "none")])
                (Sample.claims [("exp", VNum 1500)])
                (VNum 1000) VUndefined (VNum 1500)
                eq_refl eq_refl eq_refl eq_refl)
      as (_ & _ & _ & _ & _ & _ & Hexpired & _).
    apply (Hexpired 1500); [reflexivity | vm_compute; discriminate].
  - destruct (validateIdToken_times E this 1499001
                (Sample.tokens "none" "iat-late" "" []) VUndefined VUndefined
                Sample.fresh "none.iat-late." (VObj [("alg", VStr "none")])
                (Sample.claims [("iat", VNum 1501)])
                (VNum 1501) VUndefined (VNum 2000)
                eq_refl eq_refl eq_refl eq_refl)
      as (_ & _ & Hlate & _).
    apply (Hlate 1501); [reflexivity | vm_compute; reflexivity].
  - destruct (validateIdToken_times E this 1499001
                (Sample.tokens "none" "plain" "" []) VUndefined VUndefined
                Sample.fresh "none.plain." (VObj [("alg", VStr "none")])
                (Sample.claims []) (VNum 1000) VUndefined (VNum 2000)
                eq_refl eq_refl eq_refl eq_refl)
      as (_ & _ & _ & _ & _ & _ & _ & Habsent & _).
    apply Habsent. reflexivity.
Defined.

(** ** The two revisions compared *)

(** An empty nonce in the payload, none from the caller: the earlier
    revision lets it pass, the later one reports the mismatch. *)
Example earlier_revision_skips_falsy_nonce :
  let E := Sample.collaborators in
  let this := Sample.client "client_secret_basic" "RS256" in
  let token := Sample.tokens "RS256" "nonce-empty" "op" [] in
  fst (validateIdToken_earlier E this 1499001 token VUndefined Sample.fresh)
  = Ok (Fulfilled token)
  /\ validateIdToken E this 1499001 token VUndefined VUndefined Sample.fresh
     = (Throw (AssertionError "nonce mismatch"), Sample.fresh).
Proof. split; reflexivity. Qed.

(** A hash claim without the token field it binds: skipped by the
    earlier revision, checked by the later one. *)
Example earlier_revision_skips_unbound_hash :
  let E := Sample.collaborators in
  let this := Sample.client "client_secret_basic" "RS256" in
  let token := Sample.tokens "RS256" "at_hash-bad" "op" [] in
  fst (validateIdToken_earlier E this 1499001 token VUndefined Sample.fresh)
  = Ok (Fulfilled token)
  /\ validateIdToken E this 1499001 token VUndefined VUndefined Sample.fresh
     = (Throw (TypeError "Data must be a string or a buffer"), Sample.fresh).
Proof. split; reflexivity. Qed.

(** An unsigned token: the earlier revision asks the issuer for a key and
    has the signature verified, the later one does neither. *)
Example earlier_revision_verifies_none :
  let E := Sample.collaborators in
  let this := Sample.client "client_secret_basic" "none" in
  let token := Sample.tokens "none" "plain" "" [] in
  validateIdToken_earlier E this 1499001 token VUndefined Sample.fresh
  = (Ok (Rejected (JoseError "no key found")),
     mkState None 0
       [EVerify (mkKey "op" ["RS256"]) "none.plain.";
        EIssuerKey (VObj [("alg", VStr "none")])])
  /\ validateIdToken E this 1499001 token VUndefined VUndefined Sample.fresh
     = (Ok (Fulfilled token), Sample.fresh).
Proof. split; reflexivity. Qed.

(** * Further properties *)

(** ** validateIdToken, joseSecret, createSign and the constructor *)

Lemma verify_signature_cases (E : Collaborators) (this : Client)
  (token : token_arg) (idToken : string) (h : value) (st st' : state)
  (r : result (settled token_arg)) :
  verify_signature E this token idToken h st = (r, st') ->
  (exists e, r = Throw e /\ st' = st)
  \/ (exists e, r = Ok (Rejected e) /\ uuid_count st' = uuid_count st)
  \/ (r = Ok (Fulfilled token)
      /\ uuid_count st' = uuid_count st
      /\ exists k rest,
           jws_verify E k idToken = Ok tt
           /\ trace st' = EVerify k idToken :: rest).
Proof.
  unfold verify_signature.
  destruct (get_prop h "alg") as [alg|e];
    [|intros H; injection H as <- <-; left; eauto].
  destruct (call_string_method alg "startsWith" _) as [hs|e];
    [|intros H; injection H as <- <-; left; eauto].
  assert (Hkey : forall (key : result (settled Key)) st1,
            uuid_count st1 = uuid_count st ->
            (forall e, key = Throw e -> st1 = st) ->
            match key with
            | Throw e => (Throw e, st1)
            | Ok (Rejected e) => (Ok (Rejected e), st1)
            | Ok (Fulfilled k) =>
                let st2 := log (EVerify k idToken) st1 in
                match jws_verify E k idToken with
                | Ok _ => (Ok (Fulfilled token), st2)
                | Throw e => (Ok (Rejected e), st2)
                end
            end = (r, st') ->
            (exists e, r = Throw e /\ st' = st)
            \/ (exists e, r = Ok (Rejected e) /\ uuid_count st' = uuid_count st)
            \/ (r = Ok (Fulfilled token)
                /\ uuid_count st' = uuid_count st
                /\ exists k rest,
                     jws_verify E k idToken = Ok tt
                     /\ trace st' = EVerify k idToken :: rest)).
  { intros [[k|e]|e] st1 Hcount Hsame.
    - cbv zeta. destruct (jws_verify E k idToken) as [[]|e] eqn:Hv;
        intros H; injection H as <- <-.
      + right; right. split; [reflexivity|]. split; [exact Hcount|].
        exists k, (trace st1). split; [exact Hv | reflexivity].
      + right; left. exists e. split; [reflexivity | exact Hcount].
    - intros H; injection H as <- <-. right; left. eauto.
    - intros H; injection H as <- <-. left. exists e.
      split; [reflexivity | now apply (Hsame e)]. }
  destruct hs.
  - destruct (joseSecret E this st) as [key st1] eqn:Hjs.
    apply Hkey.
    + exact (joseSecret_uuid_count _ _ _ _ _ Hjs).
    + intros e ->. unfold joseSecret in Hjs.
      destruct (jose_secret st); [discriminate|].
      destruct (secret_octets E this) as [octets|e0];
        [|injection Hjs as _ <-; reflexivity].
      destruct (asKey E _); discriminate.
  - apply Hkey.
    + reflexivity.
    + intros e He. destruct (issuer_key E h); discriminate.
Qed.

(** X1.  [validateIdToken] fulfils only with the token it was given, only
    after every check on the claims has passed, and only when either the
    header says ['none'], in which case the state is untouched, or the JOSE
    codec has verified the compact token with a key, which the trace
    records; no identifier is drawn on the way. *)
Theorem validateIdToken_fulfilled
  (E : Collaborators) (this : Client) (Date_now : Z) (token : token_arg)
  (nonce use : value) (st st' : state) (t : token_arg) :
  validateIdToken E this Date_now token nonce use st = (Ok (Fulfilled t), st') ->
  t = token
  /\ uuid_count st' = uuid_count st
  /\ exists idToken h p alg,
       decode_token E token = Ok (idToken, h, p)
       /\ check_claims E this (ceil_seconds Date_now) token nonce use h p
          = Ok tt
       /\ get_prop h "alg" = Ok alg
       /\ (alg = VStr "none" /\ st' = st
           \/ alg <> VStr "none"
              /\ exists k rest,
                   jws_verify E k idToken = Ok tt
                   /\ trace st' = EVerify k idToken :: rest).
Proof.
  unfold validateIdToken.
  destruct (decode_token E token) as [[[idToken h] p]|e] eqn:Hd;
    [|discriminate].
  destruct (check_claims E this _ token nonce use h p) as [[]|e] eqn:Hc;
    [|discriminate].
  destruct (get_prop h "alg") as [alg|e] eqn:Halg; [|discriminate].
  destruct (strict_eq alg (VStr "none")) eqn:Hnone.
  - intros H. injection H as <- <-.
    apply strict_eq_string_inv in Hnone.
    split; [reflexivity|]. split; [reflexivity|].
    exists idToken, h, p, alg. repeat split; try assumption. now left.
  - intros Hv. apply verify_signature_cases in Hv.
    destruct Hv as [(e & He & _)|[(e & He & _)|(Hr & Hcount & k & rest & Hk & Htr)]];
      try discriminate.
    injection Hr as ->.
    split; [reflexivity|]. split; [exact Hcount|].
    exists idToken, h, p, alg. repeat split; try assumption.
    right. split.
    + intros ->. simpl in Hnone. discriminate.
    + exists k, rest. split; assumption.
Qed.

Lemma validateIdToken_fulfilled_witness :
  let token := Sample.tokens "RS256" "plain" "op" [] in
  exists k rest,
    jws_verify Sample.collaborators k "RS256.plain.op" = Ok tt
    /\ trace (snd (validateIdToken Sample.collaborators
                     (Sample.client "client_secret_basic" "RS256") 1499001
                     token VUndefined VUndefined Sample.fresh))
       = EVerify k "RS256.plain.op" :: rest.
Proof.
  intros token.
  destruct (validateIdToken_fulfilled Sample.collaborators
              (Sample.client "client_secret_basic" "RS256") 1499001 token
              VUndefined VUndefined Sample.fresh
              (mkState None 0
                 [EVerify (mkKey "op" ["RS256"]) "RS256.plain.op";
                  EIssuerKey (VObj [("alg", VStr "RS256")])])
              token eq_refl)
    as (_ & _ & idToken & h & p & alg & Hd & _ & _ & [[_ Hst]|[_ Hk]]).
  - discriminate Hst.
  - injection Hd as <- _ _. exact Hk.
Defined.

Lemma grantAuth_thrown_state (E : Collaborators) (this : Client)
  (Date_now : Z) (st st' : state) (e : error) :
  grantAuth E this Date_now st = (Throw e, st') -> st' = st.
Proof.
  unfold grantAuth.
  destruct (strict_eq _ (VStr "none")); [intros H; now injection H|].
  destruct (strict_eq _ (VStr "client_secret_post")); [discriminate|].
  destruct (strict_eq _ (VStr "private_key_jwt") || strict_eq _ (VStr "client_secret_jwt"));
    [|discriminate].
  unfold createSign.
  destruct (strict_eq _ (VStr "client_secret_jwt")).
  - unfold joseSecret. destruct (jose_secret st).
    + simpl. destruct (jws_final E _ _); discriminate.
    + destruct (secret_octets E this) as [octets|e0];
        [|intros H; now injection H].
      destruct (asKey E _); simpl; [|discriminate].
      destruct (jws_final E _ _); discriminate.
  - destruct (strict_eq _ (VStr "private_key_jwt")).
    + destruct (keystore this); [|intros H; now injection H].
      destruct (keystore_get E _ _); [|intros H; now injection H].
      simpl. destruct (jws_final E _ _); discriminate.
    + intros H; now injection H.
Qed.

(** X2.  When [validateIdToken] or [grantAuth] throws, the state of the
    client is as it was: no key was imported or looked up, nothing was
    verified or signed and no identifier drawn. *)
Theorem synchronous_throw_leaves_state
  (E : Collaborators) (this : Client) (Date_now : Z) (token : token_arg)
  (nonce use : value) (st st' : state) (e : error) :
  validateIdToken E this Date_now token nonce use st = (Throw e, st')
  \/ grantAuth E this Date_now st = (Throw e, st') ->
  st' = st.
Proof.
  intros [Hv|Hg]; [|exact (grantAuth_thrown_state _ _ _ _ _ _ Hg)].
  revert Hv. unfold validateIdToken.
  destruct (decode_token E token) as [[[idToken h] p]|e0];
    [|intros H; now injection H].
  destruct (check_claims E this _ token nonce use h p) as [[]|e0];
    [|intros H; now injection H].
  destruct (get_prop h "alg") as [alg|e0]; [|intros H; now injection H].
  destruct (strict_eq alg (VStr "none")); [discriminate|].
  intros Hv. apply verify_signature_cases in Hv.
  destruct Hv as [(e1 & _ & Hst)|[(e1 & He & _)|(Hr & _)]];
    [exact Hst | discriminate | discriminate].
Qed.

Lemma synchronous_throw_leaves_state_witness :
  let this := Sample.client "private_key_jwt" "RS256" in
  let st := mkState None 7 [EAsKey "earlier"] in
  snd (validateIdToken Sample.collaborators this 1499001
         (Sample.tokens "RS256" "exp-now" "op" []) VUndefined VUndefined st)
  = st
  /\ snd (grantAuth Sample.collaborators
            (mkClient (issuer this) (instance this) None) 1499001 st)
     = st.
Proof.
  intros this st. split.
  - apply (synchronous_throw_leaves_state Sample.collaborators this 1499001
             (Sample.tokens "RS256" "exp-now" "op" []) VUndefined VUndefined
             st _ (AssertionError "id_token expired")).
    left. reflexivity.
  - apply (synchronous_throw_leaves_state Sample.collaborators
             (mkClient (issuer this) (instance this) None) 1499001
             (TValue VUndefined) VUndefined VUndefined
             st _ (TypeError "Cannot read property 'all' of undefined")).
    right. reflexivity.
Defined.

Lemma forEach_verifyPresence (p : value) (before after : list string)
  (name : string) :
  (forall k, In k before ->
             exists v, get_prop p k = Ok v /\ v <> VUndefined) ->
  get_prop p name = Ok VUndefined ->
  forEach (verifyPresence p) (before ++ name :: after)
  = Throw (Error ("missing required JWT property " ++ name)).
Proof.
  intros Hbefore Hname. induction before as [|k before IH]; simpl.
  - unfold verifyPresence. rewrite Hname. reflexivity.
  - destruct (Hbefore k (or_introl eq_refl)) as (v & Hk & Hv).
    unfold verifyPresence at 1. rewrite Hk. simpl.
    destruct v; try contradiction; simpl;
      apply IH; intros k' Hk'; apply Hbefore; now right.
Qed.

(** X3.  Of the claims [iss], [sub], [aud], [exp] and [iat], the first
    one the payload lacks is reported, as 'missing required JWT property'
    followed by its name, once the algorithm has been accepted; a payload
    that is no object (a number, a string, an array) lacks them all. *)
Theorem validateIdToken_missing_claim
  (E : Collaborators) (this : Client) (Date_now : Z) (token : token_arg)
  (nonce use : value) (st : state) (idToken : string) (h p : value)
  (before after : list string) (name : string) :
  decode_token E token = Ok (idToken, h, p) ->
  check_alg E (expected_alg E this use) h = Ok tt ->
  ["iss"; "sub"; "aud"; "exp"; "iat"] = (before ++ name :: after)%list ->
  (forall k, In k before ->
             exists v, get_prop p k = Ok v /\ v <> VUndefined) ->
  get_prop p name = Ok VUndefined ->
  validateIdToken E this Date_now token nonce use st
  = (Throw (Error ("missing required JWT property " ++ name)), st).
Proof.
  intros Hd Halg Hsplit Hbefore Hname.
  eapply validateIdToken_thrown; [exact Hd|].
  unfold check_claims. rewrite Halg. simpl.
  unfold check_presence. rewrite Hsplit.
  now rewrite (forEach_verifyPresence p before after name Hbefore Hname).
Qed.

Lemma validateIdToken_missing_claim_witness :
  validateIdToken Sample.collaborators
    (Sample.client "client_secret_basic" "none") 1499001
    (Sample.tokens "none" "none" "" []) VUndefined VUndefined Sample.fresh
  = (Throw (Error "missing required JWT property iss"), Sample.fresh).
Proof.
  apply (validateIdToken_missing_claim Sample.collaborators
           (Sample.client "client_secret_basic" "none") 1499001
           (Sample.tokens "none" "none" "" []) VUndefined VUndefined
           Sample.fresh "none.none." (VObj [("alg", VStr "none")])
           (VObj [("alg", VStr "none")]) [] ["sub"; "aud"; "exp"; "iat"] "iss");
    try reflexivity.
  intros k [].
Defined.

Lemma joseSecret_caches (E : Collaborators) (this : Client) (st st1 : state)
  (k : Key) :
  joseSecret E this st = (Ok (Fulfilled k), st1) -> jose_secret st1 = Some k.
Proof.
  unfold joseSecret. destruct (jose_secret st) as [k0|] eqn:Hcache.
  - intros H. injection H as <- <-. exact Hcache.
  - destruct (secret_octets E this) as [octets|e0]; [|discriminate].
    destruct (asKey E _); [|discriminate].
    intros H. injection H as <- <-. reflexivity.
Qed.

(** X4.  The key derived from the client secret is imported once, for
    calls that follow one another: after a call of [joseSecret] that
    fulfils with a key, the key is cached, and every later call fulfils
    with the same key without asking the codec and without touching the
    state.  A key that was not cached is the one the codec makes of the
    octets of [new Buffer(client_secret)], the characters of the secret
    when it is a string; a rejected import caches nothing, and a secret
    no buffer can be made of makes the call throw before the codec is
    asked. *)
Theorem joseSecret_memoized
  (E : Collaborators) (this : Client) (st st1 : state)
  (r : result (settled Key)) :
  joseSecret E this st = (r, st1) ->
  (forall k,
     r = Ok (Fulfilled k) ->
     jose_secret st1 = Some k
     /\ joseSecret E this st1 = (Ok (Fulfilled k), st1)
     /\ (jose_secret st = None ->
         exists octets,
           secret_octets E this = Ok octets
           /\ (forall secret,
                 prop E this "client_secret" = VStr secret -> octets = secret)
           /\ asKey E (base64url octets) = Ok k
           /\ trace st1 = EAsKey (base64url octets) :: trace st))
  /\ (forall e, r = Ok (Rejected e) -> jose_secret st1 = None)
  /\ (forall e, r = Throw e -> secret_octets E this = Throw e /\ st1 = st)
  /\ (forall k0, jose_secret st = Some k0 ->
                 r = Ok (Fulfilled k0) /\ st1 = st).
Proof.
  unfold joseSecret at 1.
  destruct (jose_secret st) as [k0|] eqn:Hcache.
  - intros H. injection H as <- <-. split; [|split; [|split]].
    + intros k Hk. injection Hk as <-.
      split; [exact Hcache|]. split; [|discriminate].
      unfold joseSecret. now rewrite Hcache.
    + discriminate.
    + discriminate.
    + intros k1 Hk1. injection Hk1 as <-. split; reflexivity.
  - destruct (secret_octets E this) as [octets|e0] eqn:Hsecret.
    + destruct (asKey E (base64url octets)) as [k|e] eqn:Hkey;
        intros H; injection H as <- <-; (split; [|split; [|split]]);
        try discriminate.
      * intros k' Hk'. injection Hk' as <-.
        split; [reflexivity|]. split; [reflexivity|].
        intros _. exists octets. split; [reflexivity|].
        split; [|split; [exact Hkey | reflexivity]].
        intros secret Hs. unfold secret_octets in Hsecret.
        rewrite Hs in Hsecret. now injection Hsecret.
      * intros e' _. simpl. exact Hcache.
    + intros H. injection H as <- <-. split; [|split; [|split]];
        try discriminate.
      intros e He. injection He as <-. split; reflexivity.
Qed.

Lemma joseSecret_memoized_witness :
  let this := Sample.client "client_secret_basic" "HS256" in
  let k := mkKey "oct:cw" ["HS256"; "HS384"; "HS512"] in
  let st1 := mkState (Some k) 0 [EAsKey "cw"] in
  joseSecret Sample.collaborators this Sample.fresh = (Ok (Fulfilled k), st1)
  /\ joseSecret Sample.collaborators this st1 = (Ok (Fulfilled k), st1).
Proof.
  intros this k st1. split; [reflexivity|].
  destruct (joseSecret_memoized Sample.collaborators this Sample.fresh st1
              (Ok (Fulfilled k)) eq_refl) as (Hmemo & _).
  destruct (Hmemo k eq_refl) as (_ & Hagain & _). exact Hagain.
Defined.

(** A secret given as the array of its octets imports the key of the
    string. *)
Example joseSecret_octets_of_array :
  joseSecret Sample.collaborators
    (mkClient (Sample.op []) [("client_secret", VArr [VNum 115])] None)
    Sample.fresh
  = joseSecret Sample.collaborators
      (mkClient (Sample.op []) [("client_secret", VStr "s")] None)
      Sample.fresh
  /\ fst (joseSecret Sample.collaborators
            (mkClient (Sample.op []) [("client_secret", VStr "s")] None)
            Sample.fresh)
     = Ok (Fulfilled (mkKey "oct:cw" ["HS256"; "HS384"; "HS512"]))
  /\ joseSecret Sample.collaborators
       (mkClient (Sample.op []) [("client_secret", VNull)] None) Sample.fresh
     = (Throw (TypeError "must start with number, buffer, array or string"),
        Sample.fresh).
Proof. repeat split; reflexivity. Qed.

(** X5.  Which key verifies a signed token is decided by the header
    alone: for an algorithm of the HS family it is the key derived from
    the client secret, the cached one, and the issuer is not asked; for
    any other algorithm it is the key the issuer resolves for the header,
    and the client secret is neither imported nor its cache changed. *)
Theorem validateIdToken_key_source
  (E : Collaborators) (this : Client) (Date_now : Z) (token : token_arg)
  (nonce use : value) (st st' : state) (idToken alg : string) (h p : value)
  (r : result (settled token_arg)) :
  decode_token E token = Ok (idToken, h, p) ->
  get_prop h "alg" = Ok (VStr alg) ->
  alg <> "none" ->
  check_claims E this (ceil_seconds Date_now) token nonce use h p = Ok tt ->
  validateIdToken E this Date_now token nonce use st = (r, st') ->
  (startsWith alg "HS" = true ->
   forall ev,
     In ev (trace st') ->
     In ev (trace st)
     \/ (exists k, ev = EAsKey k)
     \/ exists k, ev = EVerify k idToken /\ jose_secret st' = Some k)
  /\ (startsWith alg "HS" = false ->
      jose_secret st' = jose_secret st
      /\ forall ev,
           In ev (trace st') ->
           In ev (trace st)
           \/ ev = EIssuerKey h
           \/ exists k, ev = EVerify k idToken /\ issuer_key E h = Ok k).
Proof.
  intros Hd Halg Hnone Hc. unfold validateIdToken.
  rewrite Hd, Hc, Halg.
  assert (Hne : strict_eq (VStr alg) (VStr "none") = false)
    by (simpl; apply String.eqb_neq; exact Hnone).
  rewrite Hne. unfold verify_signature. rewrite Halg. simpl.
  destruct (startsWith alg "HS"); intros Hrun; (split; [|]); try discriminate.
  - intros _ ev. revert Hrun. unfold joseSecret.
    destruct (jose_secret st) as [k|] eqn:Hcache.
    + destruct (jws_verify E k idToken); intros H; injection H as <- <-;
        simpl; intros [<-|Hin]; auto; right; right; exists k; auto.
    + destruct (secret_octets E this) as [octets|e0];
        [|intros H; injection H as <- <-; auto].
      destruct (asKey E _) as [k|e].
      * destruct (jws_verify E k idToken); intros H; injection H as <- <-;
          simpl; intros [<-|[<-|Hin]]; eauto.
      * intros H; injection H as <- <-. simpl. intros [<-|Hin]; eauto.
  - intros _. revert Hrun.
    destruct (issuer_key E h) as [k|e] eqn:Hk.
    + destruct (jws_verify E k idToken); intros H; injection H as <- <-;
        (split; [reflexivity|]); simpl; intros ev [<-|[<-|Hin]]; eauto.
    + intros H; injection H as <- <-. split; [reflexivity|].
      simpl. intros ev [<-|Hin]; eauto.
Qed.

Lemma validateIdToken_key_source_witness :
  existsb (fun ev => match ev with EIssuerKey _ => true | _ => false end)
    (trace (snd (validateIdToken Sample.collaborators
                   (Sample.client "client_secret_basic" "HS256") 1499001
                   (Sample.tokens "HS256" "plain" "oct:cw" [])
                   VUndefined VUndefined Sample.fresh)))
  = false.
Proof.
  destruct (existsb _ _) eqn:Hasked; [|reflexivity].
  apply existsb_exists in Hasked. destruct Hasked as (ev & Hin & Hev).
  destruct (validateIdToken_key_source Sample.collaborators
              (Sample.client "client_secret_basic" "HS256") 1499001
              (Sample.tokens "HS256" "plain" "oct:cw" [])
              VUndefined VUndefined Sample.fresh _ "HS256.plain.oct:cw"
              "HS256" (VObj [("alg", VStr "HS256")]) (Sample.claims []) _
              eq_refl eq_refl ltac:(discriminate) eq_refl eq_refl)
    as (Hhs & _).
  destruct (Hhs eq_refl ev Hin) as [[]|[(k & ->)|(k & -> & _)]];
    discriminate Hev.
Defined.

Lemma find_first {A : Type} (f : A -> bool) (l : list A) :
  match List.find f l with
  | Some x =>
      exists before after,
        l = (before ++ x :: after)%list
        /\ f x = true
        /\ forall a, In a before -> f a = false
  | None => forall a, In a l -> f a = false
  end.
Proof.
  induction l as [|y l IH]; simpl.
  - intros a [].
  - destruct (f y) eqn:Hy.
    + exists [], l. repeat split; [exact Hy | intros a []].
    + destruct (List.find f l) as [x|].
      * destruct IH as (before & after & -> & Hx & Hb).
        exists (y :: before), after. repeat split; [exact Hx|].
        intros a [<-|Ha]; [exact Hy | now apply Hb].
      * intros a [<-|Ha]; [exact Hy | now apply IH].
Qed.

Lemma supports_spec (algorithms : list string) (signAlg : value) :
  supports algorithms signAlg = true
  <-> exists s, signAlg = VStr s /\ In s algorithms.
Proof.
  unfold supports. rewrite indexOf_found, existsb_exists. split.
  - intros (v & Hin & Heq). apply in_map_iff in Hin.
    destruct Hin as (s & <- & Hs).
    destruct signAlg; simpl in Heq; try discriminate.
    apply String.eqb_eq in Heq. subst. eauto.
  - intros (s & -> & Hs). exists (VStr s). split.
    + now apply in_map.
    + simpl. apply String.eqb_refl.
Qed.

Lemma in_uniq (x : string) (l : list string) : In x (uniq l) <-> In x l.
Proof.
  induction l as [|y l IH]; simpl; [tauto|].
  rewrite filter_In, IH. split.
  - intros [->|[Hx _]]; auto.
  - intros [->|Hx]; [now left|].
    destruct (String.eqb_spec x y) as [->|Hne]; [now left|].
    right. split; [exact Hx | reflexivity].
Qed.

(** X6.  The algorithm of a client assertion.  A configured
    [token_endpoint_auth_signing_alg] is used as it is, whether or not
    the issuer or the key supports it.  Without one, the signer gets the
    first algorithm in the issuer's list that the key (for
    [client_secret_jwt]) or some key of the keystore (for
    [private_key_jwt]) can sign with, and [undefined] when the list holds
    none.  With [private_key_jwt] the key is the one the keystore returns
    for that algorithm and the signer refers to it; with
    [client_secret_jwt] it is the key derived from the secret, by value. *)
Theorem createSign_algorithm
  (E : Collaborators) (this : Client) (st st1 : state) (sign : Signer) :
  createSign E this st = (Ok (Fulfilled sign), st1) ->
  let configured := prop E this "token_endpoint_auth_signing_alg" in
  let secret :=
    strict_eq (prop E this "token_endpoint_auth_method")
      (VStr "client_secret_jwt") in
  let usable :=
    if secret then key_sign_algorithms (signer_key sign)
    else match keystore this with
         | Some keys => flat_map key_sign_algorithms keys
         | None => []
         end in
  (truthy configured = true -> signer_alg sign = configured)
  /\ (truthy configured = false ->
      forall listed,
        issuer_prop (issuer this)
          "token_endpoint_auth_signing_alg_values_supported" = VArr listed ->
        (signer_alg sign = VUndefined
         /\ forall s, In (VStr s) listed -> ~ In s usable)
        \/ exists s before after,
             signer_alg sign = VStr s
             /\ listed = (before ++ VStr s :: after)%list
             /\ In s usable
             /\ forall s', In (VStr s') before -> ~ In s' usable)
  /\ (if secret
      then signer_reference sign = false
           /\ jose_secret st1 = Some (signer_key sign)
      else signer_reference sign = true
           /\ st1 = st
           /\ exists keys,
                keystore this = Some keys
                /\ keystore_get E keys (signer_alg sign)
                   = Some (signer_key sign)).
Proof.
  intros Hrun configured secret usable.
  assert (Hfound : forall algs listed,
            let alg := find (VArr listed) (supports algs) in
            (alg = VUndefined /\ forall s, In (VStr s) listed -> ~ In s algs)
            \/ exists s before after,
                 alg = VStr s
                 /\ listed = (before ++ VStr s :: after)%list
                 /\ In s algs
                 /\ forall s', In (VStr s') before -> ~ In s' algs).
  { intros algs listed. simpl.
    pose proof (find_first (supports algs) listed) as Hf.
    destruct (List.find (supports algs) listed) as [x|].
    - destruct Hf as (before & after & -> & Hx & Hb).
      apply supports_spec in Hx. destruct Hx as (s & -> & Hs).
      right. exists s, before, after. repeat split; try assumption.
      intros s' Hin Hs'. specialize (Hb _ Hin).
      assert (supports algs (VStr s') = true)
        by (apply supports_spec; eauto).
      congruence.
    - left. split; [reflexivity|]. intros s Hin Hs.
      specialize (Hf _ Hin).
      assert (supports algs (VStr s) = true)
        by (apply supports_spec; eauto).
      congruence. }
  revert Hrun. unfold createSign. fold configured. fold secret.
  destruct secret eqn:Hsecret.
  - destruct (joseSecret E this st) as [[[key|e]|e] st0] eqn:Hjs;
      try discriminate.
    intros H. injection H as <- <-. cbn [signer_alg signer_key signer_reference].
    split; [|split].
    + intros Ht. now rewrite Ht.
    + intros Ht listed Hl. rewrite Ht, Hl. simpl negb. cbv iota.
      subst usable. cbn [signer_key]. apply Hfound.
    + split; [reflexivity|].
      exact (joseSecret_caches E this st st0 key Hjs).
  - destruct (strict_eq _ (VStr "private_key_jwt")); [|discriminate].
    destruct (keystore this) as [keys|] eqn:Hks; [|discriminate].
    destruct (keystore_get E keys _) as [key|] eqn:Hget; [|discriminate].
    intros H. injection H as <- <-. cbn [signer_alg signer_key signer_reference].
    split; [|split].
    + intros Ht. now rewrite Ht.
    + intros Ht listed Hl. rewrite Ht, Hl. simpl negb. cbv iota.
      subst usable.
      destruct (Hfound (uniq (flat_map key_sign_algorithms keys)) listed)
        as [[Hu Hnone]|(s & before & after & Hs & Hl' & Hin & Hb)].
      * left. split; [exact Hu|]. intros s Hs Hin.
        apply (Hnone s Hs). now apply in_uniq.
      * right. exists s, before, after. repeat split; try assumption.
        -- now apply in_uniq.
        -- intros s' Hs' Hin'. apply (Hb s' Hs'). now apply in_uniq.
    + split; [reflexivity|]. split; [reflexivity|].
      exists keys. split; [reflexivity | exact Hget].
Qed.

Lemma createSign_algorithm_witness :
  exists sign st1,
    createSign Sample.collaborators (Sample.client "client_secret_jwt" "RS256")
      Sample.fresh = (Ok (Fulfilled sign), st1)
    /\ signer_alg sign = VStr "HS256"
    /\ signer_reference sign = false.
Proof.
  pose (key := mkKey "oct:cw" ["HS256"; "HS384"; "HS512"]).
  pose (sign := mkSigner (VStr "HS256") key false).
  pose (st1 := mkState (Some key) 0 [EAsKey "cw"]).
  exists sign, st1.
  destruct (createSign_algorithm Sample.collaborators
              (Sample.client "client_secret_jwt" "RS256") Sample.fresh st1
              sign eq_refl) as (_ & Hlisted & Href & _).
  split; [reflexivity|].
  destruct (Hlisted eq_refl [VStr "RS256"; VStr "HS256"] eq_refl)
    as [[Hu _]|(s & _ & _ & Hs & _)].
  - discriminate Hu.
  - split; [reflexivity | exact Href].
Defined.

Lemma lookup_pick_any (k : string) (metadata : value) (keys : list string) :
  lookup k (pick metadata keys)
  = if existsb (String.eqb k) keys
    then lookup k match metadata with VObj props => props | _ => [] end
    else VUndefined.
Proof.
  destruct metadata; try (simpl; now destruct (existsb _ keys)).
  apply lookup_pick.
Qed.

Lemma constructor_Ok (E : Collaborators) (iss : Issuer) (metadata : value)
  (ks : keystore_arg) (c : Client) :
  BaseClient_constructor E iss metadata ks = Ok c ->
  c = mkClient iss
        (defaults (pick metadata (CLIENT_METADATA E)) (CLIENT_DEFAULTS E))
        match ks with KsKeyStore keys => Some keys | KsValue _ => None end
  /\ (ks = KsValue VUndefined \/ exists keys, ks = KsKeyStore keys)
  /\ exists m,
       prop E c "token_endpoint_auth_method" = VStr m
       /\ (endsWith m "_jwt" = true ->
           truthy (issuer_prop iss
                     "token_endpoint_auth_signing_alg_values_supported")
           = true).
Proof.
  unfold BaseClient_constructor.
  assert (Hgo : forall store,
            (jwt <- call_string_method
                      (prop E (mkClient iss
                                 (defaults (pick metadata (CLIENT_METADATA E))
                                    (CLIENT_DEFAULTS E)) store)
                         "token_endpoint_auth_method")
                      "endsWith" (fun s => endsWith s "_jwt") ;;
             if jwt then
               assert_ok
                 (truthy (issuer_prop iss
                            "token_endpoint_auth_signing_alg_values_supported"))
                 "token_endpoint_auth_signing_alg_values_supported must be provided on the issuer" ;;;
               Ok (mkClient iss
                     (defaults (pick metadata (CLIENT_METADATA E))
                        (CLIENT_DEFAULTS E)) store)
             else Ok (mkClient iss
                        (defaults (pick metadata (CLIENT_METADATA E))
                           (CLIENT_DEFAULTS E)) store))%js = Ok c ->
            c = mkClient iss
                  (defaults (pick metadata (CLIENT_METADATA E))
                     (CLIENT_DEFAULTS E)) store
            /\ exists m,
                 prop E c "token_endpoint_auth_method" = VStr m
                 /\ (endsWith m "_jwt" = true ->
                     truthy (issuer_prop iss
                               "token_endpoint_auth_signing_alg_values_supported")
                     = true)).
  { intros store.
    destruct (prop E (mkClient iss _ store) "token_endpoint_auth_method")
      as [| |b|n|m|l|o] eqn:Hm; simpl; try discriminate.
    destruct (endsWith m "_jwt") eqn:Hjwt.
    - destruct (truthy (issuer_prop iss _)) eqn:Hadv; simpl; [|discriminate].
      intros H. injection H as <-. split; [reflexivity|].
      exists m. split; [exact Hm | intros _; assumption || reflexivity].
    - intros H. injection H as <-. split; [reflexivity|].
      exists m. split; [exact Hm | intros Hf; congruence]. }
  destruct ks as [keys|[| | | | | |]]; simpl; try discriminate; intros H;
    destruct (Hgo _ H) as (-> & Hm);
    (split; [reflexivity|]); (split; [|exact Hm]); eauto.
Qed.

(** A property of a constructed client: picked from the metadata, or
    the default. *)
Lemma constructor_prop
  (E : Collaborators) (iss : Issuer) (metadata : value) (ks : keystore_arg)
  (c : Client) :
  BaseClient_constructor E iss metadata ks = Ok c ->
  forall k,
    prop E c k
    = if existsb (String.eqb k) (CLIENT_METADATA E)
      then if is_undefined
                (lookup k match metadata with VObj props => props | _ => [] end)
           then lookup k (CLIENT_DEFAULTS E)
           else lookup k match metadata with VObj props => props | _ => [] end
      else VUndefined.
Proof.
  intros Hc. apply constructor_Ok in Hc.
  destruct Hc as (Hc & _).
  intros k. rewrite Hc. unfold prop. cbn [instance].
  destruct (existsb (String.eqb k) (CLIENT_METADATA E)) eqn:Hk; [|reflexivity].
  rewrite lookup_defaults, lookup_pick_any, Hk. reflexivity.
Qed.

(** X7.  What a constructed client holds.  Its issuer and keystore are the
    ones given; a recognized property reads the value of the metadata, or
    the default where the metadata leaves it undefined; anything else the
    metadata carried is dropped; and [token_endpoint_auth_method] is a
    string, for construction throws otherwise. *)
Theorem constructor_reads_metadata
  (E : Collaborators) (iss : Issuer) (metadata : value) (ks : keystore_arg)
  (c : Client) :
  BaseClient_constructor E iss metadata ks = Ok c ->
  let given := match metadata with VObj props => props | _ => [] end in
  issuer c = iss
  /\ keystore c
     = match ks with KsKeyStore keys => Some keys | KsValue _ => None end
  /\ (forall k,
        prop E c k
        = if existsb (String.eqb k) (CLIENT_METADATA E)
          then if is_undefined (lookup k given)
               then lookup k (CLIENT_DEFAULTS E)
               else lookup k given
          else VUndefined)
  /\ exists m, prop E c "token_endpoint_auth_method" = VStr m.
Proof.
  intros Hc given. pose proof (constructor_prop E iss metadata ks c Hc) as Hread.
  apply constructor_Ok in Hc.
  destruct Hc as (Hc & _ & m & Hm & _).
  split; [now subst c|]. split; [now subst c|]. split; [|now exists m].
  exact Hread.
Qed.

Lemma constructor_reads_metadata_witness :
  exists c,
    BaseClient_constructor Sample.collaborators (Sample.op [])
      (VObj [ ("client_id", VStr "c"); ("anything", VStr "else");
              ("id_token_signed_response_alg", VStr "ES256") ])
      (KsValue VUndefined) = Ok c
    /\ prop Sample.collaborators c "id_token_signed_response_alg" = VStr "ES256"
    /\ prop Sample.collaborators c "token_endpoint_auth_method"
       = VStr "client_secret_basic"
    /\ prop Sample.collaborators c "anything" = VUndefined.
Proof.
  eexists. split; [reflexivity|].
  match goal with
  | |- prop _ ?c _ = _ /\ _ =>
      destruct (constructor_reads_metadata Sample.collaborators (Sample.op [])
                  (VObj [ ("client_id", VStr "c"); ("anything", VStr "else");
                          ("id_token_signed_response_alg", VStr "ES256") ])
                  (KsValue VUndefined) c eq_refl) as (_ & _ & Hread & _)
  end.
  repeat split; rewrite Hread; reflexivity.
Defined.

Lemma lookup_metadata (E : Collaborators) (this : Client) (k : string) :
  lookup k (metadata E this)
  = if existsb (String.eqb k) (CLIENT_METADATA E) then prop E this k
    else VUndefined.
Proof.
  unfold metadata.
  induction (CLIENT_METADATA E) as [|k0 keys IH]; simpl; [reflexivity|].
  destruct (String.eqb_spec k k0) as [<-|Hk]; simpl.
  - destruct (prop E this k) eqn:Hp; simpl;
      try (rewrite String.eqb_refl; reflexivity).
    rewrite IH. now destruct (existsb _ keys).
  - destruct (is_undefined (prop E this k0)); simpl; [exact IH|].
    rewrite (proj2 (String.eqb_neq k k0) Hk). exact IH.
Qed.

Lemma constructor_run (E : Collaborators) (iss : Issuer) (metadata : value)
  (ks : keystore_arg) (m : string) :
  ks = KsValue VUndefined \/ (exists keys, ks = KsKeyStore keys) ->
  let this :=
    mkClient iss
      (defaults (pick metadata (CLIENT_METADATA E)) (CLIENT_DEFAULTS E))
      match ks with KsKeyStore keys => Some keys | KsValue _ => None end in
  prop E this "token_endpoint_auth_method" = VStr m ->
  BaseClient_constructor E iss metadata ks
  = if endsWith m "_jwt"
    then if truthy (issuer_prop iss
                      "token_endpoint_auth_signing_alg_values_supported")
         then Ok this
         else Throw (AssertionError
                       "token_endpoint_auth_signing_alg_values_supported must be provided on the issuer")
    else Ok this.
Proof.
  intros Hks this Hm. unfold BaseClient_constructor.
  destruct Hks as [->|[keys ->]]; simpl; fold this; rewrite Hm; simpl;
    destruct (endsWith m "_jwt"); try reflexivity;
    destruct (truthy (issuer_prop iss _)); reflexivity.
Qed.

(** X8.  The metadata of a constructed client describes it fully: a
    client constructed from [client.metadata], with the same issuer and
    keystore, is constructed without error and reads the same value for
    every property. *)
Theorem metadata_round_trip
  (E : Collaborators) (iss : Issuer) (given : value) (ks : keystore_arg)
  (c : Client) :
  BaseClient_constructor E iss given ks = Ok c ->
  exists c',
    BaseClient_constructor E iss (VObj (metadata E c)) ks = Ok c'
    /\ forall k, prop E c' k = prop E c k.
Proof.
  intros Hc.
  pose proof (constructor_prop E iss given ks c Hc) as Hread.
  apply constructor_Ok in Hc. destruct Hc as (Hc & Hks & m & Hm & Hjwt).
  pose (c' := mkClient iss
                (defaults (pick (VObj (metadata E c)) (CLIENT_METADATA E))
                   (CLIENT_DEFAULTS E))
                match ks with KsKeyStore keys => Some keys | KsValue _ => None end).
  assert (Hsame : forall k, prop E c' k = prop E c k).
  { intros k. unfold c', prop at 1. cbn [instance].
    destruct (existsb (String.eqb k) (CLIENT_METADATA E)) eqn:Hk.
    - rewrite lookup_defaults, lookup_pick, Hk, lookup_metadata, Hk.
      destruct (is_undefined (prop E c k)) eqn:Hu; [|reflexivity].
      destruct (prop E c k) eqn:Hp; try discriminate.
      rewrite Hread, Hk in Hp.
      destruct (is_undefined (lookup k _)) eqn:Hg; [exact Hp|].
      rewrite Hp in Hg. discriminate.
    - unfold prop. now rewrite Hk. }
  exists c'. split; [|exact Hsame].
  rewrite (constructor_run E iss (VObj (metadata E c)) ks m Hks)
    by (fold c'; now rewrite Hsame).
  fold c'. destruct (endsWith m "_jwt"); [|reflexivity].
  now rewrite (Hjwt eq_refl).
Qed.

Lemma metadata_round_trip_witness :
  exists c c',
    BaseClient_constructor Sample.collaborators (Sample.op [])
      (VObj [("client_id", VStr "c"); ("anything", VStr "else")])
      (KsValue VUndefined) = Ok c
    /\ metadata Sample.collaborators c
       = [ ("client_id", VStr "c");
           ("token_endpoint_auth_method", VStr "client_secret_basic");
           ("id_token_signed_response_alg", VStr "RS256") ]
    /\ BaseClient_constructor Sample.collaborators (Sample.op [])
         (VObj (metadata Sample.collaborators c)) (KsValue VUndefined) = Ok c'
    /\ forall k, prop Sample.collaborators c' k = prop Sample.collaborators c k.
Proof.
  eexists.
  match goal with
  | |- exists c', ?ctor = Ok ?c /\ _ =>
      destruct (metadata_round_trip Sample.collaborators (Sample.op [])
                  (VObj [("client_id", VStr "c"); ("anything", VStr "else")])
                  (KsValue VUndefined) c eq_refl) as (c' & Hc' & Hsame)
  end.
  exists c'. split; [reflexivity|]. split; [reflexivity|].
  split; [exact Hc' | exact Hsame].
Defined.

(** ** The requests *)

Lemma lookup_set_prop_same (k : string) (v : value)
  (props : list (string * value)) :
  lookup k (set_prop k v props) = v.
Proof.
  induction props as [|[k' v'] props IH]; simpl.
  - now rewrite String.eqb_refl.
  - destruct (String.eqb_spec k k') as [<-|Hk]; simpl.
    + now rewrite String.eqb_refl.
    + rewrite (proj2 (String.eqb_neq k k') Hk). exact IH.
Qed.

Lemma lookup_set_prop_other (k k' : string) (v : value)
  (props : list (string * value)) :
  k' <> k -> lookup k' (set_prop k v props) = lookup k' props.
Proof.
  intros Hk. induction props as [|[k0 v0] props IH]; simpl.
  - now rewrite (proj2 (String.eqb_neq k' k) Hk).
  - destruct (String.eqb_spec k k0) as [<-|Hk0]; simpl.
    + now rewrite (proj2 (String.eqb_neq k' k) Hk).
    + destruct (String.eqb k' k0); [reflexivity | exact IH].
Qed.

Section RequestProperties.

Context (E : Collaborators) (T : Transport).

Lemma check_jwe_header_Ok (this : Client) (token : token_arg) (use : value)
  (jwe : string) :
  check_jwe_header E this token use = Ok jwe ->
  let userinfo := strict_eq use (VStr "userinfo") in
  exists h alg enc,
    token_string token = Ok (VStr jwe)
    /\ decode_json E (nth 0 (split "."%char jwe) "") = Ok h
    /\ get_prop h "alg" = Ok alg
    /\ get_prop h "enc" = Ok enc
    /\ loose_eq (StringToNumber E) alg
         (if userinfo then prop E this "userinfo_encrypted_response_alg"
          else prop E this "id_token_encrypted_response_alg") = true
    /\ loose_eq (StringToNumber E) enc
         (if userinfo then prop E this "userinfo_encrypted_response_enc"
          else prop E this "id_token_encrypted_response_enc") = true.
Proof.
  unfold check_jwe_header. intros H.
  apply bind_Ok in H. destruct H as (idToken & Hts & H).
  apply bind_Ok in H. destruct H as (header & Hsplit & H).
  apply bind_Ok in H. destruct H as (h & Hh & H).
  apply bind_Ok in H. destruct H as (alg & Halg & H).
  apply bind_Ok in H. destruct H as ([] & Hcalg & H).
  apply bind_Ok in H. destruct H as (enc & Henc & H).
  apply bind_Ok in H. destruct H as ([] & Hcenc & H).
  destruct idToken; try discriminate. simpl in Hsplit, H.
  injection Hsplit as <-. injection H as <-.
  exists h, alg, enc. repeat split; try assumption.
  - unfold assert_eq, assert_equal in Hcalg. now apply assert_ok_Ok in Hcalg.
  - unfold assert_eq, assert_equal in Hcenc. now apply assert_ok_Ok in Hcenc.
Qed.

Lemma decryptIdToken_cases (this : Client) (use : value)
  (token : token_arg) (w w' : world) (o : outcome token_arg) :
  decryptIdToken E T this use token w = (o, w') ->
  let userinfo := strict_eq use (VStr "userinfo") in
  (w' = w /\ (o = Returns token \/ exists e, o = Throws (Js e)))
  \/ exists jwe h alg enc,
       w' = record (Decrypt (keystore this) jwe) w
       /\ token_string token = Ok (VStr jwe)
       /\ decode_json E (nth 0 (split "."%char jwe) "") = Ok h
       /\ get_prop h "alg" = Ok alg
       /\ get_prop h "enc" = Ok enc
       /\ loose_eq (StringToNumber E) alg
            (if userinfo then prop E this "userinfo_encrypted_response_alg"
             else prop E this "id_token_encrypted_response_alg") = true
       /\ loose_eq (StringToNumber E) enc
            (if userinfo then prop E this "userinfo_encrypted_response_enc"
             else prop E this "id_token_encrypted_response_enc") = true
       /\ ((exists e, jwe_decrypt T (keystore this) jwe = Throw e
                      /\ o = Rejects (Js e))
           \/ exists payload t,
                jwe_decrypt T (keystore this) jwe = Ok payload
                /\ o = Resolves t).
Proof.
  unfold decryptIdToken.
  destruct (_ || _).
  - intros H. injection H as <- <-. left. split; [reflexivity | now left].
  - destruct (check_jwe_header E this token use) as [jwe|e] eqn:Hh.
    + destruct (check_jwe_header_Ok this token use jwe Hh)
        as (h & alg & enc & Hts & Hd & Ha & He & Hla & Hle).
      intros Hrun. right. exists jwe, h, alg, enc.
      destruct (jwe_decrypt T (keystore this) jwe) as [payload|e] eqn:Hdec.
      * destruct token; injection Hrun as <- <-;
          repeat split; try assumption; right; eauto.
      * injection Hrun as <- <-. repeat split; try assumption. left. eauto.
    + intros H. injection H as <- <-. left. split; [reflexivity|]. eauto.
Qed.


(** X9.  What [decryptIdToken] does is decided before the JWE codec is
    asked.  Where no encryption algorithm is configured for a use that is
    ['userinfo'] or ['id_token'] the token comes straight back, no
    promise and nothing touched.  Otherwise a token set without ID Token
    makes the call throw, and so does a header whose [alg], or else
    whose [enc], is not [==] to the one the client expects for the use,
    with 'unexpected alg used' and 'unexpected enc used'; nothing is
    decrypted then.  A header that matches sends the compact token to the
    codec, once: the promise rejects with the codec's error or resolves.
    Conversely the codec is asked only for a string token with such a
    header. *)
Theorem decryptIdToken_header_gate (this : Client) (use : value)
  (token : token_arg) (w : world) :
  let userinfo := strict_eq use (VStr "userinfo") in
  let plain :=
    (userinfo && negb (truthy (prop E this "userinfo_encrypted_response_alg")))
    || (strict_eq use (VStr "id_token")
        && negb (truthy (prop E this "id_token_encrypted_response_alg"))) in
  let expectedAlg :=
    if userinfo then prop E this "userinfo_encrypted_response_alg"
    else prop E this "id_token_encrypted_response_alg" in
  let expectedEnc :=
    if userinfo then prop E this "userinfo_encrypted_response_enc"
    else prop E this "id_token_encrypted_response_enc" in
  let run := decryptIdToken E T this use token w in
  (plain = true -> run = (Returns token, w))
  /\ (plain = false ->
      forall e, token_string token = Throw e -> run = (Throws (Js e), w))
  /\ (plain = false ->
      forall jwe h alg,
        token_string token = Ok (VStr jwe) ->
        decode_json E (nth 0 (split "."%char jwe) "") = Ok h ->
        get_prop h "alg" = Ok alg ->
        (loose_eq (StringToNumber E) alg expectedAlg = false ->
         run = (Throws (Js (AssertionError "unexpected alg used")), w))
        /\ forall enc,
             get_prop h "enc" = Ok enc ->
             loose_eq (StringToNumber E) alg expectedAlg = true ->
             (loose_eq (StringToNumber E) enc expectedEnc = false ->
              run = (Throws (Js (AssertionError "unexpected enc used")), w))
             /\ (loose_eq (StringToNumber E) enc expectedEnc = true ->
                 let w1 := record (Decrypt (keystore this) jwe) w in
                 (forall e,
                    jwe_decrypt T (keystore this) jwe = Throw e ->
                    run = (Rejects (Js e), w1))
                 /\ (forall payload,
                       jwe_decrypt T (keystore this) jwe = Ok payload ->
                       exists t, run = (Resolves t, w1))))
  /\ (forall o w',
        run = (o, w') ->
        (w' = w /\ (o = Returns token \/ exists e, o = Throws (Js e)))
        \/ exists jwe h alg enc,
             w' = record (Decrypt (keystore this) jwe) w
             /\ token_string token = Ok (VStr jwe)
             /\ decode_json E (nth 0 (split "."%char jwe) "") = Ok h
             /\ get_prop h "alg" = Ok alg
             /\ get_prop h "enc" = Ok enc
             /\ loose_eq (StringToNumber E) alg expectedAlg = true
             /\ loose_eq (StringToNumber E) enc expectedEnc = true
             /\ ((exists e, jwe_decrypt T (keystore this) jwe = Throw e
                            /\ o = Rejects (Js e))
                 \/ exists payload t,
                      jwe_decrypt T (keystore this) jwe = Ok payload
                      /\ o = Resolves t)).
Proof.
  intros userinfo plain expectedAlg expectedEnc run.
  split; [|split; [|split]].
  - intros Hplain. unfold run, decryptIdToken. fold userinfo. fold plain.
    now rewrite Hplain.
  - intros Hplain e Hts. unfold run, decryptIdToken. fold userinfo.
    fold plain. rewrite Hplain. unfold check_jwe_header. now rewrite Hts.
  - intros Hplain jwe h alg Hts Hh Halg.
    assert (Hrun : run
                   = match (assert_eq E alg expectedAlg "unexpected alg used" ;;;
                            enc <- get_prop h "enc" ;;
                            assert_eq E enc expectedEnc "unexpected enc used" ;;;
                            Ok jwe)%js with
                     | Throw e => (Throws (Js e), w)
                     | Ok idToken =>
                         let w1 := record (Decrypt (keystore this) idToken) w in
                         match jwe_decrypt T (keystore this) idToken with
                         | Throw e => (Rejects (Js e), w1)
                         | Ok payload =>
                             match token with
                             | TSet ts =>
                                 (Resolves
                                    (TSet (mkTokenSet
                                             (set_prop "id_token" (VStr payload)
                                                (ts_fields ts)))), w1)
                             | TValue _ => (Resolves (TValue (VStr payload)), w1)
                             end
                         end
                     end).
    { unfold run, decryptIdToken. fold userinfo. fold plain. rewrite Hplain.
      unfold check_jwe_header. fold userinfo. fold expectedAlg.
      fold expectedEnc. rewrite Hts. cbn [bind call_string_method].
      rewrite Hh. cbn [bind]. rewrite Halg. cbn [bind ToString].
      reflexivity. }
    unfold assert_eq, assert_equal in Hrun. split.
    + intros Hne. rewrite Hrun, Hne. reflexivity.
    + intros enc Henc Halgeq. rewrite Halgeq, Henc in Hrun.
      cbn [assert_ok bind] in Hrun. split.
      * intros Hne. rewrite Hrun, Hne. reflexivity.
      * intros Heq. rewrite Heq in Hrun. cbn [assert_ok bind] in Hrun.
        cbv zeta. split.
        -- intros e He. now rewrite Hrun, He.
        -- intros payload Hp. rewrite Hrun, Hp. destruct token; eauto.
  - intros o w' Hrun.
    exact (decryptIdToken_cases this use token w w' o Hrun).
Qed.

(** X10.  When the token set's ID Token is decrypted, the token set that
    comes back holds the decrypted payload as its [id_token] and every
    other field as before; a bare token comes back as the payload. *)
Theorem decryptIdToken_replaces_id_token (this : Client) (use : value)
  (token t : token_arg) (w w' : world) :
  decryptIdToken E T this use token w = (Resolves t, w') ->
  exists jwe payload,
    token_string token = Ok (VStr jwe)
    /\ jwe_decrypt T (keystore this) jwe = Ok payload
    /\ match token with
       | TSet ts =>
           exists ts',
             t = TSet ts'
             /\ lookup "id_token" (ts_fields ts') = VStr payload
             /\ forall k, k <> "id_token" ->
                          lookup k (ts_fields ts') = lookup k (ts_fields ts)
       | TValue _ => t = TValue (VStr payload)
       end.
Proof.
  unfold decryptIdToken.
  destruct (_ || _); [discriminate|].
  destruct (check_jwe_header E this token use) as [jwe|e] eqn:Hh;
    [|discriminate].
  destruct (check_jwe_header_Ok this token use jwe Hh)
    as (_ & _ & _ & Hts & _).
  destruct (jwe_decrypt T (keystore this) jwe) as [payload|e] eqn:Hdec;
    [|discriminate].
  intros Hrun. exists jwe, payload. split; [exact Hts|]. split; [exact Hdec|].
  destruct token as [ts|v]; injection Hrun as <- <-; [|reflexivity].
  eexists. split; [reflexivity|]. cbn [ts_fields]. split.
  - apply lookup_set_prop_same.
  - intros k Hk. now apply lookup_set_prop_other.
Qed.

End RequestProperties.

Lemma decryptIdToken_header_gate_witness :
  let this :=
    Provider.client []
      [ ("id_token_encrypted_response_alg", VStr "RSA1_5");
        ("id_token_encrypted_response_enc", VStr "A256GCM") ] in
  let token := TSet (mkTokenSet [("id_token", VStr "jwe.k.iv.ct.tag")]) in
  decryptIdToken Provider.collaborators Provider.transport this
    (VStr "id_token") token Provider.start
  = (Throws (Js (AssertionError "unexpected enc used")), Provider.start)
  /\ decryptIdToken Provider.collaborators Provider.transport
       (Provider.client [] []) (VStr "id_token") token Provider.start
     = (Returns token, Provider.start).
Proof.
  intros this token. split.
  - destruct (decryptIdToken_header_gate Provider.collaborators
                Provider.transport this (VStr "id_token") token
                Provider.start) as (_ & _ & Hheader & _).
    destruct (Hheader eq_refl "jwe.k.iv.ct.tag"
                (VObj [("alg", VStr "RSA1_5"); ("enc", VStr "A128CBC-HS256")])
                (VStr "RSA1_5") eq_refl eq_refl eq_refl) as (_ & Henc).
    destruct (Henc (VStr "A128CBC-HS256") eq_refl eq_refl) as (Hother & _).
    exact (Hother eq_refl).
  - destruct (decryptIdToken_header_gate Provider.collaborators
                Provider.transport (Provider.client [] []) (VStr "id_token")
                token Provider.start) as (Hplain & _).
    exact (Hplain eq_refl).
Defined.

Lemma decryptIdToken_replaces_id_token_witness :
  let this :=
    Provider.client []
      [ ("id_token_encrypted_response_alg", VStr "RSA1_5");
        ("id_token_encrypted_response_enc", VStr "A128CBC-HS256") ] in
  let token :=
    TSet (mkTokenSet [ ("access_token", VStr "at");
                       ("id_token", VStr "jwe.k.iv.ct.tag") ]) in
  exists ts',
    fst (decryptIdToken Provider.collaborators Provider.transport this
           (VStr "id_token") token Provider.start) = Resolves (TSet ts')
    /\ lookup "id_token" (ts_fields ts') = VStr "none.plain."
    /\ lookup "access_token" (ts_fields ts') = VStr "at".
Proof.
  intros this token.
  destruct (decryptIdToken_replaces_id_token Provider.collaborators
              Provider.transport this (VStr "id_token") token _
              Provider.start _ eq_refl)
    as (jwe & payload & Hts & Hdec & ts' & Ht & Hid & Hother).
  injection Hts as <-. injection Hdec as <-. injection Ht as <-.
  eexists. split; [reflexivity|]. split; [reflexivity|]. reflexivity.
Defined.

Section PostProperties.

Context (E : Collaborators) (T : Transport).

Lemma with_state_same (w : world) : with_state w (client_state w) = w.
Proof. now destruct w. Qed.

Lemma grantAuth_in_effects (this : Client) (w w' : world) (o : outcome value) :
  grantAuth_in E T this w = (o, w') -> effects w' = effects w.
Proof.
  unfold grantAuth_in.
  destruct (_ || _); simpl;
    destruct (grantAuth E this _ _) as [[[auth|[auth|e]]|e] st];
    intros H; injection H as <- <-; reflexivity.
Qed.

Lemma validate_effects (this : Client) (nonce use : value) (token : token_arg)
  (w w' : world) (o : outcome token_arg) :
  validate E T this nonce use token w = (o, w') -> effects w' = effects w.
Proof.
  unfold validate.
  destruct (match token with TSet _ => _ | TValue _ => _ end); simpl;
    destruct (validateIdToken E this _ token nonce use _) as [[[t|e]|e] st];
    intros H; injection H as <- <-; reflexivity.
Qed.

Lemma decryptIdToken_requests (this : Client) (use : value)
  (token : token_arg) (w w' : world) (o : outcome token_arg) :
  decryptIdToken E T this use token w = (o, w') ->
  request_count w' = request_count w.
Proof.
  intros H. apply decryptIdToken_cases in H.
  destruct H as [[-> _]|(jwe & h & alg & enc & -> & _)]; reflexivity.
Qed.

Lemma new_TokenSet_effects (values : value) (w : world) :
  effects (snd (new_TokenSet T values w)) = effects w.
Proof.
  unfold new_TokenSet. destruct (lookup "expires_in" _); reflexivity.
Qed.

Lemma request_then_cases {A : Type} (verb : string) (endpoint sent : value)
  (success : value -> string -> world -> outcome A * world) (w : world) :
  request_then T verb endpoint sent success w
  = match got T (request_count w) verb endpoint sent with
    | NotCallable =>
        (Throws (Js (TypeError ("got." ++ verb ++ " is not a function"))), w)
    | HttpFailure err =>
        (Rejects (Handled err), record (Request verb endpoint sent) w)
    | HttpResponse headers text =>
        let '(o, w2) :=
          success headers text (record (Request verb endpoint sent) w) in
        (settle o, w2)
    end.
Proof.
  unfold request_then, send.
  now destruct (got T (request_count w) verb endpoint sent).
Qed.

Lemma request_then_settled {A : Type} (verb : string)
  (endpoint sent : value)
  (success : value -> string -> world -> outcome A * world)
  (w1 w' : world) (o : outcome A) :
  (forall headers text w0,
     effects (snd (success headers text w0)) = effects w0) ->
  (let '(o0, w2) := request_then T verb endpoint sent success w1 in
   (settle o0, w2)) = (o, w') ->
  (effects w' = effects w1 /\ exists f, o = Rejects f)
  \/ (effects w' = Request verb endpoint sent :: effects w1
      /\ ((exists err,
              got T (request_count w1) verb endpoint sent = HttpFailure err
              /\ o = Rejects (Handled err))
          \/ exists headers text,
               got T (request_count w1) verb endpoint sent
               = HttpResponse headers text
               /\ (o, w')
                  = (settle (fst (success headers text
                                    (record (Request verb endpoint sent) w1))),
                     snd (success headers text
                            (record (Request verb endpoint sent) w1))))).
Proof.
  intros Hquiet. unfold request_then, send.
  destruct (got T (request_count w1) verb endpoint sent)
    as [headers text|err|] eqn:Hgot.
  - pose proof (Hquiet headers text (record (Request verb endpoint sent) w1))
      as Hq.
    destruct (success headers text _) as [o1 w2] eqn:Hs.
    intros H. injection H as <- <-. right. split; [exact Hq|].
    right. exists headers, text. split; [reflexivity|].
    rewrite Hs. simpl. now destruct o1.
  - intros H. injection H as <- <-. right. split; [reflexivity|].
    left. eauto.
  - intros H. injection H as <- <-. left. split; [reflexivity|]. eauto.
Qed.

Lemma authenticatedPost_effects {A : Type} (this : Client)
  (endpoint options : value)
  (success : value -> string -> world -> outcome A * world)
  (w w' : world) (o : outcome A) :
  (forall headers text w0,
     effects (snd (success headers text w0)) = effects w0) ->
  authenticatedPost E T this endpoint options success w = (o, w') ->
  (effects w' = effects w
   /\ ((exists w1 f, grantAuth_in E T this w = (Throws f, w1) /\ o = Throws f)
       \/ exists f, o = Rejects f))
  \/ exists auth w1,
       (grantAuth_in E T this w = (Returns auth, w1)
        \/ grantAuth_in E T this w = (Resolves auth, w1))
       /\ let sent := httpOptions T (merge T options auth) in
          effects w' = Request "post" endpoint sent :: effects w
          /\ ((exists err,
                 got T (request_count w) "post" endpoint sent = HttpFailure err
                 /\ o = Rejects (Handled err))
              \/ exists headers text,
                   got T (request_count w) "post" endpoint sent
                   = HttpResponse headers text
                   /\ (o, w')
                      = (settle (fst (success headers text
                                        (record (Request "post" endpoint sent) w1))),
                         snd (success headers text
                                (record (Request "post" endpoint sent) w1)))).
Proof.
  intros Hquiet. unfold authenticatedPost.
  destruct (grantAuth_in E T this w) as [g w1] eqn:Hg.
  pose proof (grantAuth_in_effects this w w1 g Hg) as Heff.
  assert (Hcount : request_count w1 = request_count w)
    by (unfold request_count; now rewrite Heff).
  destruct g as [auth|f|auth|f]; simpl.
  - intros Hrun. apply request_then_settled in Hrun; [|exact Hquiet].
    rewrite Hcount, Heff in Hrun.
    destruct Hrun as [[He Hf]|[He Hans]]; [left; auto|].
    right. exists auth, w1. split; [now left|]. split; assumption.
  - intros H. injection H as <- <-. left. split; [exact Heff|]. left. eauto.
  - intros Hrun. apply request_then_settled in Hrun; [|exact Hquiet].
    rewrite Hcount, Heff in Hrun.
    destruct Hrun as [[He Hf]|[He Hans]]; [left; auto|].
    right. exists auth, w1. split; [now right|]. split; assumption.
  - intros H. injection H as <- <-. left. split; [exact Heff|]. right. eauto.
Qed.



(** X12.  [revoke] and [introspect] throw an assertion error, before
    [grantAuth] is consulted and without any request, when the issuer has
    neither of the two endpoints; otherwise the one request they make is a
    POST to [revocation_endpoint] (respectively [introspection_endpoint])
    when the issuer has it, and to the [token_]-prefixed one only
    when it does not. *)
Theorem post_token_endpoint (this : Client) (token : value) (w : world)
  (first second message : string) :
  let a := issuer_prop (issuer this) first in
  let b := issuer_prop (issuer this) second in
  (truthy a = false -> truthy b = false ->
   post_token E T this first second message token w
   = (Throws (Js (AssertionError message)), w))
  /\ (forall o w' verb endpoint options,
        post_token E T this first second message token w = (o, w') ->
        In (Request verb endpoint options) (effects w') ->
        In (Request verb endpoint options) (effects w)
        \/ verb = "post"
           /\ endpoint = (if truthy a then a else b)
           /\ truthy endpoint = true)
  /\ revoke E T this
     = post_token E T this "revocation_endpoint" "token_revocation_endpoint"
         "issuer must be configured with revocation endpoint"
  /\ introspect E T this
     = post_token E T this "introspection_endpoint"
         "token_introspection_endpoint"
         "issuer must be configured with introspection endpoint".
Proof.
  intros a b. unfold post_token, js_or. fold a b.
  split; [|split; [|split; reflexivity]].
  - intros Ha Hb. rewrite Ha, Hb. reflexivity.
  - intros o w' verb endpoint options.
    destruct (truthy (if truthy a then a else b)) eqn:Hend.
    + intros Hrun Hin. apply authenticatedPost_effects in Hrun;
        [|reflexivity].
      destruct Hrun as [[Heff _]|(auth & w1 & _ & Heff & _)].
      * left. now rewrite <- Heff.
      * rewrite Heff in Hin. destruct Hin as [Heq|Hin]; [|now left].
        injection Heq as <- <- _. right. repeat split. exact Hend.
    + intros H. injection H as <- <-. now left.
Qed.

End PostProperties.


Lemma post_token_endpoint_witness :
  let this :=
    Provider.client
      [ ("revocation_endpoint", VStr "https://op.example/revoke");
        ("token_revocation_endpoint", VStr "https://op.example/old") ] [] in
  revoke Provider.collaborators Provider.transport
    (Provider.client [] [("token_endpoint_auth_method", VStr "none")])
    (VStr "tok") Provider.start
  = (Throws (Js (AssertionError
                   "issuer must be configured with revocation endpoint")),
     Provider.start)
  /\ forall verb endpoint options,
       In (Request verb endpoint options)
         (effects (snd (revoke Provider.collaborators Provider.transport this
                          (VStr "tok") Provider.start))) ->
       endpoint = VStr "https://op.example/revoke".
Proof.
  intros this. split.
  - apply (post_token_endpoint Provider.collaborators Provider.transport
             (Provider.client [] [("token_endpoint_auth_method", VStr "none")])
             (VStr "tok") Provider.start); reflexivity.
  - intros verb endpoint options Hin.
    destruct (post_token_endpoint Provider.collaborators Provider.transport
                this (VStr "tok") Provider.start "revocation_endpoint"
                "token_revocation_endpoint"
                "issuer must be configured with revocation endpoint")
      as (_ & Hsent & _).
    destruct (Hsent _ _ verb endpoint options eq_refl Hin) as [[]|(_ & -> & _)].
    reflexivity.
Defined.

Section CallProperties.

Context (E : Collaborators) (T : Transport).

Lemma then_requests {A B : Type} (p : outcome A * world)
  (k : A -> world -> outcome B * world) :
  (forall a w,
     filter is_request (effects (snd (k a w)))
     = filter is_request (effects w)) ->
  filter is_request (effects (snd (then_ p k)))
  = filter is_request (effects (snd p)).
Proof.
  intros Hk. destruct p as [[a|f|a|f] w]; simpl; try reflexivity.
  specialize (Hk a w). destruct (k a w). exact Hk.
Qed.

Lemma decryptIdToken_keeps_requests (this : Client) (use : value)
  (token : token_arg) (w : world) :
  filter is_request (effects (snd (decryptIdToken E T this use token w)))
  = filter is_request (effects w).
Proof.
  destruct (decryptIdToken E T this use token w) as [o w'] eqn:H.
  apply decryptIdToken_cases in H.
  destruct H as [[-> _]|(jwe & h & alg & enc & -> & _)]; reflexivity.
Qed.

Lemma validate_keeps_requests (this : Client) (nonce use : value)
  (token : token_arg) (w : world) :
  filter is_request (effects (snd (validate E T this nonce use token w)))
  = filter is_request (effects w).
Proof.
  destruct (validate E T this nonce use token w) as [o w'] eqn:H.
  apply validate_effects in H. simpl. now rewrite H.
Qed.

(** Decrypting and validating a token set that holds no ID Token. *)
Lemma checked_without_id_token (this : Client) (nonce : value)
  (ts : TokenSet) (w : world) :
  truthy (lookup "id_token" (ts_fields ts)) = false ->
  then_ (then_ (Resolves (TSet ts), w)
           (decryptIdToken E T this (VStr "id_token")))
    (validate E T this nonce (VStr "id_token"))
  = (Rejects (Js (Error "id_token not present in TokenSet")), w).
Proof.
  intros Hid. unfold then_ at 2. unfold decryptIdToken.
  destruct (_ || _).
  - simpl. unfold validate. rewrite Hid.
    unfold validateIdToken, decode_token. rewrite Hid. simpl.
    now rewrite with_state_same.
  - unfold check_jwe_header, token_string. rewrite Hid. reflexivity.
Qed.

(** X13.  [refresh] rejects, without any request, a token set that holds
    no refresh token; and it rejects, after the token request, a response
    that brings no ID Token, with 'id_token not present in TokenSet',
    whether or not the client expects encrypted ID Tokens. *)
Theorem refresh_needs_tokens (this : Client) (refreshToken : token_arg)
  (w : world) :
  (forall ts,
     refreshToken = TSet ts ->
     truthy (lookup "refresh_token" (ts_fields ts)) = false ->
     refresh E T this refreshToken w
     = (Rejects (Js (Error "refresh_token not present in TokenSet")), w))
  /\ (forall token ts w1,
        refreshToken = TValue token
        \/ (exists ts0,
              refreshToken = TSet ts0
              /\ lookup "refresh_token" (ts_fields ts0) = token
              /\ truthy token = true) ->
        grant E T this
          (VObj [ ("grant_type", VStr "refresh_token");
                  ("refresh_token", VStr (ToString token)) ]) w
        = (Resolves (TSet ts), w1) ->
        truthy (lookup "id_token" (ts_fields ts)) = false ->
        refresh E T this refreshToken w
        = (Rejects (Js (Error "id_token not present in TokenSet")), w1)).
Proof.
  split.
  - intros ts -> Hno. unfold refresh. now rewrite Hno.
  - intros token ts w1 Htoken Hgrant Hid. unfold refresh.
    destruct Htoken as [->|(ts0 & -> & <- & Ht)]; [|rewrite Ht];
      rewrite Hgrant; now apply checked_without_id_token.
Qed.

(** Where [userinfo] puts the access token. *)
Lemma userinfo_options_cases (via : value) (verb : string) (token : value) :
  userinfo_options E via verb token
  = if strict_eq via (VStr "query") then
      if (verb =? "get")%string
      then Ok (VObj [("query", VObj [("access_token", token)])])
      else Throw (AssertionError
                    "providers should only parse query strings for GET requests")
    else if strict_eq via (VStr "body") then
      if (verb =? "post")%string
      then Ok (VObj [("body", VObj [("access_token", token)])])
      else Throw (AssertionError "can only send body on POST")
    else
      Ok (VObj [("headers", VObj [("Authorization", VStr (bearer token))])]).
Proof.
  unfold userinfo_options, assert_eq, assert_equal, loose_eq. simpl.
  destruct (strict_eq via (VStr "query")).
  - now destruct (verb =? "get")%string.
  - destruct (strict_eq via (VStr "body")); [|reflexivity].
    now destruct (verb =? "post")%string.
Qed.

Lemma userinfo_response_keeps_requests (this : Client) (headers : value)
  (body : string) (w : world) :
  filter is_request (effects (snd (userinfo_response E T this headers body w)))
  = filter is_request (effects w).
Proof.
  unfold userinfo_response.
  destruct (get_prop headers "content-type") as [ct|e]; [|reflexivity].
  destruct (JWT_CONTENT T ct); [|reflexivity].
  rewrite then_requests.
  - rewrite then_requests; [reflexivity|].
    intros a w0. apply decryptIdToken_keeps_requests.
  - intros jwt w1. destruct (negb _); [reflexivity|].
    rewrite then_requests; [apply validate_keeps_requests|].
    reflexivity.
Qed.

(** X14.  What [userinfo] sends.  A token set without access token is
    rejected before anything else.  With [via: 'query'] and a verb that is
    not GET, or [via: 'body'] and a verb that is not POST, [userinfo]
    throws and sends nothing.  Otherwise the one request it makes uses
    the verb in lower case, goes to [issuer.userinfo_endpoint] and carries
    the access token in one place: the query, the body, or, for any other
    [via], the header [Authorization: Bearer]. *)
Theorem userinfo_request (this : Client) (accessToken : token_arg)
  (options : value) (w : world) :
  let opts :=
    merge T (VObj [("verb", VStr "get"); ("via", VStr "header")]) options in
  (forall ts,
     accessToken = TSet ts ->
     truthy (lookup "access_token" (ts_fields ts)) = false ->
     userinfo E T this accessToken options w
     = (Rejects (Js (Error "access_token not present in TokenSet")), w))
  /\ (forall token verb via,
        accessToken = TValue token
        \/ (exists ts,
              accessToken = TSet ts
              /\ lookup "access_token" (ts_fields ts) = token
              /\ truthy token = true) ->
        get_prop opts "verb" = Ok verb ->
        get_prop opts "via" = Ok via ->
        let method := toLowerCase (ToString verb) in
        let endpoint := issuer_prop (issuer this) "userinfo_endpoint" in
        (via = VStr "query" -> method <> "get" ->
         userinfo E T this accessToken options w
         = (Throws (Js (AssertionError
                          "providers should only parse query strings for GET requests")),
            w))
        /\ (via = VStr "body" -> method <> "post" ->
            userinfo E T this accessToken options w
            = (Throws (Js (AssertionError "can only send body on POST")), w))
        /\ let requests :=
             filter is_request
               (effects (snd (userinfo E T this accessToken options w))) in
           let sent (placed : value) :=
             requests = filter is_request (effects w)
             \/ requests
                = Request method endpoint (httpOptions T placed)
                    :: filter is_request (effects w) in
           (via = VStr "query" -> method = "get" ->
            sent (VObj [("query", VObj [("access_token", token)])]))
           /\ (via = VStr "body" -> method = "post" ->
               sent (VObj [("body", VObj [("access_token", token)])]))
           /\ (via <> VStr "query" -> via <> VStr "body" ->
               sent (VObj [("headers",
                            VObj [("Authorization",
                                   VStr ("Bearer " ++ ToString token))])]))).
Proof.
  intros opts. split.
  - intros ts -> Hno. unfold userinfo. now rewrite Hno.
  - intros token verb via Htoken Hverb Hvia method endpoint.
    assert (Hrun : userinfo E T this accessToken options w
                   = match userinfo_options E via method token with
                     | Throw e => (Throws (Js e), w)
                     | Ok placed =>
                         request_then T method endpoint (httpOptions T placed)
                           (userinfo_response E T this) w
                     end).
    { unfold userinfo. fold opts.
      destruct Htoken as [->|(ts & -> & <- & Ht)]; [|rewrite Ht];
        rewrite Hverb, Hvia; simpl; fold method;
        destruct (userinfo_options E via method _); reflexivity. }
    assert (Hsent : forall placed,
              userinfo_options E via method token = Ok placed ->
              let requests :=
                filter is_request
                  (effects (snd (userinfo E T this accessToken options w))) in
              requests = filter is_request (effects w)
              \/ requests
                 = Request method endpoint (httpOptions T placed)
                     :: filter is_request (effects w)).
    { intros placed Hplaced. cbv zeta. rewrite Hrun, Hplaced.
      unfold request_then, send.
      destruct (got T _ method endpoint _) as [headers body|err|].
      - right.
        pose proof (userinfo_response_keeps_requests this headers body
                      (record (Request method endpoint (httpOptions T placed)) w))
          as Hq.
        destruct (userinfo_response E T this headers body _). exact Hq.
      - right. reflexivity.
      - left. reflexivity. }
    rewrite userinfo_options_cases in Hrun, Hsent.
    split; [|split; [|split; [|split]]].
    + intros -> Hne. rewrite Hrun. simpl.
      now rewrite (proj2 (String.eqb_neq method "get") Hne).
    + intros -> Hne. rewrite Hrun. simpl.
      now rewrite (proj2 (String.eqb_neq method "post") Hne).
    + intros -> Hm. apply Hsent. simpl. now rewrite Hm.
    + intros -> Hm. apply Hsent. simpl. now rewrite Hm.
    + intros Hq Hb. apply Hsent.
      rewrite (strict_eq_string_false _ _ Hq), (strict_eq_string_false _ _ Hb).
      reflexivity.
Qed.

End CallProperties.

Lemma refresh_needs_tokens_witness :
  let this :=
    Provider.client [("token_endpoint", VStr "https://op.example/token/bare")]
      [("id_token_signed_response_alg", VStr "none")] in
  refresh Provider.collaborators Provider.transport this
    (TSet (mkTokenSet [("access_token", VStr "at")])) Provider.start
  = (Rejects (Js (Error "refresh_token not present in TokenSet")),
     Provider.start)
  /\ fst (refresh Provider.collaborators Provider.transport this
            (TValue (VStr "r")) Provider.start)
     = Rejects (Js (Error "id_token not present in TokenSet")).
Proof.
  intros this.
  destruct (refresh_needs_tokens Provider.collaborators Provider.transport
              this (TSet (mkTokenSet [("access_token", VStr "at")]))
              Provider.start) as (Hmissing & _).
  destruct (refresh_needs_tokens Provider.collaborators Provider.transport
              this (TValue (VStr "r")) Provider.start) as (_ & Hbare).
  split.
  - apply (Hmissing _ eq_refl). reflexivity.
  - erewrite (Hbare (VStr "r")); [reflexivity | now left | reflexivity
                                 | reflexivity].
Defined.

Lemma userinfo_request_witness :
  let this :=
    Provider.client [("userinfo_endpoint", VStr "https://op.example/userinfo")]
      [] in
  userinfo Provider.collaborators Provider.transport this (TValue (VStr "at"))
    (VObj [("via", VStr "query"); ("verb", VStr "POST")]) Provider.start
  = (Throws (Js (AssertionError
                   "providers should only parse query strings for GET requests")),
     Provider.start)
  /\ effects (snd (userinfo Provider.collaborators Provider.transport this
                     (TValue (VStr "at")) (VObj [("verb", VStr "GET")])
                     Provider.start))
     = [ Request "get" (VStr "https://op.example/userinfo")
           (VObj [("headers", VObj [("Authorization", VStr "Bearer at")])]) ].
Proof.
  intros this. split.
  - destruct (userinfo_request Provider.collaborators Provider.transport this
                (TValue (VStr "at"))
                (VObj [("via", VStr "query"); ("verb", VStr "POST")])
                Provider.start) as (_ & Hsend).
    destruct (Hsend (VStr "at") (VStr "POST") (VStr "query")
                (or_introl eq_refl) eq_refl eq_refl) as (Hquery & _).
    apply Hquery; [reflexivity | vm_compute; discriminate].
  - destruct (userinfo_request Provider.collaborators Provider.transport this
                (TValue (VStr "at")) (VObj [("verb", VStr "GET")])
                Provider.start) as (_ & Hsend).
    destruct (Hsend (VStr "at") (VStr "GET") (VStr "header")
                (or_introl eq_refl) eq_refl eq_refl)
      as (_ & _ & _ & _ & Hheader).
    destruct (Hheader ltac:(discriminate) ltac:(discriminate)) as [Hnone|Hone].
    + vm_compute in Hnone. discriminate Hnone.
    + reflexivity.
Defined.

Lemma then_Resolves {A B : Type} (p : outcome A * world)
  (k : A -> world -> outcome B * world) (o : outcome B) (w' : world) (b : B) :
  then_ p k = (o, w') ->
  settle o = Resolves b ->
  exists a w1 o',
    p = (Resolves a, w1) /\ k a w1 = (o', w') /\ settle o' = Resolves b.
Proof.
  destruct p as [[a|f|a|f] w1]; simpl; intros H Hs;
    try (injection H as <- <-; discriminate Hs).
  destruct (k a w1) as [o' w2] eqn:Hk. injection H as <- <-.
  exists a, w1, o'. repeat split; [exact Hk|].
  destruct o'; exact Hs.
Qed.

Section CallbackProperties.

Context (E : Collaborators) (T : Transport).

Lemma validateIdToken_same_token (this : Client) (Date_now : Z)
  (token t : token_arg) (nonce use : value) (st st' : state) :
  validateIdToken E this Date_now token nonce use st = (Ok (Fulfilled t), st') ->
  t = token.
Proof.
  unfold validateIdToken.
  destruct (decode_token E token) as [[[idToken h] p]|e]; [|discriminate].
  destruct (check_claims E this _ token nonce use h p) as [[]|e];
    [|discriminate].
  destruct (get_prop h "alg") as [alg|e]; [|discriminate].
  destruct (strict_eq alg (VStr "none")).
  - intros H. now injection H as <- _.
  - intros Hv. apply verify_signature_cases in Hv.
    destruct Hv as [(e & He & _)|[(e & He & _)|(Hr & _)]]; try discriminate.
    now injection Hr as ->.
Qed.

(** What [validate] resolves with was accepted by [validateIdToken] at
    the clock reading and in the state of that moment. *)
Lemma validate_Resolves (this : Client) (nonce use : value)
  (token t : token_arg) (w w' : world) :
  validate E T this nonce use token w = (Resolves t, w') ->
  t = token
  /\ validateIdToken E this (Date_now T (clock_reads w)) token nonce use
       (client_state w)
     = (Ok (Fulfilled token), client_state w')
  /\ clock_reads w' = S (clock_reads w)
  /\ effects w' = effects w.
Proof.
  unfold validate.
  assert (Hread :
            (let '(now, w1) := read_clock T w in
             match validateIdToken E this now token nonce use
                     (client_state w1) with
             | (Throw e, st0) => (Throws (Js e), with_state w1 st0)
             | (Ok (Fulfilled t0), st0) => (Resolves t0, with_state w1 st0)
             | (Ok (Rejected e), st0) => (Rejects (Js e), with_state w1 st0)
             end) = (Resolves t, w') ->
            t = token
            /\ validateIdToken E this (Date_now T (clock_reads w)) token nonce
                 use (client_state w)
               = (Ok (Fulfilled token), client_state w')
            /\ clock_reads w' = S (clock_reads w)
            /\ effects w' = effects w).
  { unfold read_clock. cbn [client_state].
    destruct (validateIdToken E this (Date_now T (clock_reads w)) token nonce
                use (client_state w)) as [[[t0|e]|e] st'] eqn:Hv;
      try discriminate.
    intros H. injection H as <- <-.
    pose proof (validateIdToken_same_token _ _ _ _ _ _ _ _ Hv) as ->.
    repeat split. }
  destruct token as [ts|v]; [|exact Hread].
  destruct (truthy (lookup "id_token" (ts_fields ts))) eqn:Hid;
    [exact Hread|].
  unfold validateIdToken, decode_token. rewrite Hid. discriminate.
Qed.


(** X16.  How [authorizationCallback] ends without asking for tokens.  A
    response with an [error] is rejected with it, whatever the state; one
    whose [state] is not the expected one ([!==]) is rejected with 'state
    mismatch'; a missing [parameters] object makes the call throw; and a
    response that passes both checks but brings neither an ID Token nor a
    code makes the call return [undefined], no promise at all.  In each
    case nothing is sent and nothing changes. *)
Theorem authorizationCallback_without_tokens (this : Client)
  (redirectUri parameters checks : value) (w : world) :
  let params := pick parameters (CALLBACK_PROPERTIES T) in
  let toCheck := js_or checks (VObj []) in
  (truthy (lookup "error" params) = true ->
   authorizationCallback E T this redirectUri parameters checks w
   = (Rejects (OpenIdConnectError (VObj params)), w))
  /\ (truthy (lookup "error" params) = false ->
      (parameters = VUndefined \/ parameters = VNull ->
       exists e,
         authorizationCallback E T this redirectUri parameters checks w
         = (Throws (Js (TypeError e)), w))
      /\ forall expected received,
           get_prop toCheck "state" = Ok expected ->
           get_prop parameters "state" = Ok received ->
           (strict_eq expected received = false ->
            authorizationCallback E T this redirectUri parameters checks w
            = (Rejects (Js (Error "state mismatch")), w))
           /\ (strict_eq expected received = true ->
               truthy (lookup "id_token" params) = false ->
               truthy (lookup "code" params) = false ->
               authorizationCallback E T this redirectUri parameters checks w
               = (Returns None, w))).
Proof.
  intros params toCheck. unfold authorizationCallback.
  fold params. fold toCheck. split.
  - intros ->. reflexivity.
  - intros ->. split.
    + assert (Hto : exists v, get_prop toCheck "state" = Ok v).
      { unfold toCheck, js_or.
        destruct (truthy checks) eqn:Ht; [|simpl; eauto].
        destruct checks; simpl; eauto; discriminate Ht. }
      destruct Hto as (v & ->).
      intros [->| ->]; simpl; eauto.
    + intros expected received -> ->. simpl. split.
      * intros ->. reflexivity.
      * intros -> -> ->. reflexivity.
Qed.

End CallbackProperties.


Lemma authorizationCallback_without_tokens_witness :
  let this := Provider.client [] [] in
  authorizationCallback Provider.collaborators Provider.transport this
    (VStr "https://rp/cb")
    (VObj [("error", VStr "access_denied"); ("state", VStr "other")])
    (VObj [("state", VStr "s1")]) Provider.start
  = (Rejects (OpenIdConnectError (VObj [("error", VStr "access_denied");
                                         ("state", VStr "other")])),
     Provider.start)
  /\ authorizationCallback Provider.collaborators Provider.transport this
       (VStr "https://rp/cb") (VObj [("state", VStr "other")])
       (VObj [("state", VStr "s1")]) Provider.start
     = (Rejects (Js (Error "state mismatch")), Provider.start)
  /\ authorizationCallback Provider.collaborators Provider.transport this
       (VStr "https://rp/cb") (VObj [("state", VStr "s1")])
       (VObj [("state", VStr "s1")]) Provider.start
     = (Returns None, Provider.start).
Proof.
  intros this. split; [|split].
  - apply (authorizationCallback_without_tokens Provider.collaborators
             Provider.transport this). reflexivity.
  - destruct (authorizationCallback_without_tokens Provider.collaborators
                Provider.transport this (VStr "https://rp/cb")
                (VObj [("state", VStr "other")]) (VObj [("state", VStr "s1")])
                Provider.start) as (_ & Hstate).
    destruct (Hstate eq_refl) as (_ & Hcmp).
    apply (Hcmp (VStr "s1") (VStr "other") eq_refl eq_refl). reflexivity.
  - destruct (authorizationCallback_without_tokens Provider.collaborators
                Provider.transport this (VStr "https://rp/cb")
                (VObj [("state", VStr "s1")]) (VObj [("state", VStr "s1")])
                Provider.start) as (_ & Hstate).
    destruct (Hstate eq_refl) as (_ & Hcmp).
    apply (Hcmp (VStr "s1") (VStr "s1") eq_refl eq_refl); reflexivity.
Defined.

Section ExchangeProperties.

Context (E : Collaborators) (T : Transport).

Lemma grant_requests (this : Client) (body : value) (w : world) :
  let requests := filter is_request (effects (snd (grant E T this body w))) in
  requests = filter is_request (effects w)
  \/ exists auth,
       requests
       = Request "post" (issuer_prop (issuer this) "token_endpoint")
           (httpOptions T (merge T (VObj [("body", body)]) auth))
           :: filter is_request (effects w).
Proof.
  cbv zeta. destruct (grant E T this body w) as [o w'] eqn:Hrun.
  unfold grant in Hrun. apply authenticatedPost_effects in Hrun.
  - destruct Hrun as [[Heff _]|(auth & w1 & _ & Heff & _)].
    + left. simpl. now rewrite Heff.
    + right. exists auth. simpl. now rewrite Heff.
  - intros headers text w0. destruct (JSON_parse T text); [|reflexivity].
    pose proof (new_TokenSet_effects T a w0) as Hq.
    destruct (new_TokenSet T a w0). exact Hq.
Qed.

Lemma then_world {A B : Type} (p : outcome A * world)
  (k : A -> world -> outcome B * world) :
  snd (then_ p k) = snd p
  \/ exists a, p = (Resolves a, snd p) /\ snd (then_ p k) = snd (k a (snd p)).
Proof.
  destruct p as [[a|f|a|f] w]; simpl; auto.
  right. exists a. split; [reflexivity|]. now destruct (k a w).
Qed.

(** Decrypting and validating what a promise brings sends nothing. *)
Lemma checked_keeps_requests (this : Client) (nonce : value)
  (p : outcome token_arg * world) :
  filter is_request
    (effects
       (snd (then_ (then_ p (decryptIdToken E T this (VStr "id_token")))
               (validate E T this nonce (VStr "id_token")))))
  = filter is_request (effects (snd p)).
Proof.
  rewrite then_requests by apply validate_keeps_requests.
  apply then_requests. apply decryptIdToken_keeps_requests.
Qed.

(** X17.  [authorizationCallback] sends at most one request, and only for
    a response that brings a code: a POST to [issuer.token_endpoint] of
    the grant [authorization_code] with that code and the redirect URI.
    When the response also brings an ID Token, that token is decrypted and
    validated first, and a token that is turned down leaves the code
    unspent: the callback rejects with the reason and nothing is sent. *)
Theorem authorizationCallback_requests (this : Client)
  (redirectUri parameters checks : value) (w : world) :
  let params := pick parameters (CALLBACK_PROPERTIES T) in
  let toCheck := js_or checks (VObj []) in
  let run := authorizationCallback E T this redirectUri parameters checks w in
  let before := filter is_request (effects w) in
  let after := filter is_request (effects (snd run)) in
  (after = before
   \/ truthy (lookup "code" params) = true
      /\ exists auth,
           after
           = Request "post" (issuer_prop (issuer this) "token_endpoint")
               (httpOptions T
                  (merge T
                     (VObj [("body",
                             VObj [ ("grant_type", VStr "authorization_code");
                                    ("code", lookup "code" params);
                                    ("redirect_uri", redirectUri) ])])
                     auth))
               :: before)
  /\ forall expected received nonce f w1,
       truthy (lookup "error" params) = false ->
       get_prop toCheck "state" = Ok expected ->
       get_prop parameters "state" = Ok received ->
       strict_eq expected received = true ->
       get_prop toCheck "nonce" = Ok nonce ->
       truthy (lookup "id_token" params) = true ->
       then_
         (then_ (Resolves (TSet (fst (new_TokenSet T (VObj params) w))),
                 snd (new_TokenSet T (VObj params) w))
            (decryptIdToken E T this (VStr "id_token")))
         (validate E T this nonce (VStr "id_token"))
       = (Rejects f, w1) ->
       run = (Rejects f, w1) /\ after = before.
Proof.
  intros params toCheck run before after.
  assert (Hsome : forall (p : outcome token_arg * world),
            snd (let '(o, w') := p in
                 (match o with
                  | Returns t => Returns (Some t)
                  | Throws f => Throws f
                  | Resolves t => Resolves (Some t)
                  | Rejects f => Rejects f
                  end, w')) = snd p).
  { now intros [o w']. }
  assert (Hgrant : forall nonce w0,
            filter is_request (effects w0) = before ->
            let sent :=
              filter is_request
                (effects
                   (snd (then_
                           (then_
                              (grant E T this
                                 (VObj [ ("grant_type", VStr "authorization_code");
                                         ("code", lookup "code" params);
                                         ("redirect_uri", redirectUri) ]) w0)
                              (decryptIdToken E T this (VStr "id_token")))
                           (validate E T this nonce (VStr "id_token"))))) in
            sent = before
            \/ exists auth,
                 sent
                 = Request "post" (issuer_prop (issuer this) "token_endpoint")
                     (httpOptions T
                        (merge T
                           (VObj [("body",
                                   VObj [ ("grant_type", VStr "authorization_code");
                                          ("code", lookup "code" params);
                                          ("redirect_uri", redirectUri) ])])
                           auth))
                     :: before).
  { intros nonce w0 <-. cbv zeta. rewrite checked_keeps_requests.
    apply grant_requests. }
  assert (Hnew : filter is_request
                   (effects (snd (new_TokenSet T (VObj params) w))) = before).
  { unfold before. now rewrite new_TokenSet_effects. }
  split.
  - unfold after, run, authorizationCallback. fold params. fold toCheck.
    destruct (truthy (lookup "error" params)); [now left|].
    destruct (get_prop toCheck "state") as [expected|e]; [|now left].
    destruct (get_prop parameters "state") as [received|e]; [|now left].
    cbn [bind]. destruct (strict_eq expected received); [|now left].
    destruct (truthy (lookup "code" params)) eqn:Hcode.
    + destruct (truthy (lookup "id_token" params)).
      * rewrite Hsome.
        destruct (new_TokenSet T (VObj params) w) as [ts w0] eqn:Hts.
        simpl in Hnew.
        match goal with
        | |- context [then_ ?p ?k] =>
            match k with
            | (fun _ w0 => _) => destruct (then_world p k) as [Hw|(a & _ & Hw)]
            end
        end; rewrite Hw.
        -- left. now rewrite checked_keeps_requests.
        -- destruct (Hgrant
                       match get_prop toCheck "nonce" with
                       | Ok n => n
                       | Throw _ => VUndefined
                       end
                       (snd (then_
                               (then_ (Resolves (TSet ts), w0)
                                  (decryptIdToken E T this (VStr "id_token")))
                               (validate E T this
                                  match get_prop toCheck "nonce" with
                                  | Ok n => n
                                  | Throw _ => VUndefined
                                  end (VStr "id_token")))))
             as [Hsame|Hsent].
           ++ now rewrite checked_keeps_requests.
           ++ now left.
           ++ right. split; [reflexivity | exact Hsent].
      * rewrite Hsome.
        destruct (Hgrant
                    match get_prop toCheck "nonce" with
                    | Ok n => n
                    | Throw _ => VUndefined
                    end w eq_refl) as [Hsame|Hsent].
        -- now left.
        -- right. split; [reflexivity | exact Hsent].
    + destruct (truthy (lookup "id_token" params)); [|now left].
      rewrite Hsome. left.
      destruct (new_TokenSet T (VObj params) w) as [ts w0] eqn:Hts.
      simpl in Hnew. now rewrite checked_keeps_requests.
  - intros expected received nonce f w1 Herr Hexp Hrec Heq Hnonce Hid Hcheck.
    assert (Hrun : run = (Rejects f, w1)).
    { unfold run, authorizationCallback. fold params. fold toCheck.
      rewrite Herr, Hexp, Hrec. cbn [bind]. rewrite Heq, Hnonce, Hid.
      destruct (new_TokenSet T (VObj params) w) as [ts w0].
      cbn [fst snd] in Hcheck. rewrite Hcheck.
      now destruct (truthy (lookup "code" params)). }
    split; [exact Hrun|].
    unfold after. rewrite Hrun. cbn [snd].
    change w1 with (snd (@Rejects token_arg f, w1)).
    rewrite <- Hcheck. now rewrite checked_keeps_requests.
Qed.

End ExchangeProperties.

Lemma authorizationCallback_requests_witness :
  let this := Provider.client [] [] in
  let parameters :=
    VObj [("code", VStr "c0"); ("id_token", VStr "none.plain.")] in
  fst (authorizationCallback Provider.collaborators Provider.transport this
         (VStr "https://rp/cb") parameters VUndefined Provider.start)
  = Rejects (Js (AssertionError "unexpected algorithm used"))
  /\ filter is_request
       (effects
          (snd (authorizationCallback Provider.collaborators
                  Provider.transport this (VStr "https://rp/cb") parameters
                  VUndefined Provider.start)))
     = [].
Proof.
  intros this parameters.
  destruct (authorizationCallback_requests Provider.collaborators
              Provider.transport this (VStr "https://rp/cb") parameters
              VUndefined Provider.start) as (_ & Hturned).
  destruct (Hturned VUndefined VUndefined VUndefined
              (Js (AssertionError "unexpected algorithm used")) _
              eq_refl eq_refl eq_refl eq_refl eq_refl eq_refl eq_refl)
    as (Hrun & Hafter).
  split; [now rewrite Hrun | exact Hafter].
Defined.

(** ** The authorization URL *)

Lemma is_undefined_true (v : value) : is_undefined v = true -> v = VUndefined.
Proof. now destruct v. Qed.

(** [_.defaults] in place: a property the object holds is kept, one it
    does not hold comes from the first source entry that defines it. *)
Lemma lookup_assign_defaults (k : string) (source object : list (string * value)) :
  lookup k (assign_defaults object source)
  = if is_undefined (lookup k object)
    then lookup k (filter (fun kv => negb (is_undefined (snd kv))) source)
    else lookup k object.
Proof.
  unfold assign_defaults. revert object.
  induction source as [|[k0 v0] source IH]; intros object; simpl.
  - destruct (is_undefined (lookup k object)) eqn:Hu; [|reflexivity].
    now apply is_undefined_true.
  - rewrite IH. destruct (String.eqb_spec k k0) as [->|Hk].
    + destruct (is_undefined (lookup k0 object)) eqn:Hu.
      * rewrite lookup_set_prop_same.
        destruct (is_undefined v0) eqn:Hv; simpl; [reflexivity|].
        now rewrite String.eqb_refl.
      * now rewrite Hu.
    + assert (Hsame : lookup k
                        (if is_undefined (lookup k0 object)
                         then set_prop k0 v0 object else object)
                      = lookup k object).
      { destruct (is_undefined (lookup k0 object)); [|reflexivity].
        now apply lookup_set_prop_other. }
      rewrite Hsame.
      destruct (is_undefined v0); simpl; [reflexivity|].
      now rewrite (proj2 (String.eqb_neq k k0) Hk).
Qed.

Lemma set_prop_held (k : string) (props : list (string * value)) :
  In k (map fst props) -> set_prop k (lookup k props) props = props.
Proof.
  induction props as [|[k0 v0] props IH]; simpl; [contradiction|].
  intros Hin. destruct (String.eqb_spec k k0) as [->|Hk]; [reflexivity|].
  destruct Hin as [Heq|Hin]; [congruence|]. now rewrite IH.
Qed.

Lemma keys_set_prop (k k' : string) (v : value)
  (props : list (string * value)) :
  In k (map fst (set_prop k' v props)) <-> k = k' \/ In k (map fst props).
Proof.
  induction props as [|[k0 v0] props IH]; simpl.
  - intuition congruence.
  - destruct (String.eqb_spec k' k0) as [->|Hk]; simpl.
    + intuition congruence.
    + rewrite IH. intuition congruence.
Qed.

Lemma lookup_held (k : string) (props : list (string * value)) :
  is_undefined (lookup k props) = false -> In k (map fst props).
Proof.
  induction props as [|[k0 v0] props IH]; simpl; [discriminate|].
  destruct (String.eqb_spec k k0) as [->|Hk]; [now left|].
  intros Hu. right. now apply IH.
Qed.

Lemma keys_assign_defaults (k : string) (source object : list (string * value)) :
  In k (map fst source) \/ In k (map fst object) ->
  In k (map fst (assign_defaults object source)).
Proof.
  unfold assign_defaults. revert object.
  induction source as [|[k0 v0] source IH]; intros object; simpl.
  - now intros [[]|H].
  - intros H. apply IH.
    destruct (is_undefined (lookup k0 object)) eqn:Hu.
    + destruct H as [[<-|H]|H]; [right|now left|right];
        apply keys_set_prop; auto.
    + destruct H as [[<-|H]|H]; [right|now left|now right].
      now apply lookup_held.
Qed.

(** Defaults that an object already took change nothing. *)
Lemma assign_defaults_taken (source object : list (string * value)) :
  (forall k v,
     In (k, v) source ->
     In k (map fst object)
     /\ (is_undefined (lookup k object) = true -> v = VUndefined)) ->
  assign_defaults object source = object.
Proof.
  unfold assign_defaults.
  induction source as [|[k0 v0] source IH]; intros Htaken; simpl;
    [reflexivity|].
  destruct (Htaken k0 v0 (or_introl eq_refl)) as (Hin & Hv).
  assert (Hstep : (if is_undefined (lookup k0 object)
                   then set_prop k0 v0 object else object) = object).
  { destruct (is_undefined (lookup k0 object)) eqn:Hu; [|reflexivity].
    rewrite (Hv eq_refl). rewrite <- (is_undefined_true _ Hu) at 1.
    now apply set_prop_held. }
  rewrite Hstep. apply IH. intros k v Hkv. apply Htaken. now right.
Qed.

Section UrlProperties.

Context (E : Collaborators) (T : Transport).

Lemma lookup_query_defaults (this : Client) (k : string) :
  lookup k (filter (fun kv => negb (is_undefined (snd kv)))
              (query_defaults E this))
  = lookup k (query_defaults E this).
Proof.
  unfold query_defaults. simpl.
  destruct (is_undefined (prop E this "client_id")) eqn:Hu; simpl;
    [|reflexivity].
  destruct (String.eqb_spec k "client_id") as [->|Hk]; [|reflexivity].
  symmetry. now apply is_undefined_true.
Qed.

Lemma authorizationUrl_run (this : Client) (params : value) :
  is_typeof_object params = true ->
  let first := assign_defaults (object_of params) (query_defaults E this) in
  let query :=
    if is_typeof_object (lookup "claims" first)
    then set_prop "claims" (VStr (JSON_stringify E (lookup "claims" first)))
           first
    else first in
  authorizationUrl E T this params
  = match parse_endpoint T
            (issuer_prop (issuer this) "authorization_endpoint") with
    | Ok parsed =>
        Ok (url_format T
              (VObj (assign_defaults
                       [ ("search", VNull); ("query", VObj query) ] parsed)),
            query)
    | Throw e => Throw e
    end.
Proof.
  intros Hobj. unfold authorizationUrl. rewrite Hobj. cbn [assert_ok bind].
  now destruct (parse_endpoint T _).
Qed.

(** X18.  [authorizationUrl] refuses what is not of type object, and,
    given an object, throws a [TypeError] when the issuer's
    [authorization_endpoint] is not a string, which [url.parse] does not
    take.  Otherwise the query it formats holds every value the caller
    gave, and [client_id], [scope: 'openid'] and [response_type: 'code']
    only where the caller gave none; a [claims] object goes into the
    query as its JSON text; and the URL is formatted with [search: null]
    and this query, whatever query string the authorization endpoint
    had, the other components of the endpoint being kept. *)
Theorem authorizationUrl_query (this : Client) (params : value) :
  let endpoint := issuer_prop (issuer this) "authorization_endpoint" in
  (is_typeof_object params = false ->
   authorizationUrl E T this params
   = Throw (AssertionError "you must provide an object"))
  /\ (is_typeof_object params = true ->
      (forall href, endpoint <> VStr href) ->
      exists message,
        authorizationUrl E T this params = Throw (TypeError message))
  /\ (is_typeof_object params = true ->
      forall href,
        endpoint = VStr href ->
        exists query target,
          authorizationUrl E T this params
          = Ok (url_format T (VObj target), query)
          /\ lookup "search" target = VNull
          /\ lookup "query" target = VObj query
          /\ (forall k,
                k <> "search" -> k <> "query" ->
                lookup k target
                = lookup k
                    (filter (fun kv => negb (is_undefined (snd kv)))
                       (url_parse T (VStr href))))
          /\ (forall k,
                k <> "claims" ->
                lookup k query
                = if is_undefined (lookup k (object_of params))
                  then lookup k [ ("client_id", prop E this "client_id");
                                  ("scope", VStr "openid");
                                  ("response_type", VStr "code") ]
                  else lookup k (object_of params))
          /\ lookup "claims" query
             = let claims := lookup "claims" (object_of params) in
               if is_typeof_object claims
               then VStr (JSON_stringify E claims) else claims).
Proof.
  intros endpoint. split; [|split].
  - intros Hobj. unfold authorizationUrl. now rewrite Hobj.
  - intros Hobj Hnone. rewrite (authorizationUrl_run this params Hobj).
    fold endpoint. unfold parse_endpoint.
    destruct endpoint as [| | | |href| |] eqn:He; eauto.
    now destruct (Hnone href).
  - intros Hobj href Hhref.
    rewrite (authorizationUrl_run this params Hobj). fold endpoint.
    rewrite Hhref. cbn [parse_endpoint]. cbv zeta.
    set (first := assign_defaults (object_of params) (query_defaults E this)).
    set (query := if is_typeof_object (lookup "claims" first) then _ else _).
    exists query. eexists. split; [reflexivity|].
    assert (Hclaims : lookup "claims" first
                      = lookup "claims" (object_of params)).
    { unfold first. rewrite lookup_assign_defaults, lookup_query_defaults.
      now destruct (is_undefined (lookup "claims" (object_of params))) eqn:Hu;
        [symmetry; apply is_undefined_true|]. }
    split; [now rewrite lookup_assign_defaults|].
    split; [now rewrite lookup_assign_defaults|].
    split; [|split].
    + intros k Hs Hq. rewrite lookup_assign_defaults. simpl.
      rewrite (proj2 (String.eqb_neq k "search") Hs).
      now rewrite (proj2 (String.eqb_neq k "query") Hq).
    + intros k Hk.
      assert (Hfirst : lookup k query = lookup k first).
      { unfold query. destruct (is_typeof_object (lookup "claims" first));
          [|reflexivity].
        now apply lookup_set_prop_other. }
      rewrite Hfirst. unfold first.
      now rewrite lookup_assign_defaults, lookup_query_defaults.
    + unfold query. rewrite <- Hclaims.
      destruct (is_typeof_object (lookup "claims" first)); [|reflexivity].
      now rewrite lookup_set_prop_same.
Qed.

(** X19.  The query [authorizationUrl] leaves in the caller's object is
    stable: handed back to [authorizationUrl] as an object, it gives the
    same URL and stays as it is; the claims are not turned into JSON a
    second time. *)
Theorem authorizationUrl_again (this : Client) (params : value)
  (href : string) (query : list (string * value)) :
  authorizationUrl E T this params = Ok (href, query) ->
  authorizationUrl E T this (VObj query) = Ok (href, query).
Proof.
  destruct (is_typeof_object params) eqn:Hobj;
    [|unfold authorizationUrl; rewrite Hobj; discriminate].
  rewrite (authorizationUrl_run this params Hobj). cbv zeta.
  set (first := assign_defaults (object_of params) (query_defaults E this)).
  destruct (parse_endpoint T
              (issuer_prop (issuer this) "authorization_endpoint"))
    as [parsed|e] eqn:Hparsed; [|discriminate].
  intros Hrun.
  assert (Hquery : query
                   = if is_typeof_object (lookup "claims" first)
                     then set_prop "claims"
                            (VStr (JSON_stringify E (lookup "claims" first)))
                            first
                     else first) by congruence.
  assert (Hother : forall k, k <> "claims" -> lookup k query = lookup k first).
  { intros k Hk. rewrite Hquery.
    destruct (is_typeof_object (lookup "claims" first)); [|reflexivity].
    now apply lookup_set_prop_other. }
  assert (Hkeys : forall k, In k (map fst first) -> In k (map fst query)).
  { intros k Hk. rewrite Hquery.
    destruct (is_typeof_object (lookup "claims" first)); [|exact Hk].
    apply keys_set_prop. now right. }
  assert (Hclaims : is_typeof_object (lookup "claims" query) = false).
  { rewrite Hquery.
    destruct (is_typeof_object (lookup "claims" first)) eqn:Hc; [|exact Hc].
    now rewrite lookup_set_prop_same. }
  assert (Hsame : assign_defaults query (query_defaults E this) = query).
  { apply assign_defaults_taken. intros k v Hkv. split.
    - apply Hkeys, keys_assign_defaults. left.
      now apply (in_map fst _ (k, v)).
    - assert (Hk : k <> "claims").
      { destruct Hkv as [H|[H|[H|[]]]]; injection H as <- _; discriminate. }
      rewrite (Hother k Hk). unfold first.
      rewrite lookup_assign_defaults, lookup_query_defaults.
      destruct (is_undefined (lookup k (object_of params))) eqn:Hu;
        [|intros Hd; rewrite Hd in Hu; discriminate Hu].
      intros Hd. apply is_undefined_true in Hd.
      destruct Hkv as [H|[H|[H|[]]]]; injection H as <- <-;
        simpl in Hd; congruence. }
  rewrite (authorizationUrl_run this (VObj query) eq_refl). cbv zeta.
  cbn [object_of]. rewrite Hparsed, Hsame, Hclaims.
  rewrite <- Hquery in Hrun. exact Hrun.
Qed.

End UrlProperties.

Lemma authorizationUrl_query_witness :
  let this := Provider.client [("authorization_endpoint",
                                VStr "https://op.example/auth")] [] in
  let params :=
    VObj [ ("scope", VStr "openid email");
           ("claims", VObj [("userinfo", VNull)]) ] in
  (exists href query,
     authorizationUrl Provider.collaborators Provider.transport this params
     = Ok (href, query)
     /\ lookup "scope" query = VStr "openid email"
     /\ lookup "response_type" query = VStr "code"
     /\ lookup "client_id" query = VStr "c")
  /\ exists message,
       authorizationUrl Provider.collaborators Provider.transport
         (Provider.client [] []) params
       = Throw (TypeError message).
Proof.
  intros this params. split.
  - destruct (authorizationUrl_query Provider.collaborators
                Provider.transport this params) as (_ & _ & Hquery).
    destruct (Hquery eq_refl "https://op.example/auth" eq_refl)
      as (query & target & Hrun & _ & _ & _ & Hgiven & _).
    exists (url_format Provider.transport (VObj target)), query.
    split; [exact Hrun|].
    split; [|split].
    + now rewrite (Hgiven "scope").
    + now rewrite (Hgiven "response_type").
    + now rewrite (Hgiven "client_id").
  - destruct (authorizationUrl_query Provider.collaborators
                Provider.transport (Provider.client [] []) params)
      as (_ & Hnone & _).
    apply (Hnone eq_refl). intros href. discriminate.
Defined.

Lemma authorizationUrl_again_witness :
  let this := Provider.client [("authorization_endpoint",
                                VStr "https://op.example/auth")] [] in
  let params := VObj [("claims", VObj [("userinfo", VNull)])] in
  exists href query,
    authorizationUrl Provider.collaborators Provider.transport this params
    = Ok (href, query)
    /\ authorizationUrl Provider.collaborators Provider.transport this
         (VObj query)
       = Ok (href, query).
Proof.
  intros this params. eexists _, _. split; [reflexivity|].
  apply (authorizationUrl_again Provider.collaborators Provider.transport
           this params).
  reflexivity.
Defined.

(** ** Registration *)

Section RegistrationProperties.

Context (E : Collaborators) (T : Transport).


(** X21.  The client that [fromUri] or [register] resolves with is made
    by the constructor from the parsed body of the one response: it
    belongs to the issuer, [fromUri] gives it no keystore, [register]
    gives it the keystore it was called with, and its authentication
    method is a string that ends in [_jwt] only if the issuer names the
    signing algorithms of the token endpoint.  Neither hands a client
    back otherwise than through its promise. *)
Theorem client_of_response (iss : Issuer) (uri token body : value)
  (ks : keystore_arg) (w w' : world) (o : outcome Client) :
  fromUri E T iss uri token w = (o, w')
  /\ ks = KsValue VUndefined
  \/ register E T iss body ks w = (o, w') ->
  (forall c, o <> Returns c)
  /\ forall c,
       o = Resolves c ->
       issuer c = iss
       /\ keystore c
          = match ks with KsKeyStore keys => Some keys | KsValue _ => None end
       /\ (exists verb endpoint sent headers text values,
             effects w' = Request verb endpoint sent :: effects w
             /\ got T (request_count w) verb endpoint sent
                = HttpResponse headers text
             /\ JSON_parse T text = Ok values
             /\ instance c
                = defaults (pick values (CLIENT_METADATA E))
                    (CLIENT_DEFAULTS E))
       /\ exists m,
            prop E c "token_endpoint_auth_method" = VStr m
            /\ (endsWith m "_jwt" = true ->
                truthy (issuer_prop iss
                          "token_endpoint_auth_signing_alg_values_supported")
                = true).
Proof.
  assert (Hmade : forall verb endpoint sent,
            request_then T verb endpoint sent
              (fun _ text w1 =>
                 (lift_result
                    (values <- JSON_parse T text ;;
                     BaseClient_constructor E iss values ks)%js, w1)) w
            = (o, w') ->
            (forall c, o <> Returns c)
            /\ forall c,
                 o = Resolves c ->
                 exists headers text values,
                   effects w' = Request verb endpoint sent :: effects w
                   /\ got T (request_count w) verb endpoint sent
                      = HttpResponse headers text
                   /\ JSON_parse T text = Ok values
                   /\ BaseClient_constructor E iss values ks = Ok c).
  { intros verb endpoint sent. rewrite request_then_cases.
    destruct (got T (request_count w) verb endpoint sent)
      as [headers text|err|] eqn:Hgot;
      try (intros H; injection H as <- <-; split; intros; discriminate).
    destruct (JSON_parse T text) as [values|e] eqn:Hparse; cbn [bind];
      [|intros H; injection H as <- <-; split; intros; discriminate].
    destruct (BaseClient_constructor E iss values ks) as [c0|e] eqn:Hc;
      intros H; injection H as <- <-;
      (split; [intros; discriminate|]); intros c Hres; [|discriminate].
    injection Hres as <-. exists headers, text, values. auto. }
  assert (Hclient : forall verb endpoint sent,
            request_then T verb endpoint sent
              (fun _ text w1 =>
                 (lift_result
                    (values <- JSON_parse T text ;;
                     BaseClient_constructor E iss values ks)%js, w1)) w
            = (o, w') ->
            (forall c, o <> Returns c)
            /\ forall c,
                 o = Resolves c ->
                 issuer c = iss
                 /\ keystore c
                    = match ks with
                      | KsKeyStore keys => Some keys
                      | KsValue _ => None
                      end
                 /\ (exists verb endpoint sent headers text values,
                       effects w' = Request verb endpoint sent :: effects w
                       /\ got T (request_count w) verb endpoint sent
                          = HttpResponse headers text
                       /\ JSON_parse T text = Ok values
                       /\ instance c
                          = defaults (pick values (CLIENT_METADATA E))
                              (CLIENT_DEFAULTS E))
                 /\ exists m,
                      prop E c "token_endpoint_auth_method" = VStr m
                      /\ (endsWith m "_jwt" = true ->
                          truthy (issuer_prop iss
                                    "token_endpoint_auth_signing_alg_values_supported")
                          = true)).
  { intros verb endpoint sent Hrun.
    destruct (Hmade verb endpoint sent Hrun) as (Hno & Hres).
    split; [exact Hno|]. intros c Hc.
    destruct (Hres c Hc) as (headers & text & values & Heff & Hgot & Hp & Hk).
    apply constructor_Ok in Hk. destruct Hk as (-> & _ & Hm).
    split; [reflexivity|]. split; [reflexivity|].
    split; [|exact Hm].
    exists verb, endpoint, sent, headers, text, values. auto. }
  intros [[Hrun ->]|Hrun].
  - unfold fromUri in Hrun. exact (Hclient _ _ _ Hrun).
  - unfold register in Hrun.
    destruct (truthy (issuer_prop iss "registration_endpoint"));
      [|injection Hrun as <- <-; split; intros; discriminate].
    destruct (registration_body T body ks) as [sent|e];
      [|injection Hrun as <- <-; split; intros; discriminate].
    exact (Hclient _ _ _ Hrun).
Qed.

End RegistrationProperties.


Lemma client_of_response_witness :
  let iss := Sample.op [("registration_endpoint",
                         VStr "https://op.example/register")] in
  exists c w',
    register Provider.collaborators Provider.transport iss (VObj [])
      (KsKeyStore [mkKey "rsa" ["RS256"]]) Provider.start
    = (Resolves c, w')
    /\ issuer c = iss
    /\ keystore c = Some [mkKey "rsa" ["RS256"]].
Proof.
  intros iss. eexists _, _. split; [reflexivity|].
  destruct (client_of_response Provider.collaborators Provider.transport iss
              VUndefined VUndefined (VObj [])
              (KsKeyStore [mkKey "rsa" ["RS256"]]) Provider.start _ _
              (or_intror eq_refl)) as (_ & Hclient).
  destruct (Hclient _ eq_refl) as (Hiss & Hks & _).
  split; [exact Hiss | exact Hks].
Defined.

(** ** What the promises resolve with *)

Section ResolvedProperties.

Context (E : Collaborators) (T : Transport).

Lemma validateIdToken_holds_id_token (this : Client) (Date_now : Z)
  (ts : TokenSet) (t : token_arg) (nonce use : value) (st st' : state) :
  validateIdToken E this Date_now (TSet ts) nonce use st
  = (Ok (Fulfilled t), st') ->
  truthy (lookup "id_token" (ts_fields ts)) = true.
Proof.
  unfold validateIdToken, decode_token.
  destruct (truthy (lookup "id_token" (ts_fields ts))); [reflexivity|].
  discriminate.
Qed.

Lemma decryptIdToken_token_set (this : Client) (use : value) (ts : TokenSet)
  (w w' : world) (o : outcome token_arg) (t : token_arg) :
  decryptIdToken E T this use (TSet ts) w = (o, w') ->
  settle o = Resolves t ->
  exists ts', t = TSet ts'.
Proof.
  unfold decryptIdToken. destruct (_ || _).
  - intros H. injection H as <- _. intros Hs. injection Hs as <-. eauto.
  - destruct (check_jwe_header E this (TSet ts) use) as [jwe|e];
      [|intros H; injection H as <- _; discriminate].
    destruct (jwe_decrypt T (keystore this) jwe) as [payload|e];
      intros H; injection H as <- _; [|discriminate].
    intros Hs. injection Hs as <-. eauto.
Qed.

Lemma grant_token_set (this : Client) (body : value) (w w' : world)
  (o : outcome token_arg) (t : token_arg) :
  grant E T this body w = (o, w') ->
  settle o = Resolves t ->
  exists ts, t = TSet ts.
Proof.
  unfold grant, authenticatedPost. intros Hrun Hs.
  destruct (then_Resolves _ _ _ _ _ Hrun Hs) as (auth & w1 & o1 & _ & Hk & Hs1).
  unfold request_then in Hk.
  destruct (send T "post" _ _ w1) as [[headers text|err|] w2];
    [|injection Hk as <- _; discriminate Hs1
     |injection Hk as <- _; discriminate Hs1].
  destruct (JSON_parse T text) as [values|e].
  - destruct (new_TokenSet T values w2) as [ts w3].
    injection Hk as <- _. injection Hs1 as <-. eauto.
  - injection Hk as <- _. discriminate Hs1.
Qed.

(** A token set that comes through decryption and validation has an ID
    Token that [validateIdToken] accepted, at the clock reading and in
    the state the decryption left. *)
Lemma checked_token_set (this : Client) (nonce : value)
  (p : outcome token_arg * world) (w' : world) (o : outcome token_arg)
  (t : token_arg) :
  (forall t0, fst p = Resolves t0 -> exists ts0, t0 = TSet ts0) ->
  then_ (then_ p (decryptIdToken E T this (VStr "id_token")))
    (validate E T this nonce (VStr "id_token")) = (o, w') ->
  settle o = Resolves t ->
  exists ts0 w0 o1 ts w1,
    p = (Resolves (TSet ts0), w0)
    /\ decryptIdToken E T this (VStr "id_token") (TSet ts0) w0 = (o1, w1)
    /\ settle o1 = Resolves (TSet ts)
    /\ t = TSet ts
    /\ truthy (lookup "id_token" (ts_fields ts)) = true
    /\ validateIdToken E this (Date_now T (clock_reads w1)) (TSet ts) nonce
         (VStr "id_token") (client_state w1)
       = (Ok (Fulfilled (TSet ts)), client_state w')
    /\ clock_reads w' = S (clock_reads w1)
    /\ effects w' = effects w1.
Proof.
  intros Hset Hrun Hs.
  destruct (then_Resolves _ _ _ _ _ Hrun Hs)
    as (t1 & w1 & o1 & Hdec & Hval & Hs1).
  assert (Ho1 : o1 = Resolves t).
  { unfold validate in Hval.
    destruct (if match t1 with
                 | TSet ts => truthy (lookup "id_token" (ts_fields ts))
                 | TValue _ => true
                 end
              then read_clock T w1 else (0, w1)) as [now w2].
    destruct (validateIdToken E this now t1 nonce (VStr "id_token")
                (client_state w2)) as [[[t2|e]|e] st'];
      injection Hval as <- _; try discriminate Hs1. exact Hs1. }
  subst o1. apply validate_Resolves in Hval.
  destruct Hval as (-> & Hv & Hclock & Heff).
  destruct (then_Resolves _ _ _ _ _ Hdec eq_refl)
    as (t0 & w0 & o0 & Hp & Hd & Hs0).
  destruct (Hset t0) as (ts0 & ->); [now rewrite Hp|].
  destruct (decryptIdToken_token_set _ _ _ _ _ _ _ Hd Hs0) as (ts & ->).
  exists ts0, w0, o0, ts, w1. repeat split; try assumption.
  exact (validateIdToken_holds_id_token _ _ _ _ _ _ _ _ Hv).
Qed.

(** X22.  What [authorizationCallback] resolves with is never the bare
    response: it is a token set that holds an ID Token which
    [validateIdToken] has accepted in this call, against [checks.nonce]
    and for the use ['id_token'], at the last reading of the clock and
    in the state the client was then in.  The token set is the one made
    of the response when there was no code, and else the one the token
    endpoint answered the code with, after the ID Token of the response,
    if there was one, had come through the same checks; in both cases
    after [decryptIdToken]. *)
Theorem authorizationCallback_resolved (this : Client)
  (redirectUri parameters checks : value) (w w' : world)
  (r : option token_arg) :
  authorizationCallback E T this redirectUri parameters checks w
  = (Resolves r, w') ->
  let params := pick parameters (CALLBACK_PROPERTIES T) in
  let checked (nonce : value) (p : outcome token_arg * world) :=
    then_ (then_ p (decryptIdToken E T this (VStr "id_token")))
      (validate E T this nonce (VStr "id_token")) in
  exists ts nonce ts0 w0 o1 w1,
    r = Some (TSet ts)
    /\ get_prop (js_or checks (VObj [])) "nonce" = Ok nonce
    /\ truthy (lookup "id_token" (ts_fields ts)) = true
    /\ (truthy (lookup "code" params) = false
        /\ (ts0, w0) = new_TokenSet T (VObj params) w
        \/ truthy (lookup "code" params) = true
           /\ exists wa,
                grant E T this
                  (VObj [ ("grant_type", VStr "authorization_code");
                          ("code", lookup "code" params);
                          ("redirect_uri", redirectUri) ]) wa
                = (Resolves (TSet ts0), w0)
                /\ (truthy (lookup "id_token" params) = false /\ wa = w
                    \/ truthy (lookup "id_token" params) = true
                       /\ exists ta,
                            checked nonce
                              (Resolves
                                 (TSet (fst (new_TokenSet T (VObj params) w))),
                               snd (new_TokenSet T (VObj params) w))
                            = (Resolves ta, wa)))
    /\ decryptIdToken E T this (VStr "id_token") (TSet ts0) w0 = (o1, w1)
    /\ settle o1 = Resolves (TSet ts)
    /\ validateIdToken E this (Date_now T (clock_reads w1)) (TSet ts) nonce
         (VStr "id_token") (client_state w1)
       = (Ok (Fulfilled (TSet ts)), client_state w')
    /\ clock_reads w' = S (clock_reads w1)
    /\ effects w' = effects w1.
Proof.
  intros Hrun params checked. revert Hrun.
  unfold authorizationCallback. fold params.
  set (toCheck := js_or checks (VObj [])).
  destruct (truthy (lookup "error" params)); [discriminate|].
  destruct (get_prop toCheck "state") as [expected|e] eqn:Hstate;
    [|discriminate].
  destruct (get_prop parameters "state") as [received|e]; [|discriminate].
  cbn [bind]. destruct (strict_eq expected received); [|discriminate].
  assert (Hnonce : exists nonce, get_prop toCheck "nonce" = Ok nonce).
  { destruct toCheck; try discriminate Hstate; simpl; eauto. }
  destruct Hnonce as (nonce & Hnonce). rewrite Hnonce.
  assert (Hsome : forall (p : outcome token_arg * world),
            (let '(o, w0) := p in
             (match o with
              | Returns t => Returns (Some t)
              | Throws f => Throws f
              | Resolves t => Resolves (Some t)
              | Rejects f => Rejects f
              end, w0)) = (Resolves r, w') ->
            exists t, r = Some t /\ p = (Resolves t, w')).
  { intros [[t|f|t|f] w0] H; try discriminate H.
    injection H as <- <-. eauto. }
  assert (Hgranted : forall body w0 t0,
            fst (grant E T this body w0) = Resolves t0 ->
            exists ts0, t0 = TSet ts0).
  { intros body w0 t0 Hfst.
    destruct (grant E T this body w0) as [o0 w1] eqn:Hg.
    simpl in Hfst. subst o0.
    exact (grant_token_set _ _ _ _ _ _ Hg eq_refl). }
  fold (checked nonce).
  destruct (truthy (lookup "id_token" params)) eqn:Hid.
  - destruct (truthy (lookup "code" params)) eqn:Hcode.
    + intros Hrun. apply Hsome in Hrun. destruct Hrun as (t & -> & Hrun).
      match type of Hrun with
      | then_ ?p ?k = _ =>
          destruct (then_Resolves p k _ _ _ Hrun eq_refl)
            as (ta & wa & o2 & Hfirst & Hk & Hs2)
      end.
      assert (Ho2 : o2 = Resolves t).
      { match type of Hk with
        | then_ ?p ?k = _ =>
            destruct p as [[a|f|a|f] w2]; simpl in Hk;
              try (injection Hk as <- _; discriminate Hs2);
              destruct (k a w2) as [o3 w3]; injection Hk as <- _;
              destruct o3; try discriminate Hs2; exact Hs2
        end. }
      subst o2.
      destruct (checked_token_set this nonce _ w' _ t (Hgranted _ _) Hk
                  eq_refl)
        as (ts0 & w0 & o1 & ts & w1 & Hg & Hd & Hs1 & -> & Htid & Hv
            & Hclock & Heff).
      exists ts, nonce, ts0, w0, o1, w1.
      split; [reflexivity|]. split; [reflexivity|]. split; [exact Htid|].
      split; [|repeat split; assumption].
      right. split; [reflexivity|]. exists wa. split; [exact Hg|].
      right. split; [reflexivity|]. exists ta.
      destruct (new_TokenSet T (VObj params) w) as [tsn wn].
      exact Hfirst.
    + intros Hrun. apply Hsome in Hrun. destruct Hrun as (t & -> & Hrun).
      destruct (new_TokenSet T (VObj params) w) as [tsn wn] eqn:Hnew.
      assert (Hset : forall t0,
                fst (@Resolves token_arg (TSet tsn), wn) = Resolves t0 ->
                exists ts0, t0 = TSet ts0)
        by (intros t0 H; injection H as <-; eauto).
      destruct (checked_token_set this nonce (Resolves (TSet tsn), wn) w'
                  (Resolves t) t Hset Hrun eq_refl)
        as (ts0 & w0 & o1 & ts & w1 & Hp & Hd & Hs1 & -> & Htid & Hv
            & Hclock & Heff).
      injection Hp as <- <-.
      exists ts, nonce, tsn, wn, o1, w1.
      split; [reflexivity|]. split; [reflexivity|]. split; [exact Htid|].
      split; [|repeat split; assumption].
      left. split; reflexivity.
  - destruct (truthy (lookup "code" params)) eqn:Hcode; [|discriminate].
    intros Hrun. apply Hsome in Hrun. destruct Hrun as (t & -> & Hrun).
    destruct (checked_token_set this nonce _ w' _ t (Hgranted _ _) Hrun
                eq_refl)
      as (ts0 & w0 & o1 & ts & w1 & Hg & Hd & Hs1 & -> & Htid & Hv
          & Hclock & Heff).
    exists ts, nonce, ts0, w0, o1, w1.
    split; [reflexivity|]. split; [reflexivity|]. split; [exact Htid|].
    split; [|repeat split; assumption].
    right. split; [reflexivity|]. exists w. split; [exact Hg|].
    left. split; reflexivity.
Qed.

(** X23.  What [refresh] resolves with is a token set with an ID Token
    that [validateIdToken] has accepted in this call, for the use
    ['id_token'] and no nonce being expected, at the reading of the clock
    taken after the token endpoint answered and in the state the client
    was then in: it is what the endpoint answered the refresh token
    with, after [decryptIdToken].  A refreshed token set without ID
    Token, or with one that does not validate, never reaches the
    caller. *)
Theorem refresh_resolved (this : Client) (refreshToken t : token_arg)
  (w w' : world) :
  refresh E T this refreshToken w = (Resolves t, w') ->
  exists token ts0 w0 o1 ts w1,
    (refreshToken = TValue token
     \/ exists held,
          refreshToken = TSet held
          /\ lookup "refresh_token" (ts_fields held) = token
          /\ truthy token = true)
    /\ grant E T this
         (VObj [ ("grant_type", VStr "refresh_token");
                 ("refresh_token", VStr (ToString token)) ]) w
       = (Resolves (TSet ts0), w0)
    /\ decryptIdToken E T this (VStr "id_token") (TSet ts0) w0 = (o1, w1)
    /\ settle o1 = Resolves (TSet ts)
    /\ t = TSet ts
    /\ truthy (lookup "id_token" (ts_fields ts)) = true
    /\ validateIdToken E this (Date_now T (clock_reads w1)) (TSet ts)
         VUndefined (VStr "id_token") (client_state w1)
       = (Ok (Fulfilled (TSet ts)), client_state w')
    /\ clock_reads w' = S (clock_reads w1)
    /\ effects w' = effects w1.
Proof.
  unfold refresh.
  assert (Hfrom : exists source,
            match refreshToken with
            | TSet ts =>
                if truthy (lookup "refresh_token" (ts_fields ts))
                then Some (lookup "refresh_token" (ts_fields ts)) else None
            | TValue v => Some v
            end = source
            /\ forall token,
                 source = Some token ->
                 refreshToken = TValue token
                 \/ exists held,
                      refreshToken = TSet held
                      /\ lookup "refresh_token" (ts_fields held) = token
                      /\ truthy token = true).
  { eexists. split; [reflexivity|]. intros token.
    destruct refreshToken as [held|v].
    - destruct (truthy (lookup "refresh_token" (ts_fields held))) eqn:Hheld;
        [|discriminate].
      intros H. injection H as <-. right. exists held. auto.
    - intros H. injection H as <-. now left. }
  destruct Hfrom as (source & -> & Hfrom).
  destruct source as [token|]; [|discriminate].
  intros Hrun.
  assert (Hset : forall body t0,
            fst (grant E T this body w) = Resolves t0 ->
            exists ts0, t0 = TSet ts0).
  { intros body t0 Hfst.
    destruct (grant E T this body w) as [o0 wg] eqn:Hg.
    simpl in Hfst. subst o0.
    exact (grant_token_set _ _ _ _ _ _ Hg eq_refl). }
  destruct (checked_token_set this VUndefined _ w' (Resolves t) t
              (Hset _) Hrun eq_refl)
    as (ts0 & w0 & o1 & ts & w1 & Hg & Hd & Hs1 & -> & Htid & Hv
        & Hclock & Heff).
  exists token, ts0, w0, o1, ts, w1.
  split; [exact (Hfrom token eq_refl)|]. repeat split; assumption.
Qed.

End ResolvedProperties.

Lemma authorizationCallback_resolved_witness :
  let this :=
    Provider.client [] [("id_token_signed_response_alg", VStr "none")] in
  exists ts w1,
    fst (authorizationCallback Provider.collaborators Provider.transport this
           (VStr "https://rp/cb") (VObj [("code", VStr "c0")]) VUndefined
           Provider.start)
    = Resolves (Some (TSet ts))
    /\ truthy (lookup "id_token" (ts_fields ts)) = true
    /\ fst (validateIdToken Provider.collaborators this
              (Date_now Provider.transport (clock_reads w1)) (TSet ts)
              VUndefined (VStr "id_token") (client_state w1))
       = Ok (Fulfilled (TSet ts))
    /\ request_count w1 = 1%nat.
Proof.
  intros this.
  destruct (authorizationCallback_resolved Provider.collaborators
              Provider.transport this (VStr "https://rp/cb")
              (VObj [("code", VStr "c0")]) VUndefined Provider.start _ _
              eq_refl)
    as (ts & nonce & ts0 & w0 & o1 & w1 & Hr & Hnonce & Hid & _ & _ & _
        & Hv & _ & Heff).
  exists ts, w1. split; [now rewrite <- Hr|]. split; [exact Hid|].
  injection Hnonce as <-. split; [now rewrite Hv|].
  unfold request_count. now rewrite <- Heff.
Defined.

Lemma refresh_resolved_witness :
  let this :=
    Provider.client [] [("id_token_signed_response_alg", VStr "none")] in
  exists ts w1,
    fst (refresh Provider.collaborators Provider.transport this
           (TValue (VStr "rt")) Provider.start)
    = Resolves (TSet ts)
    /\ truthy (lookup "id_token" (ts_fields ts)) = true
    /\ fst (validateIdToken Provider.collaborators this
              (Date_now Provider.transport (clock_reads w1)) (TSet ts)
              VUndefined (VStr "id_token") (client_state w1))
       = Ok (Fulfilled (TSet ts))
    /\ request_count w1 = 1%nat.
Proof.
  intros this.
  destruct (refresh_resolved Provider.collaborators Provider.transport this
              (TValue (VStr "rt")) _ Provider.start _ eq_refl)
    as (token & ts0 & w0 & o1 & ts & w1 & _ & _ & _ & _ & Ht & Hid & Hv
        & _ & Heff).
  exists ts, w1. split; [now rewrite <- Ht|]. split; [exact Hid|].
  split; [now rewrite Hv|].
  unfold request_count. now rewrite <- Heff.
Defined.
